(** * SpurMart support chat: the message, history and conversations routes

    A shallow embedding of the three API route handlers
    ([POST /api/chat/message], [GET /api/chat/history],
    [GET /api/chat/conversations]), of the LLM gateway
    ([LLMService]) they call and of the handlers of the chat widget
    ([ChatWidget]) that calls them, followed by the properties of the
    orchestration flow.

    Modelling conventions.
    - A JavaScript string is a [string]; only its length and equality are
      observed by the handlers.
    - The relational store is a record of two tables kept in insertion
      order, an id counter standing for [@default(cuid())] (every row gets
      an id never used before) and the clock read by [now()] and
      [new Date()].  Time passes between two writes by an amount chosen by
      the environment, possibly zero.
    - [orderBy] is a stable insertion sort: rows with equal keys keep their
      insertion order.  The engine leaves the order of conversations with
      equal [updatedAt] open; the properties of the listing are stated up
      to a permutation, or where the keys differ, and hold for any order
      of such rows.
    - The store is assumed reachable; the persistence failures modelled are
      those a request can trigger by what it carries: a constraint
      violation, a text the engine cannot encode (PostgreSQL refuses
      U+0000) and a session token too large for the unique index.  Which
      strings the engine refuses is a parameter of the store.
    - Handlers run in a state-and-exception monad over the store and a
      chronological trace of the calls issued to the store and to the
      provider.
    - The widget is a record of its state cells; [String.prototype.trim]
      is a parameter of the handler that uses it, and the formatting of
      dates by locale is left out. *)

From Stdlib Require Import List String Ascii Arith Bool Lia NArith ZArith QArith.
From Stdlib Require Import Sorted Permutation DecimalString.
Import ListNotations.

Local Open Scope string_scope.
Local Open Scope list_scope.
Local Open Scope nat_scope.

(** ** Data model (README, "Database Schema") *)

Inductive Sender := USER | AI.

Definition Sender_eqb (a b : Sender) : bool :=
  match a, b with
  | USER, USER | AI, AI => true
  | _, _ => false
  end.

(** The runtime value of the enum, as the gateway sees it. *)
Definition Sender_to_string (s : Sender) : string :=
  match s with
  | USER => "USER"
  | AI => "AI"
  end.

Module Conversation.
Record t := mk {
  id : nat;
  sessionId : string;
  createdAt : nat;
  updatedAt : nat
}.
End Conversation.

Module Message.
Record t := mk {
  id : nat;
  conversationId : nat;
  sender : Sender;
  text : string;
  timestamp : nat
}.
End Message.

(** What the database engine behind the tables (PostgreSQL, README "Tech
    Stack") accepts of the strings a request carries: [encodes s] says that
    [s] can be sent as a text value, in a [where] clause or in [data] (the
    engine refuses a text that contains U+0000), and [fits_index s] that
    [s] can be entered in the unique index on [sessionId] (an index entry
    has a maximum size).  A call that carries a refused string throws. *)
Record Engine := mkEngine {
  encodes : string -> bool;
  fits_index : string -> bool
}.

Record Store := mkStore {
  conversations : list Conversation.t;
  messages : list Message.t;
  next_id : nat;
  clock : nat;
  engine : Engine
}.

(** The tables right after the migration, on a given engine. *)
Definition fresh (e : Engine) : Store :=
  {| conversations := []; messages := []; next_id := 0; clock := 0; engine := e |}.

(** An engine that refuses a text containing U+0000 and an index entry of
    more than 2704 characters (a third of a page), used for the runs on
    concrete inputs. *)
Definition has_nul (s : string) : bool :=
  existsb (Ascii.eqb Ascii.zero) (list_ascii_of_string s).

Definition postgres : Engine :=
  {| encodes := fun s => negb (has_nul s);
     fits_index := fun s => String.length s <=? 2704 |}.

Definition empty_store : Store := fresh postgres.

(** ** The provider request and its outcome *)

Inductive Role := system | user | assistant.

(** [ChatMessage], extended with the [system] role of the first entry. *)
Record ChatMessage := mkChat {
  role : Role;
  content : string
}.

Record ChatRequest := mkRequest {
  rq_model : string;
  rq_messages : list ChatMessage;
  rq_max_tokens : nat;
  rq_temperature : Q
}.

(** What [client.chat.completions.create] does with a request: it resolves
    with [response.choices[0]?.message?.content] (absent when [None]), or
    rejects with an [OpenAI.APIError] carrying a status and the provider's
    own message, or rejects with anything else. *)
Inductive CompletionOutcome :=
| Resolved (content : option string)
| RejectedAPIError (status : option nat) (raw : string)
| RejectedOther (raw : string).

Record OpenAI := mkOpenAI {
  apiKey : string;
  chat_completions_create : ChatRequest -> CompletionOutcome
}.

Record LLMService := mkLLM {
  client : option OpenAI;
  model : string
}.

(** ** Effects *)

Inductive Effect :=
| ConversationFindUnique (sessionId : string)
| ConversationCreate (sessionId : string)
| ConversationUpdate (id : nat)
| ConversationFindMany
| MessageCreate (conversationId : nat) (sender : Sender) (text : string)
| MessageFindMany (conversationId : nat)
| ChatCompletionsCreate (request : ChatRequest).

Record World := mkWorld {
  store : Store;
  trace : list Effect
}.

Inductive Exception :=
| SyntaxError
| InvalidByteSequence
| IndexRowTooLarge
| UniqueConstraintViolation
| ForeignKeyViolation
| RecordNotFound.

Inductive Outcome (A : Type) :=
| Returned (a : A)
| Thrown (e : Exception).
Arguments Returned {A} a.
Arguments Thrown {A} e.

Definition M (A : Type) : Type := World -> Outcome A * World.

Definition ret {A} (a : A) : M A := fun w => (Returned a, w).

Definition bind {A B} (m : M A) (k : A -> M B) : M B :=
  fun w =>
    match m w with
    | (Returned a, w') => k a w'
    | (Thrown e, w') => (Thrown e, w')
    end.

Definition throw {A} (e : Exception) : M A := fun w => (Thrown e, w).

(** [try { body } catch (error) { handler }]: what [body] wrote before it
    threw stays written. *)
Definition try_catch {A} (body : M A) (handler : Exception -> M A) : M A :=
  fun w =>
    match body w with
    | (Returned a, w') => (Returned a, w')
    | (Thrown e, w') => handler e w'
    end.

Notation "x <- m ;; k" := (bind m (fun x => k))
  (at level 61, m at next level, right associativity).
Notation "m ;;; k" := (bind m (fun _ => k))
  (at level 61, right associativity).

Definition log (e : Effect) (w : World) : World :=
  {| store := store w; trace := trace w ++ [e] |}.

Definition with_store (s : Store) (w : World) : World :=
  {| store := s; trace := trace w |}.

Definition advance (dt : nat) (s : Store) : Store :=
  {| conversations := conversations s; messages := messages s;
     next_id := next_id s; clock := clock s + dt; engine := engine s |}.

(** ** JavaScript helpers *)

(** Truthiness of a string: the empty string is falsy. *)
Definition truthy (s : string) : bool :=
  match s with
  | EmptyString => false
  | String _ _ => true
  end.

(** Truthiness of a [string | undefined]. *)
Definition truthy_opt (o : option string) : bool :=
  match o with
  | Some s => truthy s
  | None => false
  end.

(** [a || b] on a [string | undefined] left operand. *)
Definition or_else (o : option string) (d : string) : string :=
  match o with
  | Some s => if truthy s then s else d
  | None => d
  end.

(** [Array.prototype.slice(-n)]: the last [n] elements, all of them when
    there are fewer. *)
Definition slice_last {A} (n : nat) (l : list A) : list A :=
  skipn (List.length l - n) l.

(** [orderBy: { key: 'asc' }] and [orderBy: { key: 'desc' }]. *)
Fixpoint insert_asc {A} (key : A -> nat) (x : A) (l : list A) : list A :=
  match l with
  | [] => [x]
  | y :: l' => if key x <=? key y then x :: y :: l' else y :: insert_asc key x l'
  end.

Definition orderBy_asc {A} (key : A -> nat) (l : list A) : list A :=
  fold_right (insert_asc key) [] l.

Fixpoint insert_desc {A} (key : A -> nat) (x : A) (l : list A) : list A :=
  match l with
  | [] => [x]
  | y :: l' => if key y <=? key x then x :: y :: l' else y :: insert_desc key x l'
  end.

Definition orderBy_desc {A} (key : A -> nat) (l : list A) : list A :=
  fold_right (insert_desc key) [] l.

(** [crypto.randomUUID()]: a version 4 UUID printed from the entropy the
    platform drew, 36 characters with dashes at positions 8, 13, 18, 23. *)
Definition hex_digit (n : N) : ascii :=
  match n with
  | 0 => "0" | 1 => "1" | 2 => "2" | 3 => "3" | 4 => "4" | 5 => "5"
  | 6 => "6" | 7 => "7" | 8 => "8" | 9 => "9" | 10 => "a" | 11 => "b"
  | 12 => "c" | 13 => "d" | 14 => "e" | _ => "f"
  end%N%char.

Definition nibble (entropy : N) (i : nat) : N :=
  N.land (N.shiftr entropy (4 * N.of_nat i)) 15.

Definition uuid_char (entropy : N) (i : nat) : ascii :=
  if (i =? 8) || (i =? 13) || (i =? 18) || (i =? 23) then "-"%char
  else if i =? 14 then "4"%char
  else if i =? 19 then hex_digit (8 + N.land (nibble entropy i) 3)
  else hex_digit (nibble entropy i).

Definition randomUUID (entropy : N) : string :=
  string_of_list_ascii (map (uuid_char entropy) (seq 0 36)).

(** ** The persistence client (the Prisma calls the handlers make) *)

Definition has_sessionId (sessionId : string) (c : Conversation.t) : bool :=
  String.eqb (Conversation.sessionId c) sessionId.

Definition has_id (id : nat) (c : Conversation.t) : bool :=
  Conversation.id c =? id.

Definition belongs_to (conversationId : nat) (m : Message.t) : bool :=
  Message.conversationId m =? conversationId.

(** [prisma.conversation.findUnique({ where: { sessionId } })]: the call
    throws when the engine cannot encode [sessionId]. *)
Definition conversation_findUnique (sessionId : string) : M (option Conversation.t) :=
  fun w =>
    let w' := log (ConversationFindUnique sessionId) w in
    if encodes (engine (store w)) sessionId then
      (Returned (find (has_sessionId sessionId) (conversations (store w))), w')
    else (Thrown InvalidByteSequence, w').

(** Rows as the store fills them in: a fresh id, the time of the write. *)
Definition new_conversation (s : Store) (sessionId : string) : Conversation.t :=
  {| Conversation.id := next_id s;
     Conversation.sessionId := sessionId;
     Conversation.createdAt := clock s;
     Conversation.updatedAt := clock s |}.

Definition new_message (s : Store) (conversationId : nat) (sender : Sender)
    (text : string) : Message.t :=
  {| Message.id := next_id s;
     Message.conversationId := conversationId;
     Message.sender := sender;
     Message.text := text;
     Message.timestamp := clock s |}.

Definition insert_conversation (c : Conversation.t) (s : Store) : Store :=
  {| conversations := conversations s ++ [c];
     messages := messages s;
     next_id := S (next_id s);
     clock := clock s;
     engine := engine s |}.

Definition insert_message (m : Message.t) (s : Store) : Store :=
  {| conversations := conversations s;
     messages := messages s ++ [m];
     next_id := S (next_id s);
     clock := clock s;
     engine := engine s |}.

Definition set_updatedAt (id now : nat) (c : Conversation.t) : Conversation.t :=
  if has_id id c then
    {| Conversation.id := Conversation.id c;
       Conversation.sessionId := Conversation.sessionId c;
       Conversation.createdAt := Conversation.createdAt c;
       Conversation.updatedAt := now |}
  else c.

Definition touch_conversation (id : nat) (s : Store) : Store :=
  {| conversations := map (set_updatedAt id (clock s)) (conversations s);
     messages := messages s;
     next_id := next_id s;
     clock := clock s;
     engine := engine s |}.

(** Why the store refuses to create a conversation under [sessionId], if
    it does: the engine cannot encode the token, the token does not fit the
    unique index, or a conversation carries it already ([sessionId] is
    [@unique]). *)
Definition create_refusal (s : Store) (sessionId : string) : option Exception :=
  if negb (encodes (engine s) sessionId) then Some InvalidByteSequence
  else if negb (fits_index (engine s) sessionId) then Some IndexRowTooLarge
  else if existsb (has_sessionId sessionId) (conversations s)
  then Some UniqueConstraintViolation
  else None.

(** [prisma.conversation.create({ data: { sessionId } })] *)
Definition conversation_create (dt : nat) (sessionId : string) : M Conversation.t :=
  fun w =>
    let s := advance dt (store w) in
    let w' := log (ConversationCreate sessionId) w in
    match create_refusal s sessionId with
    | Some e => (Thrown e, with_store s w')
    | None =>
        let c := new_conversation s sessionId in
        (Returned c, with_store (insert_conversation c s) w')
    end.

(** [prisma.conversation.update({ where: { id }, data: { updatedAt: new Date() } })] *)
Definition conversation_update (dt : nat) (id : nat) : M unit :=
  fun w =>
    let s := advance dt (store w) in
    let w' := log (ConversationUpdate id) w in
    if existsb (has_id id) (conversations s) then
      (Returned tt, with_store (touch_conversation id s) w')
    else (Thrown RecordNotFound, with_store s w').

(** [prisma.message.create({ data: { conversationId, sender, text } })]:
    the call throws when the engine cannot encode [text], and the row
    references an existing conversation. *)
Definition message_create (dt : nat) (conversationId : nat) (sender : Sender)
    (text : string) : M Message.t :=
  fun w =>
    let s := advance dt (store w) in
    let w' := log (MessageCreate conversationId sender text) w in
    if negb (encodes (engine s) text) then
      (Thrown InvalidByteSequence, with_store s w')
    else if existsb (has_id conversationId) (conversations s) then
      let m := new_message s conversationId sender text in
      (Returned m, with_store (insert_message m s) w')
    else (Thrown ForeignKeyViolation, with_store s w').

(** The relation [messages] of a conversation, [orderBy: { timestamp: 'asc' }]. *)
Definition messages_of (s : Store) (conversationId : nat) : list Message.t :=
  orderBy_asc Message.timestamp (filter (belongs_to conversationId) (messages s)).

(** [prisma.message.findMany({ where: { conversationId },
      orderBy: { timestamp: 'asc' }, select: { sender, text } })] *)
Record Turn := mkTurn {
  sender : string;
  text : string
}.

Definition select_sender_text (m : Message.t) : Turn :=
  {| sender := Sender_to_string (Message.sender m); text := Message.text m |}.

Definition message_findMany (conversationId : nat) : M (list Turn) :=
  fun w =>
    (Returned (map select_sender_text (messages_of (store w) conversationId)),
     log (MessageFindMany conversationId) w).

(** [select: { id, sender, text, timestamp }] *)
Module HistoryItem.
Record t := mk {
  id : nat;
  sender : Sender;
  text : string;
  timestamp : nat
}.
End HistoryItem.

Definition select_history_item (m : Message.t) : HistoryItem.t :=
  {| HistoryItem.id := Message.id m;
     HistoryItem.sender := Message.sender m;
     HistoryItem.text := Message.text m;
     HistoryItem.timestamp := Message.timestamp m |}.

(** [prisma.conversation.findUnique({ where: { sessionId },
      include: { messages: { orderBy: { timestamp: 'asc' }, select: ... } } })]:
    the call throws when the engine cannot encode [sessionId]. *)
Definition conversation_findUnique_with_messages (sessionId : string)
  : M (option (Conversation.t * list HistoryItem.t)) :=
  fun w =>
    let w' := log (ConversationFindUnique sessionId) w in
    if encodes (engine (store w)) sessionId then
      (Returned
         (match find (has_sessionId sessionId) (conversations (store w)) with
          | Some c =>
              Some (c, map select_history_item
                           (messages_of (store w) (Conversation.id c)))
          | None => None
          end),
       w')
    else (Thrown InvalidByteSequence, w').

(** One row of [prisma.conversation.findMany] with its included relations. *)
Record ConversationWithCount := mkWithCount {
  conv : Conversation.t;
  conv_messages : list Message.t;  (* orderBy timestamp asc, take: 1 *)
  _count_messages : nat
}.

Definition include_first_and_count (s : Store) (c : Conversation.t) : ConversationWithCount :=
  {| conv := c;
     conv_messages := firstn 1 (messages_of s (Conversation.id c));
     _count_messages :=
       List.length (filter (belongs_to (Conversation.id c)) (messages s)) |}.

(** [prisma.conversation.findMany({ orderBy: { updatedAt: 'desc' },
      include: { messages: { orderBy: { timestamp: 'asc' }, take: 1 },
                 _count: { select: { messages: true } } } })] *)
Definition conversation_findMany : M (list ConversationWithCount) :=
  fun w =>
    (Returned
       (map (include_first_and_count (store w))
            (orderBy_desc Conversation.updatedAt (conversations (store w)))),
     log ConversationFindMany w).

(** ** The LLM gateway (LLMService) *)

Definition double_quote : string := String (ascii_of_nat 34) EmptyString.

Definition SYSTEM_PROMPT : string :=
  ("You are a helpful support agent for "
  ++ double_quote ++ "SpurMart"
  ++ double_quote ++ ", a small e-commerce store. Answer clearly and concisely.

Here is what you know about our store:

## Shipping Policy
- We offer free shipping on orders over $50
- Standard shipping takes 3-5 business days within the US
- Express shipping (1-2 business days) is available for $12.99
- We ship to all 50 US states and Puerto Rico
- International shipping is not currently available

## Return & Refund Policy
- Returns are accepted within 30 days of purchase
- Items must be unworn, unwashed, and in original packaging
- Return shipping is free for defective items
- For other returns, customer pays return shipping ($5.99 flat rate)
- Refunds are processed within 5-7 business days of receiving the return
- Gift cards and final sale items cannot be returned

## Support Hours
- Our support team is available Monday-Friday, 9 AM - 6 PM EST
- Weekend support is limited to email only
- Response time: typically within 2 hours during business hours

## Payment Methods
- We accept all major credit cards (Visa, Mastercard, Amex, Discover)
- PayPal, Apple Pay, and Google Pay are also accepted
- All payments are securely processed

If you don't know the answer to a question, politely say you don't have that information and suggest they contact our support team at support@spurmart.com.")%string.

(** [new LLMService()]: the client exists only when [OPENAI_API_KEY] is a
    non-empty string; [provider] is what the hosted API answers. *)
Definition new_LLMService (OPENAI_API_KEY OPENAI_MODEL : option string)
    (provider : ChatRequest -> CompletionOutcome) : LLMService :=
  {| client :=
       match OPENAI_API_KEY with
       | Some key =>
           if truthy key
           then Some {| apiKey := key; chat_completions_create := provider |}
           else None
       | None => None
       end;
     model := or_else OPENAI_MODEL "gpt-4o-mini" |}.

Definition formatHistory (messages : list Turn) : list ChatMessage :=
  map (fun msg =>
         {| role := if String.eqb (sender msg) "user" then user else assistant;
            content := text msg |})
      messages.

Record GenerateResult := mkResult {
  reply : string;
  error : option string
}.

Definition NOT_CONFIGURED : string :=
  "LLM service not configured. Please check API key.".
Definition INVALID_KEY : string :=
  "Invalid API key. Please contact support.".
Definition HIGH_DEMAND : string :=
  "Service is experiencing high demand. Please try again in a moment.".
Definition UNAVAILABLE : string :=
  "Our AI service is temporarily unavailable. Please try again.".
Definition WENT_WRONG : string :=
  "Something went wrong. Please try again.".
Definition NO_RESPONSE : string :=
  "I apologize, but I couldn't generate a response. Please try again.".

Definition status_is (status : option nat) (n : nat) : bool :=
  match status with
  | Some k => k =? n
  | None => false
  end.

(** The request of [generateReply] (the argument of
    [client.chat.completions.create]). *)
Definition build_request (this : LLMService) (history : list Turn)
    (userMessage : string) : ChatRequest :=
  let formattedHistory := formatHistory history in
  {| rq_model := model this;
     rq_messages :=
       [ {| role := system; content := SYSTEM_PROMPT |} ]
       ++ slice_last 10 formattedHistory
       ++ [ {| role := user; content := userMessage |} ];
     rq_max_tokens := 500;
     rq_temperature := 7 # 10 |}.

(** The [try]/[catch] of [generateReply]: a single attempt, mapped to a
    reply or to one of the fixed sentences. *)
Definition interpret_outcome (o : CompletionOutcome) : GenerateResult :=
  match o with
  | Resolved content =>
      {| reply := or_else content NO_RESPONSE; error := None |}
  | RejectedAPIError status _ =>
      if status_is status 401 then
        {| reply := EmptyString; error := Some INVALID_KEY |}
      else if status_is status 429 then
        {| reply := EmptyString; error := Some HIGH_DEMAND |}
      else if status_is status 500 || status_is status 502 || status_is status 503 then
        {| reply := EmptyString; error := Some UNAVAILABLE |}
      else
        {| reply := EmptyString; error := Some WENT_WRONG |}
  | RejectedOther _ =>
      {| reply := EmptyString; error := Some WENT_WRONG |}
  end.

Definition generateReply (this : LLMService) (history : list Turn)
    (userMessage : string) : M GenerateResult :=
  match client this with
  | None => ret {| reply := EmptyString; error := Some NOT_CONFIGURED |}
  | Some c =>
      let request := build_request this history userMessage in
      fun w =>
        (Returned (interpret_outcome (chat_completions_create c request)),
         log (ChatCompletionsCreate request) w)
  end.

Definition isConfigured (this : LLMService) : bool :=
  match client this with
  | Some _ => true
  | None => false
  end.

(** ** Requests and responses *)

(** A field of the JSON body, or a query parameter. *)
Inductive Field :=
| Absent
| Null
| Boolean (b : bool)
| Number (n : Z)
| Str (s : string)
| Compound.

(** What [request.json()] finds in the body. *)
Inductive RequestBody :=
| Malformed
| NotAnObject
| Body (message sessionId : Field).

(** The [error] field of a response: one of the handlers' sentences, or the
    validator's default message for a value of the wrong type at a path. *)
Inductive ErrorText :=
| Sentence (s : string)
| InvalidType (path : list string).

Module ConversationSummary.
Record t := mk {
  id : nat;
  sessionId : string;
  createdAt : nat;
  updatedAt : nat;
  messageCount : nat;
  firstMessage : string
}.
End ConversationSummary.

Inductive ResponseBody :=
| ErrorBody (error : ErrorText)
| ReplyBody (reply sessionId : string)
| HistoryBody (messages : list HistoryItem.t) (sessionId : option string)
| ConversationsBody (conversations : list ConversationSummary.t).

Record Response := mkResponse {
  status : nat;
  body : ResponseBody
}.

(** [NextResponse.json(body, { status })], status 200 when omitted. *)
Definition NextResponse_json (b : ResponseBody) (st : nat) : Response :=
  {| status := st; body := b |}.

Definition request_json (request : RequestBody) : M RequestBody :=
  match request with
  | Malformed => throw SyntaxError
  | _ => ret request
  end.

(** ** The environment of one request *)

Record Env := mkEnv {
  OPENAI_API_KEY : option string;
  OPENAI_MODEL : option string;
  provider : ChatRequest -> CompletionOutcome;
  (** the entropy [crypto.randomUUID()] draws when it is called *)
  entropy : N;
  (** the time that passes before each of the four writes of [POST] *)
  dt_conversation : nat;
  dt_user : nat;
  dt_assistant : nat;
  dt_update : nat
}.

(** [getLLMService()]: the singleton built from the process environment. *)
Definition getLLMService (env : Env) : LLMService :=
  new_LLMService (OPENAI_API_KEY env) (OPENAI_MODEL env) (provider env).

(** ** POST /api/chat/message *)

Module MessageRoute.

Definition MAX_MESSAGE_LENGTH : nat := 2000.

Definition EMPTY_MESSAGE : string := "Message cannot be empty".

Definition TOO_LONG : string :=
  ("Message too long (max "
   ++ NilEmpty.string_of_uint (Nat.to_uint MAX_MESSAGE_LENGTH)
   ++ " characters)")%string.

Definition UNEXPECTED : string :=
  "An unexpected error occurred. Please try again.".

Definition fallbackReply : string :=
  "I'm sorry, but our AI support is currently unavailable. Please contact us at support@spurmart.com for assistance.".

(** [z.string().min(1, ...).max(MAX_MESSAGE_LENGTH, ...)] *)
Definition parse_message (message : Field) : ErrorText + string :=
  match message with
  | Str s =>
      if String.length s <? 1 then inl (Sentence EMPTY_MESSAGE)
      else if MAX_MESSAGE_LENGTH <? String.length s then inl (Sentence TOO_LONG)
      else inr s
  | _ => inl (InvalidType ["message"])
  end.

(** [z.string().optional()] *)
Definition parse_sessionId (sessionId : Field) : ErrorText + option string :=
  match sessionId with
  | Absent => inr None
  | Str s => inr (Some s)
  | _ => inl (InvalidType ["sessionId"])
  end.

(** [messageSchema.safeParse(body)]: the first issue
    ([validationResult.error.issues[0].message]) or the parsed data. *)
Definition messageSchema_safeParse (body : RequestBody)
  : ErrorText + (string * option string) :=
  match body with
  | Body message sessionId =>
      match parse_message message, parse_sessionId sessionId with
      | inl issue, _ => inl issue
      | inr _, inl issue => inl issue
      | inr m, inr s => inr (m, s)
      end
  | _ => inl (InvalidType [])
  end.

(** "Get or create conversation" *)
Definition getOrCreateConversation (env : Env) (sessionId : option string)
  : M Conversation.t :=
  conversation <-
    match sessionId with
    | Some s => if truthy s then conversation_findUnique s else ret None
    | None => ret None
    end ;;
  match conversation with
  | Some c => ret c
  | None =>
      let newSessionId := or_else sessionId (randomUUID (entropy env)) in
      conversation_create (dt_conversation env) newSessionId
  end.

(** "Save AI reply" and "Update conversation timestamp" *)
Definition saveReply (env : Env) (conversation : Conversation.t) (reply : string)
  : M Response :=
  message_create (dt_assistant env) (Conversation.id conversation) AI reply ;;;
  conversation_update (dt_update env) (Conversation.id conversation) ;;;
  ret (NextResponse_json
         (ReplyBody reply (Conversation.sessionId conversation)) 200).

(** From "Save user message" to the final response. *)
Definition replyTo (env : Env) (conversation : Conversation.t) (message : string)
  : M Response :=
  (* Save user message *)
  message_create (dt_user env) (Conversation.id conversation) USER message ;;;
  (* Get conversation history for context *)
  history <- message_findMany (Conversation.id conversation) ;;
  (* Generate AI reply *)
  let llmService := getLLMService env in
  if negb (isConfigured llmService) then
    message_create (dt_assistant env) (Conversation.id conversation)
                   AI fallbackReply ;;;
    ret (NextResponse_json
           (ReplyBody fallbackReply (Conversation.sessionId conversation)) 200)
  else
    result <- generateReply llmService history message ;;
    match error result with
    | Some e =>
        if truthy e
        then ret (NextResponse_json (ErrorBody (Sentence e)) 500)
        else saveReply env conversation (reply result)
    | None => saveReply env conversation (reply result)
    end.

Definition POST (env : Env) (request : RequestBody) : M Response :=
  try_catch
    (body <- request_json request ;;
     match messageSchema_safeParse body with
     | inl issue => ret (NextResponse_json (ErrorBody issue) 400)
     | inr (message, sessionId) =>
         conversation <- getOrCreateConversation env sessionId ;;
         replyTo env conversation message
     end)
    (fun _ => ret (NextResponse_json (ErrorBody (Sentence UNEXPECTED)) 500)).

End MessageRoute.

(** ** GET /api/chat/history *)

Module HistoryRoute.

Definition REQUIRED : string := "Session ID is required".
Definition FAILED : string := "Failed to fetch chat history".

(** [historySchema.safeParse({ sessionId })] with
    [sessionId = searchParams.get('sessionId')], [None] when the
    parameter is missing. *)
Definition historySchema_safeParse (sessionId : option string)
  : ErrorText + string :=
  match sessionId with
  | Some s =>
      if String.length s <? 1 then inl (Sentence REQUIRED) else inr s
  | None => inl (InvalidType ["sessionId"])
  end.

Definition GET (sessionId : option string) : M Response :=
  try_catch
    (match historySchema_safeParse sessionId with
     | inl issue => ret (NextResponse_json (ErrorBody issue) 400)
     | inr data_sessionId =>
         conversation <- conversation_findUnique_with_messages data_sessionId ;;
         match conversation with
         | None =>
             ret (NextResponse_json (HistoryBody [] sessionId) 200)
         | Some (c, msgs) =>
             ret (NextResponse_json
                    (HistoryBody msgs (Some (Conversation.sessionId c))) 200)
         end
     end)
    (fun _ => ret (NextResponse_json (ErrorBody (Sentence FAILED)) 500)).

End HistoryRoute.

(** ** GET /api/chat/conversations *)

Module ConversationsRoute.

Definition FAILED : string := "Failed to fetch conversations".
Definition NEW_CONVERSATION : string := "New conversation".

Definition summary (c : ConversationWithCount) : ConversationSummary.t :=
  {| ConversationSummary.id := Conversation.id (conv c);
     ConversationSummary.sessionId := Conversation.sessionId (conv c);
     ConversationSummary.createdAt := Conversation.createdAt (conv c);
     ConversationSummary.updatedAt := Conversation.updatedAt (conv c);
     ConversationSummary.messageCount := _count_messages c;
     ConversationSummary.firstMessage :=
       or_else (option_map Message.text (nth_error (conv_messages c) 0))
               NEW_CONVERSATION |}.

Definition GET : M Response :=
  try_catch
    (conversations <- conversation_findMany ;;
     ret (NextResponse_json (ConversationsBody (map summary conversations)) 200))
    (fun _ => ret (NextResponse_json (ErrorBody (Sentence FAILED)) 500)).

End ConversationsRoute.

(** ** The chat widget (ChatWidget)

    The component is a record of its [useState] cells; a handler is a
    function from the state in which it is invoked to the state it leaves,
    together with the requests it issues.  A handler that awaits a request
    is cut at the [await]: the second half takes what the first half
    captured, what [fetch] produced and the state at that time.  The item
    [chatCurrentSessionId] of [localStorage] is kept beside the state. *)

Module ChatWidget.

(** The id of a message on screen: the id of a stored row, or a UUID drawn
    by the widget; the two never coincide. *)
Inductive MessageId :=
| Stored (id : nat)
| Local (uuid : string).

Definition MessageId_eqb (a b : MessageId) : bool :=
  match a, b with
  | Stored n, Stored m => n =? m
  | Local s, Local t => String.eqb s t
  | _, _ => false
  end.

(** [interface Message]; [text] is absent when the field read from a
    response is. *)
Record Message := mkMessage {
  id : MessageId;
  sender : Sender;
  text : option string;
  timestamp : nat
}.

Record State := mkState {
  isOpen : bool;
  showSidebar : bool;
  messages : list Message;
  inputValue : string;
  isLoading : bool;
  isTyping : bool;
  currentSessionId : option string;
  conversations : list ConversationSummary.t;
  error : option ErrorText
}.

Record Props := mkProps {
  controlledIsOpen : option bool;
  (** whether an [onToggle] callback is passed *)
  onToggle : bool
}.

(** The state and the [localStorage] item. *)
Record Client := mkClient {
  state : State;
  chatCurrentSessionId : option string
}.

(** The initial [useState] values. *)
Definition initial (props : Props) : Client :=
  {| state :=
       {| isOpen := match controlledIsOpen props with Some b => b | None => false end;
          showSidebar := false;
          messages := [];
          inputValue := EmptyString;
          isLoading := false;
          isTyping := false;
          currentSessionId := None;
          conversations := [];
          error := None |};
     chatCurrentSessionId := None |}.

(** The requests the widget sends. *)
Inductive Request :=
| PostMessage (message : string) (sessionId : option string)
| GetHistory (sessionId : string)
| GetConversations.

(** What awaiting [fetch] and [response.json()] gives: a rejection, with
    the message of the error when it is an [Error], or a response. *)
Inductive Fetched :=
| Rejected (message : option string)
| Responded (r : Response).

(** [response.ok] *)
Definition ok (r : Response) : bool := (200 <=? status r) && (status r <=? 299).

(** The fields read from [data]. *)
Definition data_error (data : ResponseBody) : option ErrorText :=
  match data with
  | ErrorBody e => Some e
  | _ => None
  end.

Definition data_reply (data : ResponseBody) : option string :=
  match data with
  | ReplyBody reply _ => Some reply
  | _ => None
  end.

Definition data_sessionId (data : ResponseBody) : option string :=
  match data with
  | ReplyBody _ sessionId => Some sessionId
  | HistoryBody _ sessionId => sessionId
  | _ => None
  end.

Definition data_messages (data : ResponseBody) : option (list HistoryItem.t) :=
  match data with
  | HistoryBody items _ => Some items
  | _ => None
  end.

Definition data_conversations (data : ResponseBody)
  : option (list ConversationSummary.t) :=
  match data with
  | ConversationsBody l => Some l
  | _ => None
  end.

(** A message of a history response, as the widget keeps it. *)
Definition of_item (item : HistoryItem.t) : Message :=
  {| id := Stored (HistoryItem.id item);
     sender := HistoryItem.sender item;
     text := Some (HistoryItem.text item);
     timestamp := HistoryItem.timestamp item |}.

(** [data.error || d]: the validator's default messages are not empty. *)
Definition error_or (e : option ErrorText) (d : string) : ErrorText :=
  match e with
  | Some (Sentence s) => if truthy s then Sentence s else Sentence d
  | Some (InvalidType path) => InvalidType path
  | None => Sentence d
  end.

Definition currentIsOpen (props : Props) (st : State) : bool :=
  match controlledIsOpen props with
  | Some b => b
  | None => isOpen st
  end.

Definition set_isOpen (b : bool) (st : State) : State :=
  mkState b (showSidebar st) (messages st) (inputValue st) (isLoading st)
          (isTyping st) (currentSessionId st) (conversations st) (error st).

Definition set_showSidebar (b : bool) (st : State) : State :=
  mkState (isOpen st) b (messages st) (inputValue st) (isLoading st)
          (isTyping st) (currentSessionId st) (conversations st) (error st).

Definition set_messages (l : list Message) (st : State) : State :=
  mkState (isOpen st) (showSidebar st) l (inputValue st) (isLoading st)
          (isTyping st) (currentSessionId st) (conversations st) (error st).

Definition set_inputValue (s : string) (st : State) : State :=
  mkState (isOpen st) (showSidebar st) (messages st) s (isLoading st)
          (isTyping st) (currentSessionId st) (conversations st) (error st).

Definition set_isLoading (b : bool) (st : State) : State :=
  mkState (isOpen st) (showSidebar st) (messages st) (inputValue st) b
          (isTyping st) (currentSessionId st) (conversations st) (error st).

Definition set_isTyping (b : bool) (st : State) : State :=
  mkState (isOpen st) (showSidebar st) (messages st) (inputValue st) (isLoading st)
          b (currentSessionId st) (conversations st) (error st).

Definition set_currentSessionId (s : option string) (st : State) : State :=
  mkState (isOpen st) (showSidebar st) (messages st) (inputValue st) (isLoading st)
          (isTyping st) s (conversations st) (error st).

Definition set_conversations (l : list ConversationSummary.t) (st : State) : State :=
  mkState (isOpen st) (showSidebar st) (messages st) (inputValue st) (isLoading st)
          (isTyping st) (currentSessionId st) l (error st).

Definition set_error (e : option ErrorText) (st : State) : State :=
  mkState (isOpen st) (showSidebar st) (messages st) (inputValue st) (isLoading st)
          (isTyping st) (currentSessionId st) (conversations st) e.

(** [handleToggle]: the state it leaves and whether [onToggle] is called. *)
Definition handleToggle (props : Props) (st : State) : State * bool :=
  match controlledIsOpen props with
  | Some _ =>
      if onToggle props then (st, true)
      else (set_isOpen (negb (isOpen st)) st, false)
  | None => (set_isOpen (negb (isOpen st)) st, false)
  end.

(** The header button [setShowSidebar(!showSidebar)], with the effect that
    loads the conversations when the sidebar opens. *)
Definition toggleSidebar (st : State) : State * list Request :=
  (set_showSidebar (negb (showSidebar st)) st,
   if negb (showSidebar st) then [GetConversations] else []).

(** The effect run on mount. *)
Definition mount (cl : Client) : Client * list Request :=
  match chatCurrentSessionId cl with
  | Some storedSessionId =>
      if truthy storedSessionId then
        ({| state := set_currentSessionId (Some storedSessionId) (state cl);
            chatCurrentSessionId := chatCurrentSessionId cl |},
         [GetHistory storedSessionId])
      else (cl, [])
  | None => (cl, [])
  end.

(** [loadConversations] and [loadHistory] after the [await]: a response
    that is not ok and a rejection change nothing. *)
Definition loadConversations_settled (fetched : Fetched) (st : State) : State :=
  match fetched with
  | Responded r =>
      if ok r then
        set_conversations
          (match data_conversations (body r) with Some l => l | None => [] end) st
      else st
  | Rejected _ => st
  end.

Definition loadHistory_settled (fetched : Fetched) (st : State) : State :=
  match fetched with
  | Responded r =>
      if ok r then
        set_messages
          (match data_messages (body r) with
           | Some items => map of_item items
           | None => []
           end) st
      else st
  | Rejected _ => st
  end.

Definition startNewConversation (entropy : N) (cl : Client) : Client :=
  let newSessionId := randomUUID entropy in
  {| state :=
       set_error None
         (set_showSidebar false
            (set_messages []
               (set_currentSessionId (Some newSessionId) (state cl))));
     chatCurrentSessionId := Some newSessionId |}.

Definition selectConversation (conv : ConversationSummary.t) (cl : Client)
  : Client * list Request :=
  ({| state :=
        set_error None
          (set_showSidebar false
             (set_currentSessionId (Some (ConversationSummary.sessionId conv))
                                   (state cl)));
      chatCurrentSessionId := Some (ConversationSummary.sessionId conv) |},
   [GetHistory (ConversationSummary.sessionId conv)]).

(** What [sendMessage] still holds after its [await]: the message it put
    on screen and the [currentSessionId] and [showSidebar] of the render in
    which it was invoked. *)
Record Pending := mkPending {
  userMessage : Message;
  sessionIdThen : option string;
  showSidebarThen : bool
}.

(** [sendMessage] up to the [await]; [trim] is [String.prototype.trim],
    [entropy] what [crypto.randomUUID()] draws and [now] the clock. *)
Definition sendMessage (trim : string -> string) (entropy : N) (now : nat)
    (st : State) : State * option (Request * Pending) :=
  let trimmedInput := trim (inputValue st) in
  if negb (truthy trimmedInput) || isLoading st then (st, None)
  else
    let userMessage :=
      {| id := Local (randomUUID entropy);
         sender := USER;
         text := Some trimmedInput;
         timestamp := now |} in
    (set_isTyping true
       (set_isLoading true
          (set_inputValue EmptyString
             (set_messages (messages st ++ [userMessage])
                (set_error None st)))),
     Some (PostMessage trimmedInput
                       (if truthy_opt (currentSessionId st)
                        then currentSessionId st else None),
           {| userMessage := userMessage;
              sessionIdThen := currentSessionId st;
              showSidebarThen := showSidebar st |})).

(** The [finally] block. *)
Definition finally_ (st : State) : State :=
  set_isTyping false (set_isLoading false st).

(** The [catch] block. *)
Definition catch_ (p : Pending) (errorMessage : ErrorText) (st : State) : State :=
  set_messages
    (filter (fun msg => negb (MessageId_eqb (id msg) (id (userMessage p))))
            (messages st))
    (set_error (Some errorMessage) st).

(** [sendMessage] after the [await]. *)
Definition sendMessage_settled (p : Pending) (fetched : Fetched) (entropy : N)
    (now : nat) (cl : Client) : Client * list Request :=
  match fetched with
  | Rejected e =>
      ({| state :=
            finally_
              (catch_ p (Sentence (match e with
                                   | Some message => message
                                   | None => "Something went wrong"
                                   end))
                      (state cl));
          chatCurrentSessionId := chatCurrentSessionId cl |}, [])
  | Responded response =>
      let data := body response in
      if negb (ok response) then
        ({| state :=
              finally_
                (catch_ p (error_or (data_error data) "Failed to send message")
                        (state cl));
            chatCurrentSessionId := chatCurrentSessionId cl |}, [])
      else
        (* Save session ID *)
        let adopt :=
          truthy_opt (data_sessionId data) && negb (truthy_opt (sessionIdThen p)) in
        let st1 :=
          if adopt then set_currentSessionId (data_sessionId data) (state cl)
          else state cl in
        (* Add AI response *)
        let aiMessage :=
          {| id := Local (randomUUID entropy);
             sender := AI;
             text := data_reply data;
             timestamp := now |} in
        ({| state := finally_ (set_messages (messages st1 ++ [aiMessage]) st1);
            chatCurrentSessionId :=
              if adopt then data_sessionId data else chatCurrentSessionId cl |},
         if showSidebarThen p then [GetConversations] else [])
  end.

(** [handleKeyDown]: Enter without Shift sends. *)
Definition handleKeyDown (trim : string -> string) (key : string) (shiftKey : bool)
    (entropy : N) (now : nat) (st : State) : State * option (Request * Pending) :=
  if String.eqb key "Enter" && negb shiftKey
  then sendMessage trim entropy now st
  else (st, None).

(** [truncateMessage(text, maxLength = 30)] *)
Definition truncateMessage (text : string) (maxLength : nat) : string :=
  if String.length text <=? maxLength then text
  else (substring 0 maxLength text ++ "...")%string.

End ChatWidget.

(** ** The widget talking to the routes *)

(** The route a request reaches and the body it carries: [JSON.stringify]
    drops a [sessionId] that is undefined, and the query parameter is read
    back as it was encoded. *)
Definition serve (env : Env) (request : ChatWidget.Request) : M Response :=
  match request with
  | ChatWidget.PostMessage message sessionId =>
      MessageRoute.POST env
        (Body (Str message)
              (match sessionId with Some s => Str s | None => Absent end))
  | ChatWidget.GetHistory sessionId => HistoryRoute.GET (Some sessionId)
  | ChatWidget.GetConversations => ConversationsRoute.GET
  end.

(** * Vocabulary of the properties *)

(** Orders on rows by a key. *)
Definition ascending {A} (key : A -> nat) (a b : A) : Prop := key a <= key b.

Definition descending {A} (key : A -> nat) (a b : A) : Prop := key b <= key a.

(** Session tokens are non-empty, unique and encoded by the engine, every
    row's id is below the id counter, every message belongs to a
    conversation, and nothing is dated after the clock. *)
Record wf (s : Store) : Prop := mkWf {
  wf_tokens : Forall (fun c => Conversation.sessionId c <> EmptyString) (conversations s);
  wf_encoded :
    Forall (fun c => encodes (engine s) (Conversation.sessionId c) = true)
           (conversations s);
  wf_unique : NoDup (map Conversation.sessionId (conversations s));
  wf_conv_ids : Forall (fun c => Conversation.id c < next_id s) (conversations s);
  wf_conv_ids_unique : NoDup (map Conversation.id (conversations s));
  wf_owner :
    Forall (fun m => existsb (has_id (Message.conversationId m)) (conversations s) = true)
           (messages s);
  wf_past : Forall (fun m => Message.timestamp m <= clock s) (messages s);
  wf_updated_past : Forall (fun c => Conversation.updatedAt c <= clock s) (conversations s)
}.

(** A computation preserves the invariant when it does from every world. *)
Definition preserves {A} (m : M A) : Prop :=
  forall w, wf (store w) -> wf (store (snd (m w))).

(** [newSessionId]: the token under which a conversation is created. *)
Definition newSessionId (env : Env) (sessionId : option string) : string :=
  or_else sessionId (randomUUID (entropy env)).

(** The store after one [message.create], one [conversation.create] and
    one [conversation.update] that go through. *)
Definition write_message (dt conversationId : nat) (sender : Sender) (text : string)
    (s : Store) : Store :=
  insert_message (new_message (advance dt s) conversationId sender text) (advance dt s).

Definition write_conversation (dt : nat) (sessionId : string) (s : Store) : Store :=
  insert_conversation (new_conversation (advance dt s) sessionId) (advance dt s).

Definition bump (dt id : nat) (s : Store) : Store :=
  touch_conversation id (advance dt s).

(** The history read after the user turn is written, and the request the
    gateway builds from it. *)
Definition history_after_user (env : Env) (c : Conversation.t) (message : string)
    (s : Store) : list Turn :=
  map select_sender_text
      (messages_of (write_message (dt_user env) (Conversation.id c) USER message s)
                   (Conversation.id c)).

Definition request_for (env : Env) (c : Conversation.t) (message : string)
    (s : Store) : ChatRequest :=
  build_request (getLLMService env) (history_after_user env c message s) message.

Definition unexpected : Response :=
  NextResponse_json (ErrorBody (Sentence MessageRoute.UNEXPECTED)) 500.

Definition well_typed_session (sessionId : Field) : Prop :=
  sessionId = Absent \/ exists s, sessionId = Str s.

Definition rejected (o : CompletionOutcome) : bool :=
  match o with
  | Resolved _ => false
  | RejectedAPIError _ _ | RejectedOther _ => true
  end.

Definition error_sentences : list string :=
  [NOT_CONFIGURED; INVALID_KEY; HIGH_DEMAND; UNAVAILABLE; WENT_WRONG].


Definition initial : World := {| store := empty_store; trace := [] |}.

(** A token and a message that contain U+0000. *)
Definition nul : string := String Ascii.zero EmptyString.

Definition nul_token : string := ("x" ++ nul)%string.

Definition nul_message : string := ("a" ++ nul ++ "b")%string.

(** The conversation of a request is resolved: the look-up of the supplied
    token, and the creation when there is one, go through. *)
Definition resolves (env : Env) (sessionId : option string) (w : World) : Prop :=
  exists c w1,
    MessageRoute.getOrCreateConversation env sessionId w = (Returned c, w1).

(** The answer that carries the fallback sentence. *)
Definition fallback_answer (token : string) : Response :=
  NextResponse_json (ReplyBody MessageRoute.fallbackReply token) 200.

(** The claim as worded, without a credential: every request that passes
    validation is answered with the fallback sentence. *)
Definition fallback_always_answers : Prop :=
  forall (env : Env) (request : RequestBody) (message : string)
         (sessionId : option string) (w w' : World) (r : Response),
    request <> Malformed ->
    MessageRoute.messageSchema_safeParse request = inr (message, sessionId) ->
    truthy_opt (OPENAI_API_KEY env) = false ->
    MessageRoute.POST env request w = (Returned r, w') ->
    r = fallback_answer (newSessionId env sessionId).

(** The claim as worded, with a configured gateway: every request that
    passes validation sends a request to the provider. *)
Definition every_message_reaches_the_provider : Prop :=
  forall (env : Env) (request : RequestBody) (message : string)
         (sessionId : option string) (w w' : World) (r : Response),
    request <> Malformed ->
    MessageRoute.messageSchema_safeParse request = inr (message, sessionId) ->
    isConfigured (getLLMService env) = true ->
    MessageRoute.POST env request w = (Returned r, w') ->
    exists rq, In (ChatCompletionsCreate rq) (trace w').

(** The claim as worded, for the history of an unknown session: every
    non-empty token that matches no conversation is answered with an empty
    list. *)
Definition unknown_session_is_never_an_error : Prop :=
  forall (s : string) (w w' : World) (r : Response),
    s <> EmptyString ->
    find (has_sessionId s) (conversations (store w)) = None ->
    HistoryRoute.GET (Some s) w = (Returned r, w') ->
    r = NextResponse_json (HistoryBody [] (Some s)) 200.

(** The world a call leaves, whether it returns or throws; [dt] is the
    time that passes before a write.  The provider call leaves the store
    alone. *)
Definition issue (dt : nat) (call : Effect) (w : World) : World :=
  match call with
  | ConversationFindUnique sessionId => snd (conversation_findUnique sessionId w)
  | ConversationCreate sessionId => snd (conversation_create dt sessionId w)
  | ConversationUpdate id => snd (conversation_update dt id w)
  | ConversationFindMany => snd (conversation_findMany w)
  | MessageCreate id sender text => snd (message_create dt id sender text w)
  | MessageFindMany id => snd (message_findMany id w)
  | ChatCompletionsCreate request => log (ChatCompletionsCreate request) w
  end.

(** The calls the handlers can issue: a conversation is only ever created
    under a non-empty token ([sessionId || crypto.randomUUID()]). *)
Definition issuable (call : Effect) : Prop :=
  match call with
  | ConversationCreate sessionId => sessionId <> EmptyString
  | _ => True
  end.

(** The worlds reached from the empty tables by the calls of the handlers,
    in any order.  A handler issues one call between two [await]s, so the
    worlds left by requests that overlap in time are among these, as are
    those left by requests handled one after the other. *)
Inductive reachable : World -> Prop :=
| reachable_fresh (e : Engine) : reachable {| store := fresh e; trace := [] |}
| reachable_issue (dt : nat) (call : Effect) (w : World) :
    issuable call -> reachable w -> reachable (issue dt call w).

(** The worlds reached from the empty tables by requests handled one at a
    time: each request runs to its response before the next one starts. *)
Inductive sequential : World -> Prop :=
| sequential_fresh (e : Engine) : sequential {| store := fresh e; trace := [] |}
| sequential_POST (env : Env) (request : RequestBody) (w : World) :
    sequential w -> sequential (snd (MessageRoute.POST env request w))
| sequential_history (sessionId : option string) (w : World) :
    sequential w -> sequential (snd (HistoryRoute.GET sessionId w))
| sequential_conversations (w : World) :
    sequential w -> sequential (snd (ConversationsRoute.GET w)).

(** A computation keeps a property of the world when it does from every
    world, whether it returns or throws. *)
Definition keeps (P : World -> Prop) {A} (m : M A) : Prop :=
  forall w, P w -> P (snd (m w)).

Definition no_credential : Env :=
  {| OPENAI_API_KEY := None;
     OPENAI_MODEL := None;
     provider := fun _ => Resolved None;
     entropy := 0;
     dt_conversation := 1;
     dt_user := 1;
     dt_assistant := 1;
     dt_update := 1 |}.

(** The world after one message in session ["s1"], sent without a
    credential: the conversation is created at time 1. *)
Definition one_conversation : World :=
  snd (MessageRoute.POST no_credential (Body (Str "hello") (Str "s1")) initial).

(** What one entry of the listing says about its conversation. *)
Definition entry_of (s : Store) (c : Conversation.t) (e : ConversationSummary.t)
  : Prop :=
  let own := filter (belongs_to (Conversation.id c)) (messages s) in
  ConversationSummary.id e = Conversation.id c
  /\ ConversationSummary.sessionId e = Conversation.sessionId c
  /\ ConversationSummary.createdAt e = Conversation.createdAt c
  /\ ConversationSummary.updatedAt e = Conversation.updatedAt c
  /\ ConversationSummary.messageCount e = List.length own
  /\ match own with
     | [] => ConversationSummary.firstMessage e = ConversationsRoute.NEW_CONVERSATION
     | _ :: _ =>
         exists m,
           In m own
           /\ Forall (fun a => Message.timestamp m <= Message.timestamp a) own
           /\ ConversationSummary.firstMessage e
              = or_else (Some (Message.text m)) ConversationsRoute.NEW_CONVERSATION
     end.

(** Whether a send was answered with a reply. *)
Definition answered (r : Response) : nat :=
  if status r =? 200 then 1 else 0.

(** The claim as worded: after two messages in session ["s1"] and one in
    session ["s2"], the listing shows ["s2"] with 1 message before ["s1"]
    with 2. *)
Definition listing_counts_1_and_2 : Prop :=
  forall (e1 e2 e3 : Env) (m1 m2 m3 : string) (r1 r2 r3 : Response)
         (w1 w2 w3 : World),
    1 <= String.length m1 <= 2000 ->
    1 <= String.length m2 <= 2000 ->
    1 <= String.length m3 <= 2000 ->
    0 < dt_conversation e3 ->
    MessageRoute.POST e1 (Body (Str m1) (Str "s1")) initial = (Returned r1, w1) ->
    MessageRoute.POST e2 (Body (Str m2) (Str "s1")) w1 = (Returned r2, w2) ->
    MessageRoute.POST e3 (Body (Str m3) (Str "s2")) w2 = (Returned r3, w3) ->
    exists a b,
      fst (ConversationsRoute.GET w3)
      = Returned (NextResponse_json (ConversationsBody [a; b]) 200)
      /\ ConversationSummary.sessionId a = "s2"
      /\ ConversationSummary.messageCount a = 1
      /\ ConversationSummary.sessionId b = "s1"
      /\ ConversationSummary.messageCount b = 2.

(** A message sent without a credential, and the answer it gets. *)
Definition send (message token : string) (w : World) : World :=
  snd (MessageRoute.POST no_credential (Body (Str message) (Str token)) w).

(** A gateway whose provider rejects every request as rate limited, and
    one whose provider always answers. *)
Definition failing_gateway : Env :=
  {| OPENAI_API_KEY := Some "sk-test";
     OPENAI_MODEL := None;
     provider := fun _ => RejectedAPIError (Some 429) "Rate limit reached for requests";
     entropy := 0;
     dt_conversation := 1;
     dt_user := 1;
     dt_assistant := 1;
     dt_update := 1 |}.

Definition replying_gateway : Env :=
  {| OPENAI_API_KEY := Some "sk-test";
     OPENAI_MODEL := None;
     provider := fun _ => Resolved (Some "Standard shipping takes 3-5 business days.");
     entropy := 0;
     dt_conversation := 1;
     dt_user := 1;
     dt_assistant := 1;
     dt_update := 1 |}.

Definition hello_s1 : RequestBody := Body (Str "hello") (Str "s1").

Definition conversation_s1 : Conversation.t :=
  {| Conversation.id := 0;
     Conversation.sessionId := "s1";
     Conversation.createdAt := 1;
     Conversation.updatedAt := 1 |}.

(** The world right after the conversation ["s1"] is created. *)
Definition resolved_s1 : World :=
  {| store := write_conversation 1 "s1" empty_store;
     trace := [ConversationFindUnique "s1"; ConversationCreate "s1"] |}.

Definition long_message : string := string_of_list_ascii (repeat "a"%char 2001).

Definition is_provider_call (e : Effect) : bool :=
  match e with
  | ChatCompletionsCreate _ => true
  | _ => false
  end.

(** The columns of a conversation that are set once. *)
Definition identity (c : Conversation.t) : nat * string * nat :=
  (Conversation.id c, Conversation.sessionId c, Conversation.createdAt c).

(** The ways [replyTo] ends on a conversation of the store: the store
    refuses the user turn; or the user turn is written and then, without a
    credential, the fallback turn is written or refused; or the gateway
    fails; or the gateway replies and its reply is written, and the
    conversation updated, or refused. *)
Inductive reply_path (env : Env) (c : Conversation.t) (message : string)
    (w1 : World) : Outcome Response -> World -> Prop :=
| path_user_refused :
    encodes (engine (store w1)) message = false ->
    reply_path env c message w1
      (Thrown InvalidByteSequence)
      {| store := advance (dt_user env) (store w1);
         trace := trace w1 ++ [MessageCreate (Conversation.id c) USER message] |}
| path_fallback :
    encodes (engine (store w1)) message = true ->
    isConfigured (getLLMService env) = false ->
    encodes (engine (store w1)) MessageRoute.fallbackReply = true ->
    reply_path env c message w1
      (Returned (NextResponse_json
                   (ReplyBody MessageRoute.fallbackReply (Conversation.sessionId c))
                   200))
      {| store := write_message (dt_assistant env) (Conversation.id c) AI
                                MessageRoute.fallbackReply
                    (write_message (dt_user env) (Conversation.id c) USER message
                                   (store w1));
         trace := trace w1 ++ [MessageCreate (Conversation.id c) USER message;
                               MessageFindMany (Conversation.id c);
                               MessageCreate (Conversation.id c) AI
                                             MessageRoute.fallbackReply] |}
| path_fallback_refused :
    encodes (engine (store w1)) message = true ->
    isConfigured (getLLMService env) = false ->
    encodes (engine (store w1)) MessageRoute.fallbackReply = false ->
    reply_path env c message w1
      (Thrown InvalidByteSequence)
      {| store := advance (dt_assistant env)
                    (write_message (dt_user env) (Conversation.id c) USER message
                                   (store w1));
         trace := trace w1 ++ [MessageCreate (Conversation.id c) USER message;
                               MessageFindMany (Conversation.id c);
                               MessageCreate (Conversation.id c) AI
                                             MessageRoute.fallbackReply] |}
| path_error (e : string) :
    encodes (engine (store w1)) message = true ->
    isConfigured (getLLMService env) = true ->
    error (interpret_outcome (provider env (request_for env c message (store w1))))
    = Some e ->
    reply_path env c message w1
      (Returned (NextResponse_json (ErrorBody (Sentence e)) 500))
      {| store := write_message (dt_user env) (Conversation.id c) USER message
                                (store w1);
         trace := trace w1 ++ [MessageCreate (Conversation.id c) USER message;
                               MessageFindMany (Conversation.id c);
                               ChatCompletionsCreate
                                 (request_for env c message (store w1))] |}
| path_reply :
    encodes (engine (store w1)) message = true ->
    isConfigured (getLLMService env) = true ->
    error (interpret_outcome (provider env (request_for env c message (store w1))))
    = None ->
    encodes (engine (store w1))
            (reply (interpret_outcome
                      (provider env (request_for env c message (store w1)))))
    = true ->
    reply_path env c message w1
      (Returned
         (NextResponse_json
            (ReplyBody (reply (interpret_outcome
                                 (provider env (request_for env c message (store w1)))))
                       (Conversation.sessionId c)) 200))
      {| store :=
           bump (dt_update env) (Conversation.id c)
             (write_message (dt_assistant env) (Conversation.id c) AI
                (reply (interpret_outcome
                          (provider env (request_for env c message (store w1)))))
                (write_message (dt_user env) (Conversation.id c) USER message
                               (store w1)));
         trace := trace w1 ++ [MessageCreate (Conversation.id c) USER message;
                               MessageFindMany (Conversation.id c);
                               ChatCompletionsCreate
                                 (request_for env c message (store w1));
                               MessageCreate (Conversation.id c) AI
                                 (reply (interpret_outcome
                                           (provider env
                                              (request_for env c message (store w1)))));
                               ConversationUpdate (Conversation.id c)] |}
| path_reply_refused :
    encodes (engine (store w1)) message = true ->
    isConfigured (getLLMService env) = true ->
    error (interpret_outcome (provider env (request_for env c message (store w1))))
    = None ->
    encodes (engine (store w1))
            (reply (interpret_outcome
                      (provider env (request_for env c message (store w1)))))
    = false ->
    reply_path env c message w1
      (Thrown InvalidByteSequence)
      {| store :=
           advance (dt_assistant env)
             (write_message (dt_user env) (Conversation.id c) USER message
                            (store w1));
         trace := trace w1 ++ [MessageCreate (Conversation.id c) USER message;
                               MessageFindMany (Conversation.id c);
                               ChatCompletionsCreate
                                 (request_for env c message (store w1));
                               MessageCreate (Conversation.id c) AI
                                 (reply (interpret_outcome
                                           (provider env
                                              (request_for env c message
                                                           (store w1)))))] |}.

(** The ways the resolution ends: the look-up of a supplied token is
    refused, or finds its conversation, or finds none, and then the
    conversation is created under the supplied token or refused; without a
    supplied token, the conversation is created under the minted one or
    refused. *)
Inductive resolution (env : Env) (sessionId : option string) (w : World)
  : Outcome Conversation.t -> World -> Prop :=
| resolution_lookup_refused (s : string) :
    sessionId = Some s -> truthy s = true ->
    encodes (engine (store w)) s = false ->
    resolution env sessionId w
      (Thrown InvalidByteSequence) (log (ConversationFindUnique s) w)
| resolution_reuse (s : string) (c : Conversation.t) :
    sessionId = Some s -> truthy s = true ->
    encodes (engine (store w)) s = true ->
    find (has_sessionId s) (conversations (store w)) = Some c ->
    resolution env sessionId w (Returned c) (log (ConversationFindUnique s) w)
| resolution_supplied (s : string) :
    sessionId = Some s -> truthy s = true ->
    encodes (engine (store w)) s = true ->
    find (has_sessionId s) (conversations (store w)) = None ->
    fits_index (engine (store w)) s = true ->
    resolution env sessionId w
      (Returned (new_conversation (advance (dt_conversation env) (store w)) s))
      {| store := write_conversation (dt_conversation env) s (store w);
         trace := trace w ++ [ConversationFindUnique s; ConversationCreate s] |}
| resolution_supplied_refused (s : string) :
    sessionId = Some s -> truthy s = true ->
    encodes (engine (store w)) s = true ->
    find (has_sessionId s) (conversations (store w)) = None ->
    fits_index (engine (store w)) s = false ->
    resolution env sessionId w
      (Thrown IndexRowTooLarge)
      {| store := advance (dt_conversation env) (store w);
         trace := trace w ++ [ConversationFindUnique s; ConversationCreate s] |}
| resolution_mint :
    truthy_opt sessionId = false ->
    create_refusal (store w) (randomUUID (entropy env)) = None ->
    resolution env sessionId w
      (Returned (new_conversation (advance (dt_conversation env) (store w))
                                  (randomUUID (entropy env))))
      {| store := write_conversation (dt_conversation env)
                                     (randomUUID (entropy env)) (store w);
         trace := trace w ++ [ConversationCreate (randomUUID (entropy env))] |}
| resolution_mint_refused (e : Exception) :
    truthy_opt sessionId = false ->
    create_refusal (store w) (randomUUID (entropy env)) = Some e ->
    resolution env sessionId w
      (Thrown e)
      {| store := advance (dt_conversation env) (store w);
         trace := trace w ++ [ConversationCreate (randomUUID (entropy env))] |}.

(** The ways a message request ends. *)
Inductive handled (env : Env) (request : RequestBody) (w : World)
  : Response -> World -> Prop :=
| handled_malformed :
    request = Malformed -> handled env request w unexpected w
| handled_invalid (issue : ErrorText) :
    request <> Malformed ->
    MessageRoute.messageSchema_safeParse request = inl issue ->
    handled env request w (NextResponse_json (ErrorBody issue) 400) w
| handled_unresolved (message : string) (sessionId : option string) (e : Exception)
    (w1 : World) :
    request <> Malformed ->
    MessageRoute.messageSchema_safeParse request = inr (message, sessionId) ->
    resolution env sessionId w (Thrown e) w1 ->
    handled env request w unexpected w1
| handled_refused (message : string) (sessionId : option string)
    (c : Conversation.t) (w1 : World) (e : Exception) (w2 : World) :
    request <> Malformed ->
    MessageRoute.messageSchema_safeParse request = inr (message, sessionId) ->
    resolution env sessionId w (Returned c) w1 ->
    reply_path env c message w1 (Thrown e) w2 ->
    handled env request w unexpected w2
| handled_replied (message : string) (sessionId : option string)
    (c : Conversation.t) (w1 : World) (r : Response) (w2 : World) :
    request <> Malformed ->
    MessageRoute.messageSchema_safeParse request = inr (message, sessionId) ->
    resolution env sessionId w (Returned c) w1 ->
    reply_path env c message w1 (Returned r) w2 ->
    handled env request w r w2.

(** The bodies the message schema accepts. *)
Definition acceptable (request : RequestBody) : Prop :=
  exists t s,
    request = Body (Str t) s
    /\ 1 <= String.length t <= 2000
    /\ well_typed_session s.

Definition is_resolution_call (e : Effect) : bool :=
  match e with
  | ConversationFindUnique _ | ConversationCreate _ => true
  | _ => false
  end.

(** The messages table is in the order of its timestamps. *)
Definition chronological (s : Store) : Prop :=
  StronglySorted (ascending Message.timestamp) (messages s).

(** No assistant turn opens a list of turns or follows another assistant
    turn; [after_assistant] tells whether the turn before was one. *)
Fixpoint answers_follow_questions (after_assistant : bool) (turns : list Sender) : bool :=
  match turns with
  | [] => true
  | USER :: rest => answers_follow_questions false rest
  | AI :: rest =>
      if after_assistant then false else answers_follow_questions true rest
  end.

(** Every conversation's turns, in the order of the table, are well formed. *)
Definition dialogues (s : Store) : Prop :=
  forall id,
    answers_follow_questions true
      (map Message.sender (filter (belongs_to id) (messages s))) = true.

(** What the history route lists for a token. *)
Definition history_of (s : Store) (token : string) : list HistoryItem.t :=
  match find (has_sessionId token) (conversations s) with
  | Some c => map select_history_item (messages_of s (Conversation.id c))
  | None => []
  end.

(** Whether a send ends in the [catch] block. *)
Definition failed (fetched : ChatWidget.Fetched) : bool :=
  match fetched with
  | ChatWidget.Rejected _ => true
  | ChatWidget.Responded r => negb (ChatWidget.ok r)
  end.

(** The client when [sendMessage] reaches its [await]. *)
Definition awaiting (st : ChatWidget.State) (cl : ChatWidget.Client) : ChatWidget.Client :=
  {| ChatWidget.state := st;
     ChatWidget.chatCurrentSessionId := ChatWidget.chatCurrentSessionId cl |}.

(** What the transcript shows of a message, and what the history route
    lists of a stored one. *)
Definition shown (m : ChatWidget.Message) : Sender * option string :=
  (ChatWidget.sender m, ChatWidget.text m).

Definition listed (item : HistoryItem.t) : Sender * option string :=
  (HistoryItem.sender item, Some (HistoryItem.text item)).

(** The transcript agrees with the server: turn for turn it shows what the
    history route lists for the current session, and it is empty when there
    is no current session. *)
Definition in_sync (cl : ChatWidget.Client) (w : World) : Prop :=
  match ChatWidget.currentSessionId (ChatWidget.state cl) with
  | Some s =>
      if truthy s
      then map shown (ChatWidget.messages (ChatWidget.state cl))
           = map listed (history_of (store w) s)
      else ChatWidget.messages (ChatWidget.state cl) = []
  | None => ChatWidget.messages (ChatWidget.state cl) = []
  end.

(** An open widget with [text] typed in the input, an empty transcript and
    [session] as current session, in the state and in [localStorage]. *)
Definition typing (text : string) (session : option string) : ChatWidget.Client :=
  {| ChatWidget.state :=
       {| ChatWidget.isOpen := true;
          ChatWidget.showSidebar := false;
          ChatWidget.messages := [];
          ChatWidget.inputValue := text;
          ChatWidget.isLoading := false;
          ChatWidget.isTyping := false;
          ChatWidget.currentSessionId := session;
          ChatWidget.conversations := [];
          ChatWidget.error := None |};
     ChatWidget.chatCurrentSessionId := session |}.

(** A text without surrounding white space, on which [trim] is the
    identity. *)
Definition trimmed (text : string) : string := text.

(** The answer of the gateway whose provider is rate limited, and the
    world it leaves from the empty store. *)
Definition high_demand_answer : Response :=
  NextResponse_json (ErrorBody (Sentence HIGH_DEMAND)) 500.

Definition unanswered : World :=
  snd (MessageRoute.POST failing_gateway hello_s1 initial).

Definition shipping_answer : Response :=
  NextResponse_json
    (ReplyBody "Standard shipping takes 3-5 business days." "s1") 200.

(** * Properties *)

(** ** Ordering *)

Section OrderBy.
Context {A : Type} (key : A -> nat).

Lemma insert_asc_perm (x : A) (l : list A) :
  Permutation (x :: l) (insert_asc key x l).
Proof.
  induction l as [|y l IH]; simpl.
  - apply Permutation_refl.
  - destruct (key x <=? key y).
    + apply Permutation_refl.
    + eapply perm_trans; [apply perm_swap|].
      now apply perm_skip.
Qed.

Lemma orderBy_asc_perm (l : list A) : Permutation l (orderBy_asc key l).
Proof.
  induction l as [|x l IH]; simpl.
  - constructor.
  - eapply perm_trans; [apply perm_skip, IH|].
    apply insert_asc_perm.
Qed.

Lemma insert_asc_sorted (x : A) (l : list A) :
  StronglySorted (ascending key) l -> StronglySorted (ascending key) (insert_asc key x l).
Proof.
  induction 1 as [|y l Hs IH Hall]; simpl.
  - repeat constructor.
  - destruct (key x <=? key y) eqn:E.
    + apply Nat.leb_le in E.
      constructor; [now constructor|].
      constructor; [exact E|].
      eapply Forall_impl; [|exact Hall].
      unfold ascending; intros; lia.
    + apply Nat.leb_gt in E.
      constructor; [exact IH|].
      eapply Permutation_Forall; [apply insert_asc_perm|].
      constructor; [unfold ascending; lia | exact Hall].
Qed.

Lemma orderBy_asc_sorted (l : list A) : StronglySorted (ascending key) (orderBy_asc key l).
Proof.
  induction l as [|x l IH]; simpl.
  - constructor.
  - now apply insert_asc_sorted.
Qed.

Lemma insert_desc_perm (x : A) (l : list A) :
  Permutation (x :: l) (insert_desc key x l).
Proof.
  induction l as [|y l IH]; simpl.
  - apply Permutation_refl.
  - destruct (key y <=? key x).
    + apply Permutation_refl.
    + eapply perm_trans; [apply perm_swap|].
      now apply perm_skip.
Qed.

Lemma orderBy_desc_perm (l : list A) : Permutation l (orderBy_desc key l).
Proof.
  induction l as [|x l IH]; simpl.
  - constructor.
  - eapply perm_trans; [apply perm_skip, IH|].
    apply insert_desc_perm.
Qed.

Lemma insert_desc_sorted (x : A) (l : list A) :
  StronglySorted (descending key) l -> StronglySorted (descending key) (insert_desc key x l).
Proof.
  induction 1 as [|y l Hs IH Hall]; simpl.
  - repeat constructor.
  - destruct (key y <=? key x) eqn:E.
    + apply Nat.leb_le in E.
      constructor; [now constructor|].
      constructor; [exact E|].
      eapply Forall_impl; [|exact Hall].
      unfold descending; intros; lia.
    + apply Nat.leb_gt in E.
      constructor; [exact IH|].
      eapply Permutation_Forall; [apply insert_desc_perm|].
      constructor; [unfold descending; lia | exact Hall].
Qed.

Lemma orderBy_desc_sorted (l : list A) :
  StronglySorted (descending key) (orderBy_desc key l).
Proof.
  induction l as [|x l IH]; simpl.
  - constructor.
  - now apply insert_desc_sorted.
Qed.

(** A row written last, no earlier than every other row, is read last. *)
Lemma insert_asc_snoc (a x : A) (l : list A) :
  key a <= key x ->
  insert_asc key a (l ++ [x]) = insert_asc key a l ++ [x].
Proof.
  intros Hax.
  induction l as [|y l IH]; simpl.
  - apply Nat.leb_le in Hax. now rewrite Hax.
  - destruct (key a <=? key y); [reflexivity|].
    now rewrite IH.
Qed.

Lemma orderBy_asc_snoc (x : A) (l : list A) :
  Forall (fun a => key a <= key x) l ->
  orderBy_asc key (l ++ [x]) = orderBy_asc key l ++ [x].
Proof.
  induction 1 as [|a l Ha Hall IH]; simpl.
  - reflexivity.
  - rewrite IH. now apply insert_asc_snoc.
Qed.

(** The first row of an ascending order is a minimum. *)
Lemma orderBy_asc_head_min (l : list A) (m : A) :
  nth_error (orderBy_asc key l) 0 = Some m ->
  In m l /\ Forall (fun a => key m <= key a) l.
Proof.
  intros Hm.
  pose proof (orderBy_asc_sorted l) as Hs.
  pose proof (orderBy_asc_perm l) as Hp.
  destruct (orderBy_asc key l) as [|y s]; [discriminate|].
  injection Hm as ->.
  split.
  - eapply Permutation_in; [apply Permutation_sym, Hp|]. now left.
  - eapply Permutation_Forall; [apply Permutation_sym, Hp|].
    inversion Hs; subst.
    constructor; [lia|assumption].
Qed.

Lemma orderBy_asc_nil (l : list A) : orderBy_asc key l = [] -> l = [].
Proof.
  intros H. pose proof (orderBy_asc_perm l) as Hp. rewrite H in Hp.
  now apply Permutation_sym, Permutation_nil in Hp.
Qed.

End OrderBy.

(** ** [slice(-n)] *)

Lemma slice_last_suffix {A} (n : nat) (l : list A) :
  firstn (List.length l - n) l ++ slice_last n l = l.
Proof. apply firstn_skipn. Qed.

Lemma slice_last_length {A} (n : nat) (l : list A) :
  List.length (slice_last n l) = Nat.min n (List.length l).
Proof. unfold slice_last. rewrite length_skipn. lia. Qed.

Lemma slice_last_snoc {A} (n : nat) (l : list A) (x : A) :
  slice_last (S n) (l ++ [x]) = slice_last n l ++ [x].
Proof.
  unfold slice_last. rewrite length_app. simpl.
  replace (List.length l + 1 - S n) with (List.length l - n) by lia.
  rewrite skipn_app.
  replace (List.length l - n - List.length l) with 0 by lia.
  reflexivity.
Qed.

(** ** [crypto.randomUUID()] *)

Lemma string_of_list_ascii_length (l : list ascii) :
  String.length (string_of_list_ascii l) = List.length l.
Proof. induction l; simpl; congruence. Qed.

Lemma randomUUID_length (entropy : N) : String.length (randomUUID entropy) = 36.
Proof.
  unfold randomUUID.
  now rewrite string_of_list_ascii_length, length_map, length_seq.
Qed.

Lemma randomUUID_truthy (entropy : N) : truthy (randomUUID entropy) = true.
Proof.
  pose proof (randomUUID_length entropy) as H.
  destruct (randomUUID entropy); [discriminate|reflexivity].
Qed.

Lemma truthy_length (s : string) : truthy s = true <-> 1 <= String.length s.
Proof. destruct s; simpl; split; intros; try discriminate; lia. Qed.

Lemma truthy_nonempty (s : string) : truthy s = true <-> s <> EmptyString.
Proof. destruct s; simpl; split; intros; congruence. Qed.

(** ** The store invariant *)

Lemma wf_fresh (e : Engine) : wf (fresh e).
Proof. constructor; simpl; constructor. Qed.

Lemma wf_empty : wf empty_store.
Proof. apply wf_fresh. Qed.

Lemma wf_advance (dt : nat) (s : Store) : wf s -> wf (advance dt s).
Proof.
  intros [H1 H2 H3 H4 H5 H6 H7 H8]; constructor; simpl; auto.
  - eapply Forall_impl; [|exact H7]. simpl; intros; lia.
  - eapply Forall_impl; [|exact H8]. simpl; intros; lia.
Qed.

Lemma existsb_has_sessionId_false (sessionId : string) (l : list Conversation.t) :
  existsb (has_sessionId sessionId) l = false ->
  ~ In sessionId (map Conversation.sessionId l).
Proof.
  intros H Hin. apply in_map_iff in Hin as (c & Hc & Hin).
  assert (existsb (has_sessionId sessionId) l = true) as E.
  { apply existsb_exists. exists c. split; [exact Hin|].
    unfold has_sessionId. rewrite Hc. apply String.eqb_refl. }
  congruence.
Qed.

Lemma find_existsb {A} (f : A -> bool) (l : list A) :
  existsb f l = match find f l with Some _ => true | None => false end.
Proof.
  induction l as [|x l IH]; simpl; [reflexivity|].
  destruct (f x); [reflexivity|exact IH].
Qed.

Lemma existsb_has_id_map (id id' now : nat) (l : list Conversation.t) :
  existsb (has_id id) (map (set_updatedAt id' now) l) = existsb (has_id id) l.
Proof.
  induction l as [|c l IH]; simpl; [reflexivity|].
  rewrite IH. f_equal.
  unfold set_updatedAt, has_id. now destruct (Conversation.id c =? id').
Qed.

Lemma set_updatedAt_sessionId (id now : nat) (c : Conversation.t) :
  Conversation.sessionId (set_updatedAt id now c) = Conversation.sessionId c.
Proof. unfold set_updatedAt. now destruct (has_id id c). Qed.

Lemma set_updatedAt_id (id now : nat) (c : Conversation.t) :
  Conversation.id (set_updatedAt id now c) = Conversation.id c.
Proof. unfold set_updatedAt. now destruct (has_id id c). Qed.

Lemma wf_insert_conversation (sessionId : string) (s : Store) :
  wf s -> sessionId <> EmptyString ->
  encodes (engine s) sessionId = true ->
  existsb (has_sessionId sessionId) (conversations s) = false ->
  wf (insert_conversation (new_conversation s sessionId) s).
Proof.
  intros [H1 H2 H3 H4 H5 H6 H7 H8] Hne Henc Hfresh; constructor; simpl.
  - apply Forall_app; split; [exact H1|]. now repeat constructor.
  - apply Forall_app; split; [exact H2|]. now repeat constructor.
  - rewrite map_app; simpl. apply NoDup_app; [exact H3|repeat constructor; auto|].
    intros a Ha [<-|[]]. now apply existsb_has_sessionId_false in Hfresh.
  - apply Forall_app; split.
    + eapply Forall_impl; [|exact H4]. simpl; intros; lia.
    + repeat constructor.
  - rewrite map_app; simpl. apply NoDup_app; [exact H5|repeat constructor; auto|].
    intros a Ha [<-|[]]. apply in_map_iff in Ha as (c & Hc & Hin).
    rewrite Forall_forall in H4. specialize (H4 c Hin). lia.
  - eapply Forall_impl; [|exact H6]. simpl; intros m Hm.
    rewrite existsb_app, Hm. reflexivity.
  - exact H7.
  - apply Forall_app; split; [exact H8|]. repeat constructor.
Qed.

Lemma wf_insert_message (conversationId : nat) (sender : Sender) (text : string)
    (s : Store) :
  wf s -> existsb (has_id conversationId) (conversations s) = true ->
  wf (insert_message (new_message s conversationId sender text) s).
Proof.
  intros [H1 H2 H3 H4 H5 H6 H7 H8] Hex; constructor; simpl; auto.
  - eapply Forall_impl; [|exact H4]. simpl; intros; lia.
  - apply Forall_app; split; [exact H6|]. now repeat constructor.
  - apply Forall_app; split; [exact H7|]. repeat constructor.
Qed.

Lemma wf_touch_conversation (id : nat) (s : Store) :
  wf s -> wf (touch_conversation id s).
Proof.
  intros [H1 H2 H3 H4 H5 H6 H7 H8]; constructor; simpl; auto.
  - apply Forall_map. eapply Forall_impl; [|exact H1].
    intros c Hc. now rewrite set_updatedAt_sessionId.
  - apply Forall_map. eapply Forall_impl; [|exact H2].
    intros c Hc. now rewrite set_updatedAt_sessionId.
  - rewrite map_map. erewrite map_ext; [exact H3|].
    intros c. apply set_updatedAt_sessionId.
  - apply Forall_map. eapply Forall_impl; [|exact H4].
    intros c Hc. now rewrite set_updatedAt_id.
  - rewrite map_map. erewrite map_ext; [exact H5|].
    intros c. apply set_updatedAt_id.
  - eapply Forall_impl; [|exact H6]. simpl; intros m Hm.
    now rewrite existsb_has_id_map.
  - apply Forall_map. eapply Forall_impl; [|exact H8].
    intros c Hc. unfold set_updatedAt. destruct (has_id id c); simpl in *; lia.
Qed.

(** What refuses the creation of a conversation does not depend on the
    clock. *)
Lemma create_refusal_advance (dt : nat) (s : Store) (sessionId : string) :
  create_refusal (advance dt s) sessionId = create_refusal s sessionId.
Proof. reflexivity. Qed.

Lemma create_refusal_none (s : Store) (sessionId : string) :
  create_refusal s sessionId = None <->
  encodes (engine s) sessionId = true
  /\ fits_index (engine s) sessionId = true
  /\ existsb (has_sessionId sessionId) (conversations s) = false.
Proof.
  unfold create_refusal.
  destruct (encodes (engine s) sessionId), (fits_index (engine s) sessionId),
    (existsb (has_sessionId sessionId) (conversations s)); simpl;
    split; try discriminate; try tauto; intros (? & ? & ?); discriminate.
Qed.

(** ** Keeping a property through a computation *)

Lemma keeps_ret (P : World -> Prop) {A} (a : A) : keeps P (ret a).
Proof. intros w H; exact H. Qed.

Lemma keeps_throw (P : World -> Prop) {A} (e : Exception) : keeps P (@throw A e).
Proof. intros w H; exact H. Qed.

Lemma keeps_bind (P : World -> Prop) {A B} (m : M A) (k : A -> M B) :
  keeps P m -> (forall a, keeps P (k a)) -> keeps P (bind m k).
Proof.
  intros Hm Hk w Hw. unfold bind.
  specialize (Hm w Hw). destruct (m w) as [[a|e] w']; simpl in *.
  - now apply Hk.
  - exact Hm.
Qed.

Lemma keeps_try_catch (P : World -> Prop) {A} (m : M A) (h : Exception -> M A) :
  keeps P m -> (forall e, keeps P (h e)) -> keeps P (try_catch m h).
Proof.
  intros Hm Hh w Hw. unfold try_catch.
  specialize (Hm w Hw). destruct (m w) as [[a|e] w']; simpl in *.
  - exact Hm.
  - now apply Hh.
Qed.

Lemma preserves_ret {A} (a : A) : preserves (ret a).
Proof. apply (keeps_ret (fun w => wf (store w))). Qed.

Lemma preserves_throw {A} (e : Exception) : preserves (@throw A e).
Proof. apply (keeps_throw (fun w => wf (store w))). Qed.

Lemma preserves_bind {A B} (m : M A) (k : A -> M B) :
  preserves m -> (forall a, preserves (k a)) -> preserves (bind m k).
Proof. apply (keeps_bind (fun w => wf (store w))). Qed.

Lemma preserves_try_catch {A} (m : M A) (h : Exception -> M A) :
  preserves m -> (forall e, preserves (h e)) -> preserves (try_catch m h).
Proof. apply (keeps_try_catch (fun w => wf (store w))). Qed.

Lemma preserves_conversation_findUnique (sessionId : string) :
  preserves (conversation_findUnique sessionId).
Proof.
  intros w H. unfold conversation_findUnique.
  destruct (encodes _ _); exact H.
Qed.

Lemma preserves_conversation_findUnique_with_messages (sessionId : string) :
  preserves (conversation_findUnique_with_messages sessionId).
Proof.
  intros w H. unfold conversation_findUnique_with_messages.
  destruct (encodes _ _); exact H.
Qed.

Lemma preserves_message_findMany (conversationId : nat) :
  preserves (message_findMany conversationId).
Proof. intros w H; exact H. Qed.

Lemma preserves_conversation_findMany : preserves conversation_findMany.
Proof. intros w H; exact H. Qed.

Lemma preserves_conversation_create (dt : nat) (sessionId : string) :
  sessionId <> EmptyString -> preserves (conversation_create dt sessionId).
Proof.
  intros Hne w Hw. unfold conversation_create.
  apply (wf_advance dt) in Hw.
  destruct (create_refusal _ _) eqn:E; simpl; [exact Hw|].
  apply create_refusal_none in E as (Henc & _ & Hfresh).
  now apply wf_insert_conversation.
Qed.

Lemma preserves_conversation_update (dt id : nat) :
  preserves (conversation_update dt id).
Proof.
  intros w Hw. unfold conversation_update.
  apply (wf_advance dt) in Hw.
  destruct (existsb _ _); simpl; [|exact Hw].
  now apply wf_touch_conversation.
Qed.

Lemma preserves_message_create (dt conversationId : nat) (sender : Sender)
    (text : string) :
  preserves (message_create dt conversationId sender text).
Proof.
  intros w Hw. unfold message_create.
  apply (wf_advance dt) in Hw.
  destruct (negb _); simpl; [exact Hw|].
  destruct (existsb _ _) eqn:E; simpl; [|exact Hw].
  now apply wf_insert_message.
Qed.

Lemma preserves_generateReply (this : LLMService) (history : list Turn)
    (userMessage : string) :
  preserves (generateReply this history userMessage).
Proof.
  intros w Hw. unfold generateReply.
  destruct (client this); exact Hw.
Qed.

Create HintDb preserve.

#[local] Hint Resolve preserves_ret preserves_throw preserves_conversation_findUnique
  preserves_message_findMany preserves_conversation_update
  preserves_message_create preserves_generateReply : preserve.

Ltac preserve :=
  repeat first
    [ apply preserves_bind; [|intros ?]
    | apply preserves_try_catch; [|intros ?]
    | solve [auto with preserve] ].

Lemma preserves_getOrCreateConversation (env : Env) (sessionId : option string) :
  preserves (MessageRoute.getOrCreateConversation env sessionId).
Proof.
  unfold MessageRoute.getOrCreateConversation.
  apply preserves_bind.
  - destruct sessionId as [s|]; [destruct (truthy s)|]; auto with preserve.
  - intros [c|]; [auto with preserve|].
    apply preserves_conversation_create.
    apply truthy_nonempty.
    destruct sessionId as [s|]; unfold or_else.
    + destruct (truthy s) eqn:E; [exact E|apply randomUUID_truthy].
    + apply randomUUID_truthy.
Qed.

Lemma preserves_saveReply (env : Env) (c : Conversation.t) (reply : string) :
  preserves (MessageRoute.saveReply env c reply).
Proof. unfold MessageRoute.saveReply. preserve. Qed.

Lemma preserves_replyTo (env : Env) (c : Conversation.t) (message : string) :
  preserves (MessageRoute.replyTo env c message).
Proof.
  unfold MessageRoute.replyTo. preserve.
  destruct (negb _); preserve.
  destruct (error _) as [e|]; [destruct (truthy e)|];
    auto using preserves_saveReply with preserve.
Qed.

(** Every message request preserves the invariant, whatever it answers. *)
Lemma preserves_POST (env : Env) (request : RequestBody) :
  preserves (MessageRoute.POST env request).
Proof.
  unfold MessageRoute.POST. preserve.
  - destruct request; simpl; auto with preserve.
  - destruct (MessageRoute.messageSchema_safeParse _) as [issue|[message sessionId]];
      [auto with preserve|].
    apply preserves_bind; [apply preserves_getOrCreateConversation|].
    intros c. apply preserves_replyTo.
Qed.

(** ** Running the message route step by step *)

Arguments randomUUID : simpl never.
Arguments SYSTEM_PROMPT : simpl never.
Arguments MessageRoute.fallbackReply : simpl never.
Arguments MessageRoute.UNEXPECTED : simpl never.
Arguments MessageRoute.TOO_LONG : simpl never.
Arguments slice_last : simpl never.
Arguments orderBy_asc : simpl never.

Lemma isConfigured_key (env : Env) :
  isConfigured (getLLMService env) = truthy_opt (OPENAI_API_KEY env).
Proof.
  unfold isConfigured, getLLMService, new_LLMService; simpl.
  destruct (OPENAI_API_KEY env) as [k|]; simpl; [|reflexivity].
  now destruct (truthy k).
Qed.

Lemma configured_client (env : Env) :
  isConfigured (getLLMService env) = true ->
  exists key, client (getLLMService env)
              = Some {| apiKey := key; chat_completions_create := provider env |}.
Proof.
  unfold isConfigured, getLLMService, new_LLMService; simpl.
  destruct (OPENAI_API_KEY env) as [k|]; [|discriminate].
  destruct (truthy k); [|discriminate].
  intros _. now exists k.
Qed.

Lemma interpret_outcome_error_truthy (o : CompletionOutcome) (e : string) :
  error (interpret_outcome o) = Some e -> truthy e = true.
Proof.
  destruct o as [content|st raw|raw]; simpl; [discriminate| |].
  - destruct (status_is st 401); [|destruct (status_is st 429);
      [|destruct (_ || _ || _)]]; simpl; intros [= <-]; reflexivity.
  - intros [= <-]; reflexivity.
Qed.

Lemma newSessionId_truthy (env : Env) (sessionId : option string) :
  truthy (newSessionId env sessionId) = true.
Proof.
  unfold newSessionId, or_else.
  destruct sessionId as [s|]; [destruct (truthy s) eqn:E; [exact E|]|];
    apply randomUUID_truthy.
Qed.

Lemma interpret_outcome_reply_truthy (o : CompletionOutcome) :
  error (interpret_outcome o) = None -> truthy (reply (interpret_outcome o)) = true.
Proof.
  destruct o as [[content|]|st raw|raw]; simpl; try discriminate; try reflexivity.
  - intros _. destruct (truthy content) eqn:E; [exact E|reflexivity].
  - destruct (status_is st 401); [|destruct (status_is st 429);
      [|destruct (_ || _ || _)]]; discriminate.
Qed.

Section Resolution.
Variables (env : Env) (w : World).

Lemma getOrCreate_lookup_refused (s : string) :
  truthy s = true ->
  encodes (engine (store w)) s = false ->
  MessageRoute.getOrCreateConversation env (Some s) w
  = (Thrown InvalidByteSequence, log (ConversationFindUnique s) w).
Proof.
  intros Ht He. unfold MessageRoute.getOrCreateConversation, bind.
  rewrite Ht. unfold conversation_findUnique. now rewrite He.
Qed.

Lemma getOrCreate_reuse (s : string) (c : Conversation.t) :
  truthy s = true ->
  encodes (engine (store w)) s = true ->
  find (has_sessionId s) (conversations (store w)) = Some c ->
  MessageRoute.getOrCreateConversation env (Some s) w
  = (Returned c, log (ConversationFindUnique s) w).
Proof.
  intros Ht He Hf. unfold MessageRoute.getOrCreateConversation, bind.
  rewrite Ht. unfold conversation_findUnique. now rewrite He, Hf.
Qed.

Lemma getOrCreate_supplied (s : string) :
  truthy s = true ->
  encodes (engine (store w)) s = true ->
  find (has_sessionId s) (conversations (store w)) = None ->
  fits_index (engine (store w)) s = true ->
  MessageRoute.getOrCreateConversation env (Some s) w
  = (Returned (new_conversation (advance (dt_conversation env) (store w)) s),
     {| store := write_conversation (dt_conversation env) s (store w);
        trace := trace w ++ [ConversationFindUnique s; ConversationCreate s] |}).
Proof.
  intros Ht He Hf Hi. unfold MessageRoute.getOrCreateConversation, bind.
  rewrite Ht. unfold conversation_findUnique. rewrite He, Hf.
  unfold conversation_create, or_else, create_refusal. rewrite Ht. simpl.
  rewrite He, Hi, find_existsb, Hf. unfold with_store, write_conversation; simpl.
  now rewrite <- app_assoc.
Qed.

Lemma getOrCreate_supplied_refused (s : string) :
  truthy s = true ->
  encodes (engine (store w)) s = true ->
  find (has_sessionId s) (conversations (store w)) = None ->
  fits_index (engine (store w)) s = false ->
  MessageRoute.getOrCreateConversation env (Some s) w
  = (Thrown IndexRowTooLarge,
     {| store := advance (dt_conversation env) (store w);
        trace := trace w ++ [ConversationFindUnique s; ConversationCreate s] |}).
Proof.
  intros Ht He Hf Hi. unfold MessageRoute.getOrCreateConversation, bind.
  rewrite Ht. unfold conversation_findUnique. rewrite He, Hf.
  unfold conversation_create, or_else, create_refusal. rewrite Ht. simpl.
  rewrite He, Hi. unfold with_store; simpl.
  now rewrite <- app_assoc.
Qed.

Lemma getOrCreate_mint (sessionId : option string) :
  truthy_opt sessionId = false ->
  create_refusal (store w) (randomUUID (entropy env)) = None ->
  MessageRoute.getOrCreateConversation env sessionId w
  = (Returned (new_conversation (advance (dt_conversation env) (store w))
                                (randomUUID (entropy env))),
     {| store := write_conversation (dt_conversation env)
                                    (randomUUID (entropy env)) (store w);
        trace := trace w ++ [ConversationCreate (randomUUID (entropy env))] |}).
Proof.
  intros Ht Hf. unfold MessageRoute.getOrCreateConversation, bind.
  assert (or_else sessionId (randomUUID (entropy env)) = randomUUID (entropy env)) as ->.
  { destruct sessionId as [s|]; simpl in *; [now rewrite Ht|reflexivity]. }
  destruct sessionId as [s|]; simpl in Ht; [rewrite Ht|];
    unfold ret, conversation_create; rewrite create_refusal_advance, Hf;
    reflexivity.
Qed.

Lemma getOrCreate_mint_refused (sessionId : option string) (e : Exception) :
  truthy_opt sessionId = false ->
  create_refusal (store w) (randomUUID (entropy env)) = Some e ->
  MessageRoute.getOrCreateConversation env sessionId w
  = (Thrown e,
     {| store := advance (dt_conversation env) (store w);
        trace := trace w ++ [ConversationCreate (randomUUID (entropy env))] |}).
Proof.
  intros Ht Hf. unfold MessageRoute.getOrCreateConversation, bind.
  assert (or_else sessionId (randomUUID (entropy env)) = randomUUID (entropy env)) as ->.
  { destruct sessionId as [s|]; simpl in *; [now rewrite Ht|reflexivity]. }
  destruct sessionId as [s|]; simpl in Ht; [rewrite Ht|];
    unfold ret, conversation_create; rewrite create_refusal_advance, Hf;
    reflexivity.
Qed.

(** The resolution ends in one of the six ways, and in that one only. *)
Lemma getOrCreate_resolution (sessionId : option string) :
  exists o w1,
    MessageRoute.getOrCreateConversation env sessionId w = (o, w1)
    /\ resolution env sessionId w o w1.
Proof.
  destruct (truthy_opt sessionId) eqn:Ht.
  - destruct sessionId as [s|]; [simpl in Ht|discriminate].
    destruct (encodes (engine (store w)) s) eqn:He.
    + destruct (find (has_sessionId s) (conversations (store w))) as [c|] eqn:Hf.
      * rewrite (getOrCreate_reuse s c Ht He Hf).
        eexists _, _. split; [reflexivity|]. now eapply resolution_reuse.
      * destruct (fits_index (engine (store w)) s) eqn:Hi.
        -- rewrite (getOrCreate_supplied s Ht He Hf Hi).
           eexists _, _. split; [reflexivity|]. now eapply resolution_supplied.
        -- rewrite (getOrCreate_supplied_refused s Ht He Hf Hi).
           eexists _, _. split; [reflexivity|].
           now eapply resolution_supplied_refused.
    + rewrite (getOrCreate_lookup_refused s Ht He).
      eexists _, _. split; [reflexivity|]. now eapply resolution_lookup_refused.
  - destruct (create_refusal (store w) (randomUUID (entropy env))) as [e|] eqn:Hf.
    + rewrite (getOrCreate_mint_refused sessionId e Ht Hf).
      eexists _, _. split; [reflexivity|]. now apply resolution_mint_refused.
    + rewrite (getOrCreate_mint sessionId Ht Hf).
      eexists _, _. split; [reflexivity|]. now apply resolution_mint.
Qed.

Lemma resolution_equation (sessionId : option string) (w1 : World)
    (o : Outcome Conversation.t) :
  resolution env sessionId w o w1 ->
  MessageRoute.getOrCreateConversation env sessionId w = (o, w1).
Proof.
  intros H. inversion H; subst.
  - now apply getOrCreate_lookup_refused.
  - now apply getOrCreate_reuse.
  - now apply getOrCreate_supplied.
  - now apply getOrCreate_supplied_refused.
  - now apply getOrCreate_mint.
  - now apply getOrCreate_mint_refused.
Qed.

(** Whatever the path, the conversation returned is in the store, under
    the supplied token when there is one and under the minted one
    otherwise; the engine encodes that token, and no message is touched. *)
Lemma resolution_returned (sessionId : option string) (w1 : World)
    (c : Conversation.t) :
  resolution env sessionId w (Returned c) w1 ->
  existsb (has_id (Conversation.id c)) (conversations (store w1)) = true
  /\ Conversation.sessionId c = newSessionId env sessionId
  /\ messages (store w1) = messages (store w)
  /\ engine (store w1) = engine (store w)
  /\ encodes (engine (store w)) (newSessionId env sessionId) = true.
Proof.
  unfold newSessionId.
  intros H. inversion H as [|s c0 Hs Ht He Hf|s Hs Ht He Hf Hi|
                            |Ht Hf|]; subst.
  - apply find_some in Hf as [Hin Hc]. simpl. rewrite Ht. repeat split.
    + apply existsb_exists. exists c. split; [exact Hin|].
      unfold has_id. apply Nat.eqb_refl.
    + now apply String.eqb_eq in Hc.
    + exact He.
  - simpl. rewrite Ht, existsb_app. simpl. unfold has_id at 2; simpl.
    rewrite Nat.eqb_refl, orb_true_r. auto.
  - assert (or_else sessionId (randomUUID (entropy env)) = randomUUID (entropy env)) as ->.
    { destruct sessionId as [s|]; simpl in *; [now rewrite Ht|reflexivity]. }
    apply create_refusal_none in Hf as (He & _ & _).
    simpl. rewrite existsb_app. simpl. unfold has_id at 2; simpl.
    rewrite Nat.eqb_refl, orb_true_r. auto.
Qed.

Lemma getOrCreate_returned (sessionId : option string) (c : Conversation.t)
    (w1 : World) :
  MessageRoute.getOrCreateConversation env sessionId w = (Returned c, w1) ->
  existsb (has_id (Conversation.id c)) (conversations (store w1)) = true
  /\ Conversation.sessionId c = newSessionId env sessionId
  /\ messages (store w1) = messages (store w).
Proof.
  intros Hg.
  destruct (getOrCreate_resolution sessionId) as (o & w0 & Hrun & H).
  rewrite Hg in Hrun. injection Hrun as <- <-.
  apply resolution_returned in H as (H1 & H2 & H3 & _). auto.
Qed.

End Resolution.

Ltac finish_run :=
  unfold ret, log, with_store; simpl; rewrite <- ?app_assoc; reflexivity.

Section Reply.
Variables (env : Env) (c : Conversation.t) (message : string) (w1 : World).
Hypothesis Hexists :
  existsb (has_id (Conversation.id c)) (conversations (store w1)) = true.

Local Abbreviation cid := (Conversation.id c).
Local Abbreviation after_user :=
  (write_message (dt_user env) cid USER message (store w1)).
Local Abbreviation answer :=
  (reply (interpret_outcome (provider env (request_for env c message (store w1))))).

Lemma message_create_ok (dt : nat) (sender : Sender) (text : string) (w : World) :
  existsb (has_id cid) (conversations (store w)) = true ->
  encodes (engine (store w)) text = true ->
  message_create dt cid sender text w
  = (Returned (new_message (advance dt (store w)) cid sender text),
     {| store := write_message dt cid sender text (store w);
        trace := trace w ++ [MessageCreate cid sender text] |}).
Proof. intros H He. unfold message_create. simpl. now rewrite He, H. Qed.

Lemma message_create_refused (dt : nat) (sender : Sender) (text : string) (w : World) :
  encodes (engine (store w)) text = false ->
  message_create dt cid sender text w
  = (Thrown InvalidByteSequence,
     {| store := advance dt (store w);
        trace := trace w ++ [MessageCreate cid sender text] |}).
Proof. intros He. unfold message_create. simpl. now rewrite He. Qed.

(** The store refuses the user turn: nothing is written and nothing else
    is called. *)
Lemma replyTo_user_refused :
  encodes (engine (store w1)) message = false ->
  MessageRoute.replyTo env c message w1
  = (Thrown InvalidByteSequence,
     {| store := advance (dt_user env) (store w1);
        trace := trace w1 ++ [MessageCreate cid USER message] |}).
Proof.
  intros He. unfold MessageRoute.replyTo, bind.
  now rewrite (message_create_refused _ _ _ _ He).
Qed.

(** No credential: the fixed sentence is stored and returned, and the
    handler returns before "Update conversation timestamp". *)
Lemma replyTo_fallback :
  encodes (engine (store w1)) message = true ->
  isConfigured (getLLMService env) = false ->
  encodes (engine (store w1)) MessageRoute.fallbackReply = true ->
  MessageRoute.replyTo env c message w1
  = (Returned (NextResponse_json
                 (ReplyBody MessageRoute.fallbackReply (Conversation.sessionId c)) 200),
     {| store := write_message (dt_assistant env) cid AI MessageRoute.fallbackReply
                               after_user;
        trace := trace w1 ++ [MessageCreate cid USER message;
                              MessageFindMany cid;
                              MessageCreate cid AI MessageRoute.fallbackReply] |}).
Proof.
  intros He Hc Hf. unfold MessageRoute.replyTo, bind.
  rewrite (message_create_ok _ _ _ _ Hexists He).
  unfold message_findMany. rewrite Hc. cbn [negb]. cbv beta iota.
  rewrite message_create_ok by (exact Hexists || exact Hf).
  finish_run.
Qed.

Lemma replyTo_fallback_refused :
  encodes (engine (store w1)) message = true ->
  isConfigured (getLLMService env) = false ->
  encodes (engine (store w1)) MessageRoute.fallbackReply = false ->
  MessageRoute.replyTo env c message w1
  = (Thrown InvalidByteSequence,
     {| store := advance (dt_assistant env) after_user;
        trace := trace w1 ++ [MessageCreate cid USER message;
                              MessageFindMany cid;
                              MessageCreate cid AI MessageRoute.fallbackReply] |}).
Proof.
  intros He Hc Hf. unfold MessageRoute.replyTo, bind.
  rewrite (message_create_ok _ _ _ _ Hexists He).
  unfold message_findMany. rewrite Hc. cbn [negb]. cbv beta iota.
  rewrite message_create_refused by exact Hf.
  finish_run.
Qed.

(** The gateway answers with an error: the response carries its
    sentence, and nothing is written after the user turn. *)
Lemma replyTo_error (e : string) :
  encodes (engine (store w1)) message = true ->
  isConfigured (getLLMService env) = true ->
  error (interpret_outcome (provider env (request_for env c message (store w1))))
  = Some e ->
  MessageRoute.replyTo env c message w1
  = (Returned (NextResponse_json (ErrorBody (Sentence e)) 500),
     {| store := after_user;
        trace := trace w1 ++ [MessageCreate cid USER message;
                              MessageFindMany cid;
                              ChatCompletionsCreate
                                (request_for env c message (store w1))] |}).
Proof.
  intros Hm Hc He. unfold MessageRoute.replyTo, bind.
  rewrite (message_create_ok _ _ _ _ Hexists Hm).
  unfold message_findMany. rewrite Hc. cbn [negb]. cbv beta iota.
  destruct (configured_client env Hc) as [key Hk].
  unfold generateReply. rewrite Hk. simpl.
  unfold request_for, history_after_user in He. rewrite He.
  rewrite (interpret_outcome_error_truthy _ _ He).
  unfold request_for, history_after_user. finish_run.
Qed.

(** The gateway answers with a reply: the assistant turn is written and
    the conversation's timestamp is then updated. *)
Lemma replyTo_reply :
  encodes (engine (store w1)) message = true ->
  isConfigured (getLLMService env) = true ->
  error (interpret_outcome (provider env (request_for env c message (store w1))))
  = None ->
  encodes (engine (store w1)) answer = true ->
  MessageRoute.replyTo env c message w1
  = (Returned (NextResponse_json (ReplyBody answer (Conversation.sessionId c)) 200),
     {| store := bump (dt_update env) cid
                      (write_message (dt_assistant env) cid AI answer after_user);
        trace := trace w1 ++ [MessageCreate cid USER message;
                              MessageFindMany cid;
                              ChatCompletionsCreate
                                (request_for env c message (store w1));
                              MessageCreate cid AI answer;
                              ConversationUpdate cid] |}).
Proof.
  intros Hm Hc He Ha. unfold MessageRoute.replyTo, bind.
  rewrite (message_create_ok _ _ _ _ Hexists Hm).
  unfold message_findMany. rewrite Hc. cbn [negb]. cbv beta iota.
  destruct (configured_client env Hc) as [key Hk].
  unfold generateReply. rewrite Hk. simpl.
  unfold request_for, history_after_user in He, Ha. rewrite He.
  unfold MessageRoute.saveReply, bind.
  rewrite message_create_ok by (exact Hexists || exact Ha).
  unfold conversation_update. simpl. rewrite Hexists.
  unfold request_for, history_after_user, bump. finish_run.
Qed.

(** The gateway answers with a reply that the store refuses: the user
    turn stays, no assistant turn is written and no update is issued. *)
Lemma replyTo_reply_refused :
  encodes (engine (store w1)) message = true ->
  isConfigured (getLLMService env) = true ->
  error (interpret_outcome (provider env (request_for env c message (store w1))))
  = None ->
  encodes (engine (store w1)) answer = false ->
  MessageRoute.replyTo env c message w1
  = (Thrown InvalidByteSequence,
     {| store := advance (dt_assistant env) after_user;
        trace := trace w1 ++ [MessageCreate cid USER message;
                              MessageFindMany cid;
                              ChatCompletionsCreate
                                (request_for env c message (store w1));
                              MessageCreate cid AI answer] |}).
Proof.
  intros Hm Hc He Ha. unfold MessageRoute.replyTo, bind.
  rewrite (message_create_ok _ _ _ _ Hexists Hm).
  unfold message_findMany. rewrite Hc. cbn [negb]. cbv beta iota.
  destruct (configured_client env Hc) as [key Hk].
  unfold generateReply. rewrite Hk. simpl.
  unfold request_for, history_after_user in He, Ha. rewrite He.
  unfold MessageRoute.saveReply, bind.
  rewrite message_create_refused by exact Ha.
  unfold request_for, history_after_user. finish_run.
Qed.

(** [replyTo] ends in one of the six ways, and in that one only. *)
Lemma replyTo_path :
  exists o w2,
    MessageRoute.replyTo env c message w1 = (o, w2)
    /\ reply_path env c message w1 o w2.
Proof.
  destruct (encodes (engine (store w1)) message) eqn:Hm.
  - destruct (isConfigured (getLLMService env)) eqn:Hc.
    + destruct (error (interpret_outcome
                         (provider env (request_for env c message (store w1)))))
        as [e|] eqn:He.
      * rewrite (replyTo_error e Hm Hc He).
        eexists _, _. split; [reflexivity|]. now apply path_error.
      * destruct (encodes (engine (store w1)) answer) eqn:Ha.
        -- rewrite (replyTo_reply Hm Hc He Ha).
           eexists _, _. split; [reflexivity|]. now apply path_reply.
        -- rewrite (replyTo_reply_refused Hm Hc He Ha).
           eexists _, _. split; [reflexivity|]. now apply path_reply_refused.
    + destruct (encodes (engine (store w1)) MessageRoute.fallbackReply) eqn:Hf.
      * rewrite (replyTo_fallback Hm Hc Hf).
        eexists _, _. split; [reflexivity|]. now apply path_fallback.
      * rewrite (replyTo_fallback_refused Hm Hc Hf).
        eexists _, _. split; [reflexivity|]. now apply path_fallback_refused.
  - rewrite (replyTo_user_refused Hm).
    eexists _, _. split; [reflexivity|]. now apply path_user_refused.
Qed.

Lemma reply_path_equation (o : Outcome Response) (w2 : World) :
  reply_path env c message w1 o w2 ->
  MessageRoute.replyTo env c message w1 = (o, w2).
Proof.
  intros H. inversion H; subst.
  - now apply replyTo_user_refused.
  - now apply replyTo_fallback.
  - now apply replyTo_fallback_refused.
  - now apply replyTo_error.
  - now apply replyTo_reply.
  - now apply replyTo_reply_refused.
Qed.

End Reply.

(** The message route on a body that passes validation. *)
Lemma POST_parsed (env : Env) (request : RequestBody) (message : string)
    (sessionId : option string) (w : World) :
  request <> Malformed ->
  MessageRoute.messageSchema_safeParse request = inr (message, sessionId) ->
  MessageRoute.POST env request w
  = match MessageRoute.getOrCreateConversation env sessionId w with
    | (Returned c, w1) =>
        match MessageRoute.replyTo env c message w1 with
        | (Returned r, w2) => (Returned r, w2)
        | (Thrown _, w2) => (Returned unexpected, w2)
        end
    | (Thrown _, w1) => (Returned unexpected, w1)
    end.
Proof.
  intros Hm Hp. unfold MessageRoute.POST, try_catch, bind.
  destruct request; try congruence; simpl request_json; unfold ret;
    rewrite Hp;
    destruct (MessageRoute.getOrCreateConversation env sessionId w)
      as [[c|e] w1]; try reflexivity;
    destruct (MessageRoute.replyTo env c message w1) as [[r|e] w2];
    reflexivity.
Qed.

(** The message route on a body that fails validation: status 400 and no
    call to the store or to the provider. *)
Lemma POST_rejected (env : Env) (request : RequestBody) (issue : ErrorText)
    (w : World) :
  request <> Malformed ->
  MessageRoute.messageSchema_safeParse request = inl issue ->
  MessageRoute.POST env request w
  = (Returned (NextResponse_json (ErrorBody issue) 400), w).
Proof.
  intros Hm Hp. unfold MessageRoute.POST, try_catch, bind.
  destruct request; try congruence; simpl request_json; unfold ret;
    now rewrite Hp.
Qed.

(** The handler always answers: no exception escapes its [catch]. *)
Lemma POST_returns (env : Env) (request : RequestBody) (w : World) :
  exists r w', MessageRoute.POST env request w = (Returned r, w').
Proof.
  unfold MessageRoute.POST, try_catch.
  destruct (bind _ _ w) as [[r|e] w']; unfold ret; eauto.
Qed.

(** A message request ends in one of the five ways. *)
Lemma POST_handled (env : Env) (request : RequestBody) (w : World) :
  exists r w',
    MessageRoute.POST env request w = (Returned r, w')
    /\ handled env request w r w'.
Proof.
  destruct request as [| |m s].
  - eexists _, _. split; [reflexivity|]. now apply handled_malformed.
  - eexists _, _. split; [reflexivity|].
    apply handled_invalid with (issue := InvalidType []); [discriminate|reflexivity].
  - destruct (MessageRoute.messageSchema_safeParse (Body m s))
      as [issue|[message sessionId]] eqn:Hp.
    + rewrite (POST_rejected env _ issue w) by (discriminate || exact Hp).
      eexists _, _. split; [reflexivity|].
      apply handled_invalid; [discriminate|exact Hp].
    + rewrite (POST_parsed env _ message sessionId w) by (discriminate || exact Hp).
      destruct (getOrCreate_resolution env w sessionId) as (o & w1 & Hg & Hres).
      rewrite Hg. destruct o as [c|e].
      * pose proof (resolution_returned env w sessionId w1 c Hres) as (Hex & _).
        destruct (replyTo_path env c message w1 Hex) as (o & w2 & Hr & Hpath).
        rewrite Hr. destruct o as [r|e].
        -- eexists _, _. split; [reflexivity|].
           eapply handled_replied; eauto; discriminate.
        -- eexists _, _. split; [reflexivity|].
           eapply handled_refused; eauto; discriminate.
      * eexists _, _. split; [reflexivity|].
        eapply handled_unresolved; eauto; discriminate.
Qed.

(** The answer of [replyTo] is a success or a gateway failure, never a
    validation failure. *)
Lemma reply_path_status (env : Env) (c : Conversation.t) (message : string)
    (w1 w2 : World) (r : Response) :
  reply_path env c message w1 (Returned r) w2 ->
  (status r = 200
   /\ exists reply,
       body r = ReplyBody reply (Conversation.sessionId c) /\ truthy reply = true)
  \/ (status r = 500
      /\ exists sentence,
          body r = ErrorBody (Sentence sentence) /\ truthy sentence = true).
Proof.
  intros H. inversion H as [|Hm Hc Hf|
                            |e Hm Hc He|Hm Hc He Ha|]; subst; simpl.
  - left. split; [reflexivity|]. eexists. split; reflexivity.
  - right. split; [reflexivity|]. eexists. split; [reflexivity|].
    now apply (interpret_outcome_error_truthy _ _ He).
  - left. split; [reflexivity|]. eexists. split; [reflexivity|].
    now apply interpret_outcome_reply_truthy.
Qed.

Lemma replyTo_status (env : Env) (c : Conversation.t) (message : string)
    (w1 w2 : World) (r : Response) :
  existsb (has_id (Conversation.id c)) (conversations (store w1)) = true ->
  MessageRoute.replyTo env c message w1 = (Returned r, w2) ->
  status r = 200 \/ status r = 500.
Proof.
  intros Hex Hr.
  destruct (replyTo_path env c message w1 Hex) as (o & w0 & Hrun & H).
  rewrite Hr in Hrun. injection Hrun as <- <-.
  destruct (reply_path_status _ _ _ _ _ _ H) as [[? _]|[? _]]; auto.
Qed.

(** ** Validation of the message route *)

(** C4. The message route accepts a body exactly when its message has 1 to
    2000 characters (the session field being absent or a string): an
    accepted body is parsed to that message and is never answered with
    status 400, while a message of length 0 or above 2000 is answered with
    status 400 and an error sentence, whatever the session field, and the
    world (both tables, the id counter, the clock, the calls issued) is
    left as it was. *)
Theorem POST_accepts_exactly_1_to_2000 (env : Env) (message : string)
    (sessionId : Field) (w : World) :
  (well_typed_session sessionId ->
   1 <= String.length message <= 2000 ->
   exists token r w',
     MessageRoute.messageSchema_safeParse (Body (Str message) sessionId)
     = inr (message, token)
     /\ MessageRoute.POST env (Body (Str message) sessionId) w = (Returned r, w')
     /\ status r <> 400)
  /\
  (String.length message = 0 \/ 2000 < String.length message ->
   exists sentence,
     MessageRoute.POST env (Body (Str message) sessionId) w
     = (Returned (NextResponse_json (ErrorBody (Sentence sentence)) 400), w)).
Proof.
  split.
  - intros Hs Hlen.
    assert (MessageRoute.parse_message (Str message) = inr message) as Hm.
    { unfold MessageRoute.parse_message, MessageRoute.MAX_MESSAGE_LENGTH.
      destruct (String.length message <? 1) eqn:E1;
        [apply Nat.ltb_lt in E1; lia|].
      destruct (2000 <? String.length message) eqn:E2;
        [apply Nat.ltb_lt in E2; lia|reflexivity]. }
    assert (exists token,
               MessageRoute.messageSchema_safeParse (Body (Str message) sessionId)
               = inr (message, token)) as [token Hp].
    { unfold MessageRoute.messageSchema_safeParse. rewrite Hm.
      destruct Hs as [->|[s ->]]; simpl; eauto. }
    exists token.
    destruct (POST_handled env (Body (Str message) sessionId) w)
      as (r & w' & Hrun & H).
    exists r, w'. split; [exact Hp|]. split; [exact Hrun|].
    inversion H as [Hb|issue Hb Hi|m s e w1 Hb Hq Hres
                    |m s c w1 e w2 Hb Hq Hres Hpath
                    |m s c w1 r0 w2 Hb Hq Hres Hpath]; subst;
      try discriminate; try congruence.
    destruct (reply_path_status _ _ _ _ _ _ Hpath) as [[E _]|[E _]];
      rewrite E; discriminate.
  - intros Hlen.
    assert (exists sentence,
               MessageRoute.messageSchema_safeParse (Body (Str message) sessionId)
               = inl (Sentence sentence)) as [sentence Hp].
    { unfold MessageRoute.messageSchema_safeParse, MessageRoute.parse_message,
        MessageRoute.MAX_MESSAGE_LENGTH.
      destruct (String.length message <? 1) eqn:E1; [eauto|].
      apply Nat.ltb_ge in E1.
      destruct (2000 <? String.length message) eqn:E2; [eauto|].
      apply Nat.ltb_ge in E2. lia. }
    exists sentence. apply POST_rejected; [congruence|exact Hp].
Qed.

(** ** The history route *)

Lemma history_GET_run (s : string) (w : World) :
  truthy s = true ->
  encodes (engine (store w)) s = true ->
  HistoryRoute.GET (Some s) w
  = (Returned
       (match find (has_sessionId s) (conversations (store w)) with
        | Some c =>
            NextResponse_json
              (HistoryBody (map select_history_item
                                (messages_of (store w) (Conversation.id c)))
                           (Some (Conversation.sessionId c))) 200
        | None => NextResponse_json (HistoryBody [] (Some s)) 200
        end),
     log (ConversationFindUnique s) w).
Proof.
  intros Ht He. apply truthy_length in Ht.
  unfold HistoryRoute.GET, try_catch, bind, HistoryRoute.historySchema_safeParse.
  destruct (String.length s <? 1) eqn:E; [apply Nat.ltb_lt in E; lia|].
  unfold conversation_findUnique_with_messages. rewrite He.
  destruct (find _ _); reflexivity.
Qed.

(** A token the engine cannot encode: the look-up throws and the [catch]
    answers. *)
Lemma history_GET_refused (s : string) (w : World) :
  truthy s = true ->
  encodes (engine (store w)) s = false ->
  HistoryRoute.GET (Some s) w
  = (Returned (NextResponse_json (ErrorBody (Sentence HistoryRoute.FAILED)) 500),
     log (ConversationFindUnique s) w).
Proof.
  intros Ht He. apply truthy_length in Ht.
  unfold HistoryRoute.GET, try_catch, bind, HistoryRoute.historySchema_safeParse.
  destruct (String.length s <? 1) eqn:E; [apply Nat.ltb_lt in E; lia|].
  unfold conversation_findUnique_with_messages. now rewrite He.
Qed.

(** C10, as worded, fails: a non-empty token that contains U+0000 matches
    no conversation, and the history route answers it with status 500. *)
Lemma refused_token_is_an_error : ~ unknown_session_is_never_an_error.
Proof.
  intros H.
  specialize (H nul_token initial (log (ConversationFindUnique nul_token) initial)
                (NextResponse_json (ErrorBody (Sentence HistoryRoute.FAILED)) 500)).
  discriminate H; [discriminate|reflexivity|reflexivity].
Qed.

(** C10, amended.  A non-empty session token that matches no conversation
    and that the engine encodes is answered with status 200, an empty list
    of messages and the token that was supplied; one that the engine does
    not encode is answered with status 500 and the fixed sentence of the
    route; status 400 is the answer exactly when the parameter is missing
    or empty. *)
Theorem history_unknown_session_is_empty (sessionId : option string) (w : World) :
  exists r w',
    HistoryRoute.GET sessionId w = (Returned r, w')
    /\ (status r = 400 <-> sessionId = None \/ sessionId = Some EmptyString)
    /\ (forall s, sessionId = Some s -> s <> EmptyString ->
                  find (has_sessionId s) (conversations (store w)) = None ->
                  (encodes (engine (store w)) s = true ->
                   r = NextResponse_json (HistoryBody [] (Some s)) 200)
                  /\ (encodes (engine (store w)) s = false ->
                      r = NextResponse_json
                            (ErrorBody (Sentence HistoryRoute.FAILED)) 500)).
Proof.
  destruct sessionId as [s|].
  - destruct (truthy s) eqn:Ht.
    + destruct (encodes (engine (store w)) s) eqn:He.
      * rewrite (history_GET_run s w Ht He).
        eexists _, _. split; [reflexivity|]. split.
        -- apply truthy_nonempty in Ht.
           destruct (find _ _); simpl; split; try lia; intros [H|[= H]]; congruence.
        -- intros s' [= <-] _ Hf. rewrite Hf, He. split; [reflexivity|discriminate].
      * rewrite (history_GET_refused s w Ht He).
        eexists _, _. split; [reflexivity|]. split.
        -- apply truthy_nonempty in Ht.
           simpl; split; try lia; intros [H|[= H]]; congruence.
        -- intros s' [= <-] _ Hf. rewrite He. split; [discriminate|reflexivity].
    + destruct s; [|discriminate].
      eexists _, _. split; [reflexivity|]. split.
      * simpl. split; auto.
      * intros s' [= <-] Hne. congruence.
  - eexists _, _. split; [reflexivity|]. split.
    + simpl. split; auto.
    + intros s' [=].
Qed.

(** C9. For a session token that has a conversation, the history route
    answers with exactly the messages of that conversation, in
    non-decreasing order of creation time, and leaves the store as it was. *)
Theorem history_is_ascending (s : string) (c : Conversation.t) (w : World) :
  wf (store w) ->
  find (has_sessionId s) (conversations (store w)) = Some c ->
  exists items w',
    HistoryRoute.GET (Some s) w
    = (Returned (NextResponse_json (HistoryBody items (Some s)) 200), w')
    /\ store w' = store w
    /\ Permutation
         (map select_history_item
              (filter (belongs_to (Conversation.id c)) (messages (store w))))
         items
    /\ StronglySorted
         (fun a b => HistoryItem.timestamp a <= HistoryItem.timestamp b) items.
Proof.
  intros Hwf Hf.
  pose proof (find_some _ _ Hf) as [Hin Hs].
  apply String.eqb_eq in Hs.
  assert (truthy s = true) as Ht.
  { apply truthy_nonempty. rewrite <- Hs.
    pose proof (wf_tokens _ Hwf) as Htok. rewrite Forall_forall in Htok.
    now apply Htok. }
  assert (encodes (engine (store w)) s = true) as He.
  { rewrite <- Hs.
    pose proof (wf_encoded _ Hwf) as Henc. rewrite Forall_forall in Henc.
    now apply Henc. }
  rewrite (history_GET_run s w Ht He), Hf, Hs.
  eexists _, _. split; [reflexivity|]. split; [reflexivity|]. split.
  - apply Permutation_map. unfold messages_of. apply orderBy_asc_perm.
  - unfold messages_of.
    pose proof (orderBy_asc_sorted Message.timestamp
                  (filter (belongs_to (Conversation.id c)) (messages (store w)))) as Hsorted.
    induction Hsorted as [|m l Hl IH Hall]; simpl; constructor.
    + exact IH.
    + apply Forall_map. exact Hall.
Qed.

(** ** The gateway *)

Lemma formatHistory_slice_last (n : nat) (history : list Turn) :
  slice_last n (formatHistory history) = formatHistory (slice_last n history).
Proof.
  unfold slice_last, formatHistory. now rewrite length_map, skipn_map.
Qed.

Lemma formatHistory_content (history : list Turn) :
  map content (formatHistory history) = map text history.
Proof. unfold formatHistory. rewrite map_map. reflexivity. Qed.

(** C7. With a client, [generateReply] issues one request: its first
    message is the fixed instruction block under the system role, then come
    the last 10 entries of the supplied history (all of them when there are
    fewer), in their order and with their text, then the new user
    utterance; [max_tokens] is 500 and [temperature] is 0.7. *)
Theorem generateReply_request (this : LLMService) (cl : OpenAI)
    (history : list Turn) (userMessage : string) (w : World) :
  client this = Some cl ->
  exists request older,
    generateReply this history userMessage w
    = (Returned (interpret_outcome (chat_completions_create cl request)),
       log (ChatCompletionsCreate request) w)
    /\ history = older ++ slice_last 10 history
    /\ List.length (slice_last 10 history) = Nat.min 10 (List.length history)
    /\ rq_messages request
       = {| role := system; content := SYSTEM_PROMPT |}
           :: formatHistory (slice_last 10 history)
           ++ [ {| role := user; content := userMessage |} ]
    /\ map content (formatHistory (slice_last 10 history))
       = map text (slice_last 10 history)
    /\ rq_max_tokens request = 500
    /\ rq_temperature request = 7 # 10.
Proof.
  intros Hc.
  exists (build_request this history userMessage),
         (firstn (List.length history - 10) history).
  repeat split.
  - unfold generateReply. now rewrite Hc.
  - symmetry. apply slice_last_suffix.
  - apply slice_last_length.
  - unfold build_request. simpl. now rewrite formatHistory_slice_last.
  - apply formatHistory_content.
Qed.

(** ** Gateway failures *)

Lemma interpret_outcome_rejected (o : CompletionOutcome) :
  rejected o = true ->
  exists e, error (interpret_outcome o) = Some e /\ In e error_sentences.
Proof.
  destruct o as [content|st raw|raw]; simpl; [discriminate| |]; intros _.
  - destruct (status_is st 401); [|destruct (status_is st 429);
      [|destruct (_ || _ || _)]]; simpl; eexists; split; try reflexivity; auto 6.
  - eexists; split; [reflexivity|]. auto 6.
Qed.

(** The sentence depends on the status of the rejection only, not on what
    the provider wrote in it. *)
Lemma interpret_outcome_hides_raw (st : option nat) (raw raw' : string) :
  interpret_outcome (RejectedAPIError st raw)
  = interpret_outcome (RejectedAPIError st raw')
  /\ interpret_outcome (RejectedOther raw) = interpret_outcome (RejectedOther raw').
Proof. split; reflexivity. Qed.

Lemma getOrCreate_conversations (env : Env) (sessionId : option string)
    (w w1 : World) (c : Conversation.t) :
  MessageRoute.getOrCreateConversation env sessionId w = (Returned c, w1) ->
  (conversations (store w1) = conversations (store w)
   /\ In c (conversations (store w)))
  \/ (conversations (store w1) = conversations (store w) ++ [c]
      /\ Conversation.updatedAt c = Conversation.createdAt c).
Proof.
  intros Hg.
  destruct (getOrCreate_resolution env w sessionId) as (o & w0 & Hrun & H).
  rewrite Hg in Hrun. injection Hrun as <- <-.
  inversion H as [|s c0 Hs Ht He Hf|s Hs Ht He Hf Hi| |Ht Hf|]; subst.
  - left. split; [reflexivity|]. now apply find_some in Hf.
  - right. split; reflexivity.
  - right. split; reflexivity.
Qed.

(** What [POST] does once the conversation is resolved: it answers what
    [replyTo] answers, or with the generic error when [replyTo] throws. *)
Lemma POST_resolved (env : Env) (request : RequestBody) (message : string)
    (sessionId : option string) (w w1 w2 : World) (c : Conversation.t)
    (o : Outcome Response) :
  request <> Malformed ->
  MessageRoute.messageSchema_safeParse request = inr (message, sessionId) ->
  MessageRoute.getOrCreateConversation env sessionId w = (Returned c, w1) ->
  MessageRoute.replyTo env c message w1 = (o, w2) ->
  MessageRoute.POST env request w
  = (Returned match o with Returned r => r | Thrown _ => unexpected end, w2).
Proof.
  intros Hm Hp Hg Hr.
  rewrite (POST_parsed env request message sessionId w Hm Hp), Hg, Hr.
  now destruct o.
Qed.

(** C3. When the conversation is resolved, the store writes the user turn
    (so that the gateway is called), the gateway is configured and the
    provider rejects the request, the answer has status 500 and its error
    is one of the gateway's fixed sentences; the user turn is the only row
    written after the resolution: the messages are those of before
    followed by the user turn, no conversation row changes (no timestamp
    update), and the calls issued stop at the provider call. *)
Theorem gateway_error_keeps_user_turn (env : Env) (request : RequestBody)
    (message : string) (sessionId : option string) (w w1 : World)
    (c : Conversation.t) :
  request <> Malformed ->
  MessageRoute.messageSchema_safeParse request = inr (message, sessionId) ->
  MessageRoute.getOrCreateConversation env sessionId w = (Returned c, w1) ->
  encodes (engine (store w1)) message = true ->
  isConfigured (getLLMService env) = true ->
  rejected (provider env (request_for env c message (store w1))) = true ->
  exists sentence w' id timestamp,
    MessageRoute.POST env request w
    = (Returned (NextResponse_json (ErrorBody (Sentence sentence)) 500), w')
    /\ In sentence error_sentences
    /\ messages (store w')
       = messages (store w)
           ++ [ {| Message.id := id;
                   Message.conversationId := Conversation.id c;
                   Message.sender := USER;
                   Message.text := message;
                   Message.timestamp := timestamp |} ]
    /\ conversations (store w') = conversations (store w1)
    /\ trace w'
       = trace w1 ++ [ MessageCreate (Conversation.id c) USER message;
                       MessageFindMany (Conversation.id c);
                       ChatCompletionsCreate (request_for env c message (store w1)) ].
Proof.
  intros Hm Hp Hg Henc Hc Hr.
  destruct (interpret_outcome_rejected _ Hr) as (e & He & Hin).
  pose proof (getOrCreate_returned env w sessionId c w1 Hg) as (Hex & _ & Hmsgs).
  rewrite (POST_resolved env request message sessionId w w1 _ c _ Hm Hp Hg
             (replyTo_error env c message w1 Hex e Henc Hc He)).
  eexists e, _, _, _. split; [reflexivity|]. split; [exact Hin|].
  simpl. rewrite Hmsgs. repeat split.
Qed.

(** ** No credential *)

(** Without a credential [replyTo] writes the two turns and answers with
    the fallback sentence, or throws because the store refuses a turn. *)
Lemma reply_path_unconfigured (env : Env) (c : Conversation.t) (message : string)
    (w1 w2 : World) (o : Outcome Response) :
  truthy_opt (OPENAI_API_KEY env) = false ->
  reply_path env c message w1 o w2 ->
  (o = Returned (fallback_answer (Conversation.sessionId c))
   /\ encodes (engine (store w1)) message = true
   /\ encodes (engine (store w1)) MessageRoute.fallbackReply = true
   /\ store w2
      = write_message (dt_assistant env) (Conversation.id c) AI
          MessageRoute.fallbackReply
          (write_message (dt_user env) (Conversation.id c) USER message (store w1)))
  \/ (exists e, o = Thrown e)
     /\ (encodes (engine (store w1)) message = false
         \/ encodes (engine (store w1)) MessageRoute.fallbackReply = false).
Proof.
  intros Hkey H. rewrite <- isConfigured_key in Hkey.
  inversion H; subst; try congruence.
  - right. split; [eauto|now left].
  - left. repeat split; assumption.
  - right. split; [eauto|now right].
Qed.

(** C5, as worded, fails: without a credential, a message of three
    characters that contains U+0000 is answered with the generic status
    500, because the store refuses the user turn. *)
Lemma refused_message_fails_without_credential : ~ fallback_always_answers.
Proof.
  intros H.
  specialize (H no_credential (Body (Str nul_message) (Str "s1")) nul_message
                (Some "s1") initial
                (snd (MessageRoute.POST no_credential
                        (Body (Str nul_message) (Str "s1")) initial))
                unexpected).
  discriminate H; [discriminate|reflexivity|reflexivity|].
  vm_compute. reflexivity.
Qed.

(** C5, amended.  Without a credential, a request that passes validation
    is answered either with status 200, the fixed fallback sentence and the
    session token, or with the generic status 500: the absence of a
    credential never produces a failure of the gateway.  The answer is the
    first one when the conversation is resolved and the store accepts the
    user turn and the fallback sentence; then the user turn followed by the
    fallback sentence are stored as messages of the conversation that
    carries the token. *)
Theorem fallback_when_unconfigured (env : Env) (request : RequestBody)
    (message : string) (sessionId : option string) (w : World) :
  request <> Malformed ->
  MessageRoute.messageSchema_safeParse request = inr (message, sessionId) ->
  truthy_opt (OPENAI_API_KEY env) = false ->
  exists r w',
    MessageRoute.POST env request w = (Returned r, w')
    /\ (r = fallback_answer (newSessionId env sessionId) \/ r = unexpected)
    /\ (resolves env sessionId w ->
        encodes (engine (store w)) message = true ->
        encodes (engine (store w)) MessageRoute.fallbackReply = true ->
        r = fallback_answer (newSessionId env sessionId)
        /\ exists c id1 t1 id2 t2,
            In c (conversations (store w'))
            /\ Conversation.sessionId c = newSessionId env sessionId
            /\ messages (store w')
               = messages (store w)
                   ++ [ {| Message.id := id1;
                           Message.conversationId := Conversation.id c;
                           Message.sender := USER;
                           Message.text := message;
                           Message.timestamp := t1 |};
                        {| Message.id := id2;
                           Message.conversationId := Conversation.id c;
                           Message.sender := AI;
                           Message.text := MessageRoute.fallbackReply;
                           Message.timestamp := t2 |} ]).
Proof.
  intros Hm Hp Hkey.
  destruct (POST_handled env request w) as (r & w' & Hrun & H).
  exists r, w'. split; [exact Hrun|].
  inversion H as [Hb|issue Hb Hi|m s e w1 Hb Hq Hres
                  |m s c w1 e w2 Hb Hq Hres Hpath
                  |m s c w1 r0 w2 Hb Hq Hres Hpath]; subst;
    try congruence;
    rewrite Hp in Hq; injection Hq as <- <-.
  - (* the resolution throws *)
    split; [now right|].
    intros (c & w2 & Hg). apply resolution_equation in Hres. congruence.
  - (* the store refuses a turn *)
    split; [now right|].
    intros _ He Hf.
    destruct (resolution_returned _ _ _ _ _ Hres) as (_ & _ & _ & Heng & _).
    destruct (reply_path_unconfigured _ _ _ _ _ _ Hkey Hpath)
      as [(Ho & _)|(_ & [E|E])]; [discriminate| |]; rewrite Heng in E; congruence.
  - (* both turns are written *)
    destruct (resolution_returned _ _ _ _ _ Hres) as (Hex & Htok & Hmsgs & _).
    destruct (reply_path_unconfigured _ _ _ _ _ _ Hkey Hpath)
      as [(Ho & _ & _ & Hs)|((e & He) & _)]; [|discriminate].
    injection Ho as ->. rewrite Htok.
    split; [now left|]. intros _ _ _. split; [reflexivity|].
    exists c. rewrite Hs. simpl. rewrite Hmsgs, <- app_assoc. simpl.
    eexists _, _, _, _. split; [|split; [exact Htok|reflexivity]].
    apply resolution_equation in Hres.
    destruct (getOrCreate_conversations env sessionId w w1 c Hres)
      as [[-> Hc]|[-> _]];
      [exact Hc|].
    apply in_or_app. right. now left.
Qed.

(** ** The history handed to the gateway *)

Lemma messages_of_after_write (dt conversationId : nat) (sender : Sender)
    (text : string) (s : Store) :
  wf s ->
  messages_of (write_message dt conversationId sender text s) conversationId
  = messages_of s conversationId
      ++ [new_message (advance dt s) conversationId sender text].
Proof.
  intros Hwf. unfold messages_of, write_message; simpl.
  rewrite filter_app; simpl. unfold belongs_to at 2; simpl.
  rewrite Nat.eqb_refl.
  apply orderBy_asc_snoc.
  apply Forall_forall. intros m Hm. apply filter_In in Hm as [Hm _].
  pose proof (wf_past _ Hwf) as Hpast. rewrite Forall_forall in Hpast.
  specialize (Hpast m Hm). simpl. lia.
Qed.

Lemma wf_after_getOrCreate (env : Env) (sessionId : option string) (w w1 : World)
    (c : Conversation.t) :
  wf (store w) ->
  MessageRoute.getOrCreateConversation env sessionId w = (Returned c, w1) ->
  wf (store w1).
Proof.
  intros Hwf Hg.
  pose proof (preserves_getOrCreateConversation env sessionId w Hwf) as H.
  now rewrite Hg in H.
Qed.

(** C6, as worded, fails: with a configured gateway, a message that
    contains U+0000 is refused by the store, so the user turn is not
    written, the history is not read and no request is sent to the
    provider. *)
Lemma refused_message_is_not_sent : ~ every_message_reaches_the_provider.
Proof.
  intros H.
  destruct (H replying_gateway (Body (Str nul_message) (Str "s1")) nul_message
              (Some "s1") initial
              (snd (MessageRoute.POST replying_gateway
                      (Body (Str nul_message) (Str "s1")) initial))
              unexpected)
    as [rq Hin].
  - discriminate.
  - reflexivity.
  - reflexivity.
  - vm_compute. reflexivity.
  - vm_compute in Hin.
    destruct Hin as [Hin|[Hin|[Hin|[]]]]; discriminate.
Qed.

(** C6, amended.  With a configured gateway, once the conversation is
    resolved and the store accepts the user turn, the user turn is written
    before the history is read, so the history handed to the gateway ends
    with the current message; the gateway appends the same utterance as the
    final user turn, so the request sent to the provider ends with the
    current message twice: once as the last entry of the history window (of
    at most 10 entries), once as the last turn. *)
Theorem current_message_sent_twice (env : Env) (request : RequestBody)
    (message : string) (sessionId : option string) (w w1 : World)
    (c : Conversation.t) :
  wf (store w) ->
  request <> Malformed ->
  MessageRoute.messageSchema_safeParse request = inr (message, sessionId) ->
  MessageRoute.getOrCreateConversation env sessionId w = (Returned c, w1) ->
  encodes (engine (store w1)) message = true ->
  isConfigured (getLLMService env) = true ->
  exists older window r w' rest,
    MessageRoute.POST env request w = (Returned r, w')
    /\ trace w'
       = trace w1
           ++ MessageCreate (Conversation.id c) USER message
           :: MessageFindMany (Conversation.id c)
           :: ChatCompletionsCreate (request_for env c message (store w1))
           :: rest
    /\ history_after_user env c message (store w1)
       = older ++ [ {| sender := "USER"; text := message |} ]
    /\ rq_messages (request_for env c message (store w1))
       = {| role := system; content := SYSTEM_PROMPT |}
           :: window
           ++ [ {| role := assistant; content := message |};
                {| role := user; content := message |} ]
    /\ List.length window <= 9.
Proof.
  intros Hwf Hm Hp Hg Henc Hc.
  pose proof (getOrCreate_returned env w sessionId c w1 Hg) as (Hex & _ & _).
  pose proof (wf_after_getOrCreate env sessionId w w1 c Hwf Hg) as Hwf1.
  assert (history_after_user env c message (store w1)
          = map select_sender_text (messages_of (store w1) (Conversation.id c))
              ++ [ {| sender := "USER"; text := message |} ]) as Hh.
  { unfold history_after_user.
    rewrite messages_of_after_write by exact Hwf1.
    now rewrite map_app. }
  exists (map select_sender_text (messages_of (store w1) (Conversation.id c))),
         (slice_last 9 (formatHistory
                          (map select_sender_text
                               (messages_of (store w1) (Conversation.id c))))).
  assert (rq_messages (request_for env c message (store w1))
          = {| role := system; content := SYSTEM_PROMPT |}
              :: slice_last 9 (formatHistory
                                 (map select_sender_text
                                      (messages_of (store w1) (Conversation.id c))))
              ++ [ {| role := assistant; content := message |};
                   {| role := user; content := message |} ]) as Hrq.
  { unfold request_for, build_request. rewrite Hh. simpl.
    unfold formatHistory at 1. rewrite map_app. simpl.
    rewrite slice_last_snoc, <- app_assoc. reflexivity. }
  assert (List.length
            (slice_last 9 (formatHistory
                             (map select_sender_text
                                  (messages_of (store w1) (Conversation.id c))))) <= 9)
    as Hlen by (rewrite slice_last_length; lia).
  destruct (replyTo_path env c message w1 Hex) as (o & w2 & Hr & Hpath).
  rewrite (POST_resolved env request message sessionId w w1 w2 c o Hm Hp Hg Hr).
  inversion Hpath; subst; try congruence.
  - eexists _, _, []. repeat split; [exact Hh|exact Hrq|exact Hlen].
  - eexists _, _, [_; _]. repeat split; [exact Hh|exact Hrq|exact Hlen].
  - eexists _, _, [_]. repeat split; [exact Hh|exact Hrq|exact Hlen].
Qed.

(** ** Session resolution *)

Lemma existsb_has_sessionId_true (sessionId : string) (l : list Conversation.t) :
  existsb (has_sessionId sessionId) l = true ->
  In sessionId (map Conversation.sessionId l).
Proof.
  intros H. apply existsb_exists in H as (c & Hin & Hc).
  apply String.eqb_eq in Hc. rewrite <- Hc. now apply in_map.
Qed.

Lemma touch_tokens (id now : nat) (l : list Conversation.t) :
  map Conversation.sessionId (map (set_updatedAt id now) l)
  = map Conversation.sessionId l.
Proof.
  rewrite map_map. apply map_ext. intros c. apply set_updatedAt_sessionId.
Qed.

(** After the resolution no conversation is created or renamed, the write
    of the user turn is issued, and a success carries the token of the
    resolved conversation. *)
Lemma reply_path_tokens (env : Env) (c : Conversation.t) (message : string)
    (w1 w2 : World) (o : Outcome Response) :
  reply_path env c message w1 o w2 ->
  map Conversation.sessionId (conversations (store w2))
  = map Conversation.sessionId (conversations (store w1))
  /\ In (MessageCreate (Conversation.id c) USER message) (trace w2)
  /\ (forall r, o = Returned r -> status r = 200 ->
      exists reply,
        r = NextResponse_json (ReplyBody reply (Conversation.sessionId c)) 200).
Proof.
  intros H.
  assert (forall l rest,
             In (MessageCreate (Conversation.id c) USER message)
                (l ++ MessageCreate (Conversation.id c) USER message :: rest))
    as Hin by (intros; apply in_or_app; right; now left).
  inversion H; subst; (split; [try apply touch_tokens; reflexivity|]);
    (split; [apply Hin|]); intros r [= <-]; simpl; try discriminate; eauto.
Qed.

Lemma replyTo_tokens (env : Env) (c : Conversation.t) (message : string)
    (w1 w2 : World) (r : Response) :
  existsb (has_id (Conversation.id c)) (conversations (store w1)) = true ->
  MessageRoute.replyTo env c message w1 = (Returned r, w2) ->
  map Conversation.sessionId (conversations (store w2))
  = map Conversation.sessionId (conversations (store w1))
  /\ (status r = 200 ->
      exists reply,
        r = NextResponse_json (ReplyBody reply (Conversation.sessionId c)) 200).
Proof.
  intros Hex Hr.
  destruct (replyTo_path env c message w1 Hex) as (o & w0 & Hrun & H).
  rewrite Hr in Hrun. injection Hrun as <- <-.
  destruct (reply_path_tokens _ _ _ _ _ _ H) as (Hsame & _ & Hok).
  split; [exact Hsame|]. now apply Hok.
Qed.

(** A request that passes validation: the resolution ends in one of its
    ways and, when it returns a conversation, [replyTo] in one of its. *)
Lemma handled_parsed (env : Env) (request : RequestBody) (message : string)
    (sessionId : option string) (w w' : World) (r : Response) :
  request <> Malformed ->
  MessageRoute.messageSchema_safeParse request = inr (message, sessionId) ->
  handled env request w r w' ->
  exists o w1,
    resolution env sessionId w o w1
    /\ match o with
       | Thrown _ => r = unexpected /\ w' = w1
       | Returned c =>
           exists o2,
             reply_path env c message w1 o2 w'
             /\ r = match o2 with Returned r0 => r0 | Thrown _ => unexpected end
       end.
Proof.
  intros Hm Hp H.
  inversion H as [Hb|issue Hb Hi|m s e w1 Hb Hq Hres
                  |m s c w1 e w2 Hb Hq Hres Hpath
                  |m s c w1 r0 w2 Hb Hq Hres Hpath]; subst;
    try congruence;
    rewrite Hp in Hq; injection Hq as <- <-;
    eexists _, _; (split; [exact Hres|]); cbv beta iota; eauto.
Qed.



(** ** The timestamp update *)

(** When the gateway replies, "Update conversation timestamp" is the last
    call of the request and the conversation is dated at the clock. *)
Lemma reply_path_updates_last (env : Env) (c : Conversation.t) (message : string)
    (w1 : World) :
  existsb (has_id (Conversation.id c)) (conversations (store w1)) = true ->
  encodes (engine (store w1)) message = true ->
  isConfigured (getLLMService env) = true ->
  error (interpret_outcome (provider env (request_for env c message (store w1))))
  = None ->
  encodes (engine (store w1))
          (reply (interpret_outcome
                    (provider env (request_for env c message (store w1)))))
  = true ->
  exists r w2 calls,
    MessageRoute.replyTo env c message w1 = (Returned r, w2)
    /\ trace w2 = calls ++ [ConversationUpdate (Conversation.id c)]
    /\ Forall (fun c' => Conversation.id c' = Conversation.id c ->
                         Conversation.updatedAt c' = clock (store w2))
              (conversations (store w2)).
Proof.
  intros Hex Hm Hc He Ha.
  rewrite (replyTo_reply env c message w1 Hex Hm Hc He Ha).
  eexists _, _, (trace w1 ++ [_; _; _; _]). split; [reflexivity|]. split.
  - simpl. rewrite <- app_assoc. reflexivity.
  - simpl. apply Forall_map. apply Forall_forall. intros c' _ Hid.
    rewrite set_updatedAt_id in Hid.
    unfold set_updatedAt, has_id. apply Nat.eqb_eq in Hid. now rewrite Hid.
Qed.

(** Without a credential the handler returns right after storing the
    fallback turn: no conversation row changes after the resolution and no
    update is issued. *)
Lemma fallback_path_never_updates (env : Env) (c : Conversation.t)
    (message : string) (w1 : World) :
  existsb (has_id (Conversation.id c)) (conversations (store w1)) = true ->
  encodes (engine (store w1)) message = true ->
  isConfigured (getLLMService env) = false ->
  encodes (engine (store w1)) MessageRoute.fallbackReply = true ->
  exists r w2,
    MessageRoute.replyTo env c message w1 = (Returned r, w2)
    /\ conversations (store w2) = conversations (store w1)
    /\ trace w2
       = trace w1 ++ [ MessageCreate (Conversation.id c) USER message;
                       MessageFindMany (Conversation.id c);
                       MessageCreate (Conversation.id c) AI MessageRoute.fallbackReply ].
Proof.
  intros Hex Hm Hc Hf. rewrite (replyTo_fallback env c message w1 Hex Hm Hc Hf).
  eexists _, _. repeat split.
Qed.

(** C2, at a failing input.  A second message in session ["s1"], still
    without a credential, stores the fallback turn at time 5 and answers
    with it, but the conversation keeps the update time 1 it was created
    with: the last call of the request is the write of the assistant turn,
    and no update of the conversation is issued. *)
Theorem fallback_turn_does_not_bump :
  MessageRoute.POST no_credential (Body (Str "again") (Str "s1")) one_conversation
  = (Returned (NextResponse_json (ReplyBody MessageRoute.fallbackReply "s1") 200),
     {| store :=
          {| conversations :=
               [ {| Conversation.id := 0;
                    Conversation.sessionId := "s1";
                    Conversation.createdAt := 1;
                    Conversation.updatedAt := 1 |} ];
             messages :=
               messages (store one_conversation)
               ++ [ {| Message.id := 3;
                       Message.conversationId := 0;
                       Message.sender := USER;
                       Message.text := "again";
                       Message.timestamp := 4 |};
                    {| Message.id := 4;
                       Message.conversationId := 0;
                       Message.sender := AI;
                       Message.text := MessageRoute.fallbackReply;
                       Message.timestamp := 5 |} ];
             next_id := 5;
             clock := 5;
             engine := postgres |};
        trace :=
          trace one_conversation
          ++ [ ConversationFindUnique "s1";
               MessageCreate 0 USER "again";
               MessageFindMany 0;
               MessageCreate 0 AI MessageRoute.fallbackReply ] |}).
Proof. reflexivity. Qed.

(** ** The conversations route *)

(** Rows already in ascending order are read in insertion order. *)
Lemma orderBy_asc_sorted_id {A} (key : A -> nat) (l : list A) :
  StronglySorted (ascending key) l -> orderBy_asc key l = l.
Proof.
  unfold orderBy_asc.
  induction 1 as [|x l Hs IH Hall]; simpl; [reflexivity|].
  rewrite IH. destruct l as [|y l']; simpl; [reflexivity|].
  inversion Hall as [|? ? Hxy _]; subst. unfold ascending in Hxy.
  apply Nat.leb_le in Hxy. now rewrite Hxy.
Qed.

Lemma summary_entry_of (s : Store) (c : Conversation.t) :
  entry_of s c (ConversationsRoute.summary (include_first_and_count s c)).
Proof.
  unfold entry_of, ConversationsRoute.summary, include_first_and_count; simpl.
  repeat split.
  unfold messages_of.
  destruct (filter (belongs_to (Conversation.id c)) (messages s)) as [|m0 own] eqn:E.
  - reflexivity.
  - destruct (orderBy_asc Message.timestamp (m0 :: own)) as [|m sorted] eqn:Es.
    + apply orderBy_asc_nil in Es. discriminate.
    + exists m.
      destruct (orderBy_asc_head_min Message.timestamp (m0 :: own) m) as [Hin Hmin];
        [now rewrite Es|].
      repeat split; assumption.
Qed.

Lemma conversations_GET_run (w : World) :
  ConversationsRoute.GET w
  = (Returned
       (NextResponse_json
          (ConversationsBody
             (map ConversationsRoute.summary
                  (map (include_first_and_count (store w))
                       (orderBy_desc Conversation.updatedAt
                                     (conversations (store w))))))
          200),
     log ConversationFindMany w).
Proof. reflexivity. Qed.

(** The listing has one entry per conversation, most recently updated
    first, each with the number of its messages and the text of an
    earliest one. *)
Lemma listing_general (w : World) :
  exists ordered entries,
    ConversationsRoute.GET w
    = (Returned (NextResponse_json (ConversationsBody entries) 200),
       log ConversationFindMany w)
    /\ Permutation (conversations (store w)) ordered
    /\ StronglySorted (descending Conversation.updatedAt) ordered
    /\ Forall2 (entry_of (store w)) ordered entries.
Proof.
  exists (orderBy_desc Conversation.updatedAt (conversations (store w))).
  eexists. split; [apply conversations_GET_run|].
  split; [apply orderBy_desc_perm|].
  split; [apply orderBy_desc_sorted|].
  induction (orderBy_desc Conversation.updatedAt (conversations (store w)))
    as [|c l IH]; simpl; constructor.
  - apply summary_entry_of.
  - exact IH.
Qed.

Lemma parse_valid (message s : string) :
  1 <= String.length message <= 2000 ->
  MessageRoute.messageSchema_safeParse (Body (Str message) (Str s))
  = inr (message, Some s).
Proof.
  intros Hlen.
  unfold MessageRoute.messageSchema_safeParse, MessageRoute.parse_message,
    MessageRoute.MAX_MESSAGE_LENGTH.
  destruct (String.length message <? 1) eqn:E1;
    [apply Nat.ltb_lt in E1; lia|].
  destruct (2000 <? String.length message) eqn:E2;
    [apply Nat.ltb_lt in E2; lia|reflexivity].
Qed.

(** Time that passes without a write. *)
Lemma advance_write_message (dt conversationId : nat) (sender : Sender)
    (text : string) (s : Store) :
  write_message dt conversationId sender text s
  = advance 0 (write_message dt conversationId sender text s).
Proof.
  unfold write_message, insert_message, advance; simpl. f_equal. lia.
Qed.

(** The store after a valid message sent under a non-empty token that the
    store accepts, when the store accepts the message too: the
    conversation is the matched one or a new one under that token, the user
    turn is written, and then either nothing more is written (the gateway
    failed, or the store refused the assistant turn), or the assistant turn
    is written (and the timestamp updated when the gateway replied). *)
Lemma POST_supplied_store (env : Env) (message s : string) (w w' : World)
    (r : Response) :
  1 <= String.length message <= 2000 ->
  truthy s = true ->
  encodes (engine (store w)) s = true ->
  fits_index (engine (store w)) s = true ->
  encodes (engine (store w)) message = true ->
  MessageRoute.POST env (Body (Str message) (Str s)) w = (Returned r, w') ->
  engine (store w') = engine (store w)
  /\ exists c s1,
    match find (has_sessionId s) (conversations (store w)) with
    | Some c0 => c = c0 /\ s1 = store w
    | None =>
        c = new_conversation (advance (dt_conversation env) (store w)) s
        /\ s1 = write_conversation (dt_conversation env) s (store w)
    end
    /\ ((answered r = 0
         /\ exists k,
             store w'
             = advance k (write_message (dt_user env) (Conversation.id c)
                                        USER message s1))
        \/ (answered r = 1
            /\ exists reply,
              truthy reply = true
              /\ (store w'
                  = write_message (dt_assistant env) (Conversation.id c) AI reply
                      (write_message (dt_user env) (Conversation.id c) USER message s1)
                  \/ store w'
                     = bump (dt_update env) (Conversation.id c)
                         (write_message (dt_assistant env) (Conversation.id c) AI reply
                            (write_message (dt_user env) (Conversation.id c)
                                           USER message s1))))).
Proof.
  intros Hlen Ht He Hi Hm Hrun.
  destruct (POST_handled env (Body (Str message) (Str s)) w) as (r0 & w0 & Hrun0 & H).
  rewrite Hrun in Hrun0. injection Hrun0 as <- <-.
  destruct (handled_parsed env (Body (Str message) (Str s)) message (Some s) w w' r)
    as (o & w1 & Hres & Hrest);
    [discriminate|now apply parse_valid|exact H|].
  assert (exists c,
             o = Returned c
             /\ engine (store w1) = engine (store w)
             /\ match find (has_sessionId s) (conversations (store w)) with
                | Some c0 => c = c0 /\ store w1 = store w
                | None =>
                    c = new_conversation (advance (dt_conversation env) (store w)) s
                    /\ store w1 = write_conversation (dt_conversation env) s (store w)
                end) as (c & -> & Heng & Hshape).
  { inversion Hres as [s0 Hs Ht0 He0|s0 c0 Hs Ht0 He0 Hf|s0 Hs Ht0 He0 Hf Hi0
                       |s0 Hs Ht0 He0 Hf Hi0|Ht0 Hf|e Ht0 Hf]; subst;
      try (injection Hs as <-); try congruence;
      try (simpl in Ht0; congruence).
    - eexists. split; [reflexivity|]. rewrite Hf. repeat split.
    - eexists. split; [reflexivity|]. rewrite Hf. repeat split. }
  destruct Hrest as (o2 & Hpath & ->).
  rewrite <- Heng in Hm.
  assert (engine (store w') = engine (store w1)
          /\ ((answered match o2 with Returned r0 => r0 | Thrown _ => unexpected end = 0
               /\ exists k,
                   store w'
                   = advance k (write_message (dt_user env) (Conversation.id c)
                                              USER message (store w1)))
              \/ (answered match o2 with Returned r0 => r0 | Thrown _ => unexpected end
                  = 1
                  /\ exists reply,
                    truthy reply = true
                    /\ (store w'
                        = write_message (dt_assistant env) (Conversation.id c) AI reply
                            (write_message (dt_user env) (Conversation.id c)
                                           USER message (store w1))
                        \/ store w'
                           = bump (dt_update env) (Conversation.id c)
                               (write_message (dt_assistant env) (Conversation.id c)
                                  AI reply
                                  (write_message (dt_user env) (Conversation.id c)
                                                 USER message (store w1)))))))
    as [Heng' Hstore].
  { inversion Hpath as [Hr|Hm' Hc Hf|Hm' Hc Hf|e Hm' Hc He'|Hm' Hc He' Ha
                        |Hm' Hc He' Ha]; subst; try congruence;
      (split; [reflexivity|]).
    - right. split; [reflexivity|]. eexists. split; [|left; reflexivity].
      reflexivity.
    - left. split; [reflexivity|]. eexists. reflexivity.
    - left. split; [reflexivity|]. exists 0. apply advance_write_message.
    - right. split; [reflexivity|]. eexists. split; [|right; reflexivity].
      now apply interpret_outcome_reply_truthy.
    - left. split; [reflexivity|]. eexists. reflexivity. }
  split; [congruence|].
  exists c, (store w1). split.
  { destruct (find _ _); destruct Hshape as [-> ->]; split; reflexivity. }
  exact Hstore.
Qed.

Ltac decide_order :=
  match goal with
  | |- context [if ?a <=? ?b then _ else _] =>
      let L := fresh "L" in
      destruct (a <=? b) eqn:L; [apply Nat.leb_le in L; simpl in L; lia|]
  end.

(** C8, as worded, fails: every answered send stores two messages, the
    user turn and the assistant turn, and the listing counts both.  With
    three answered sends the counts are 2 and 4. *)
Lemma listing_counts_both_turns : ~ listing_counts_1_and_2.
Proof.
  intros H.
  assert (MessageRoute.POST no_credential (Body (Str "a") (Str "s1")) initial
          = (Returned (fallback_answer "s1"), send "a" "s1" initial))
    as P1 by (vm_compute; reflexivity).
  assert (MessageRoute.POST no_credential (Body (Str "b") (Str "s1"))
                            (send "a" "s1" initial)
          = (Returned (fallback_answer "s1"), send "b" "s1" (send "a" "s1" initial)))
    as P2 by (vm_compute; reflexivity).
  assert (MessageRoute.POST no_credential (Body (Str "c") (Str "s2"))
                            (send "b" "s1" (send "a" "s1" initial))
          = (Returned (fallback_answer "s2"),
             send "c" "s2" (send "b" "s1" (send "a" "s1" initial))))
    as P3 by (vm_compute; reflexivity).
  assert (1 <= String.length "a" <= 2000) as L1 by (simpl; lia).
  assert (0 < dt_conversation no_credential) as L2 by (simpl; lia).
  destruct (H no_credential no_credential no_credential "a" "b" "c" _ _ _ _ _ _
              L1 L1 L1 L2 P1 P2 P3)
    as (a & b & Heq & _ & Ha & _).
  vm_compute in Heq. injection Heq as <- _. discriminate.
Qed.

(** The three writes, and the passing of time, on a store given by its
    fields. *)
Lemma write_message_mk (dt cid : nat) (sd : Sender) (txt : string)
    (cs : list Conversation.t) (ms : list Message.t) (n t : nat) (e : Engine) :
  write_message dt cid sd txt (mkStore cs ms n t e)
  = mkStore cs (ms ++ [Message.mk n cid sd txt (t + dt)]) (S n) (t + dt) e.
Proof. reflexivity. Qed.

Lemma write_conversation_mk (dt : nat) (sid : string)
    (cs : list Conversation.t) (ms : list Message.t) (n t : nat) (e : Engine) :
  write_conversation dt sid (mkStore cs ms n t e)
  = mkStore (cs ++ [Conversation.mk n sid (t + dt) (t + dt)]) ms (S n) (t + dt) e.
Proof. reflexivity. Qed.

Lemma bump_mk (dt id : nat)
    (cs : list Conversation.t) (ms : list Message.t) (n t : nat) (e : Engine) :
  bump dt id (mkStore cs ms n t e)
  = mkStore (map (set_updatedAt id (t + dt)) cs) ms n (t + dt) e.
Proof. reflexivity. Qed.

Lemma advance_mk (dt : nat)
    (cs : list Conversation.t) (ms : list Message.t) (n t : nat) (e : Engine) :
  advance dt (mkStore cs ms n t e) = mkStore cs ms n (t + dt) e.
Proof. reflexivity. Qed.

Lemma new_conversation_id (s : Store) (sid : string) :
  Conversation.id (new_conversation s sid) = next_id s.
Proof. reflexivity. Qed.

Ltac normalize_store H :=
  rewrite ?new_conversation_id in H;
  cbn [next_id advance] in H;
  rewrite ?write_conversation_mk, ?write_message_mk, ?bump_mk, ?advance_mk in H;
  cbn [app map set_updatedAt has_id Nat.eqb Conversation.id
       Conversation.sessionId Conversation.createdAt] in H.

(** C8, amended.  The listing takes no parameter and has one entry per
    conversation, most recently updated first; each entry carries the
    number of messages of its conversation, user and assistant turns
    alike, and the text of an earliest one (or "New conversation" when
    there is none or its text is empty).  From the empty store, after two
    messages sent in session ["s1"] then one in session ["s2"], created at
    a later time, all three accepted by the store, the listing shows
    ["s2"] before ["s1"]; the count of ["s2"] is 1 plus 1 if its send was
    answered, the count of ["s1"] is 2 plus the number of its sends that
    were answered: 2 and 4 when every send is answered. *)
Theorem conversations_listing :
  (forall w : World,
      exists ordered entries,
        ConversationsRoute.GET w
        = (Returned (NextResponse_json (ConversationsBody entries) 200),
           log ConversationFindMany w)
        /\ Permutation (conversations (store w)) ordered
        /\ StronglySorted (descending Conversation.updatedAt) ordered
        /\ Forall2 (entry_of (store w)) ordered entries)
  /\
  (forall (e1 e2 e3 : Env) (m1 m2 m3 : string) (r1 r2 r3 : Response)
          (w1 w2 w3 : World),
      1 <= String.length m1 <= 2000 ->
      1 <= String.length m2 <= 2000 ->
      1 <= String.length m3 <= 2000 ->
      encodes (engine (store initial)) m1 = true ->
      encodes (engine (store initial)) m2 = true ->
      encodes (engine (store initial)) m3 = true ->
      0 < dt_conversation e3 ->
      MessageRoute.POST e1 (Body (Str m1) (Str "s1")) initial = (Returned r1, w1) ->
      MessageRoute.POST e2 (Body (Str m2) (Str "s1")) w1 = (Returned r2, w2) ->
      MessageRoute.POST e3 (Body (Str m3) (Str "s2")) w2 = (Returned r3, w3) ->
      exists a b,
        fst (ConversationsRoute.GET w3)
        = Returned (NextResponse_json (ConversationsBody [a; b]) 200)
        /\ ConversationSummary.sessionId a = "s2"
        /\ ConversationSummary.messageCount a = 1 + answered r3
        /\ ConversationSummary.firstMessage a = m3
        /\ ConversationSummary.sessionId b = "s1"
        /\ ConversationSummary.messageCount b = 2 + answered r1 + answered r2
        /\ ConversationSummary.firstMessage b = m1
        /\ (answered r1 = 1 -> answered r2 = 1 -> answered r3 = 1 ->
            ConversationSummary.messageCount a = 2
            /\ ConversationSummary.messageCount b = 4)).
Proof.
  split; [exact listing_general|].
  intros e1 e2 e3 m1 m2 m3 r1 r2 r3 w1 w2 w3 H1 H2 H3 N1 N2 N3 Hdt P1 P2 P3.
  assert (truthy m1 = true) as T1 by (apply truthy_length; lia).
  assert (truthy m3 = true) as T3 by (apply truthy_length; lia).
  apply POST_supplied_store in P1 as (G1 & c1 & s1 & Hc1 & Hs1);
    [|assumption|reflexivity|reflexivity|reflexivity|assumption].
  simpl in Hc1. destruct Hc1 as [-> ->]. unfold empty_store, fresh in Hs1.
  normalize_store Hs1.
  apply POST_supplied_store in P2 as (G2 & c2 & s2 & Hc2 & Hs2);
    [|assumption|reflexivity|rewrite G1; reflexivity|rewrite G1; reflexivity
     |rewrite G1; assumption].
  rewrite G1 in G2.
  apply POST_supplied_store in P3 as (G3 & c3 & s3 & Hc3 & Hs3);
    [|assumption|reflexivity|rewrite G2; reflexivity|rewrite G2; reflexivity
     |rewrite G2; assumption].
  clear G1 G2 G3 N1 N2 N3.
  destruct Hs1 as [[A1 (k1 & E1)]|[A1 (y1 & Y1 & [E1|E1])]]; rewrite E1 in *;
    simpl in Hc2; destruct Hc2 as [-> ->]; normalize_store Hs2.
  all: destruct Hs2 as [[A2 (k2 & E2)]|[A2 (y2 & Y2 & [E2|E2])]]; rewrite E2 in *;
    simpl in Hc3; destruct Hc3 as [-> ->]; normalize_store Hs3;
    destruct Hs3 as [[A3 (k3 & E3)]|[A3 (y3 & Y3 & [E3|E3])]];
    rewrite conversations_GET_run; simpl fst; rewrite E3, A1, A2, A3.
  all: clear E1 E2 E3 w1 w2 w3.
  all: simpl; decide_order;
    eexists _, _; (split; [reflexivity|]);
    unfold ConversationsRoute.summary, include_first_and_count, messages_of; simpl;
    rewrite ?orderBy_asc_sorted_id
      by (repeat constructor; unfold ascending; simpl; lia);
    simpl; rewrite T1, T3; clear; repeat split; intros; discriminate.
Qed.

(** ** Reachable worlds *)

Lemma history_GET_store (sessionId : option string) (w : World) :
  store (snd (HistoryRoute.GET sessionId w)) = store w.
Proof.
  destruct sessionId as [s|]; [|reflexivity].
  destruct (truthy s) eqn:Ht.
  - destruct (encodes (engine (store w)) s) eqn:He.
    + now rewrite (history_GET_run s w Ht He).
    + now rewrite (history_GET_refused s w Ht He).
  - destruct s; [reflexivity|discriminate].
Qed.

(** Every call keeps the invariant, whether it returns or throws. *)
Lemma wf_issue (dt : nat) (call : Effect) (w : World) :
  issuable call -> wf (store w) -> wf (store (issue dt call w)).
Proof.
  intros Hc Hw. destruct call; simpl in *.
  - now apply preserves_conversation_findUnique.
  - now apply preserves_conversation_create.
  - now apply preserves_conversation_update.
  - exact Hw.
  - now apply preserves_message_create.
  - exact Hw.
  - exact Hw.
Qed.

(** The invariant holds in every world the calls of the handlers can
    produce, in whatever order they are issued. *)
Lemma reachable_wf (w : World) : reachable w -> wf (store w).
Proof.
  induction 1 as [e|dt call w Hc Hr IH].
  - apply wf_fresh.
  - now apply wf_issue.
Qed.

Lemma reachable_initial : reachable initial.
Proof. apply reachable_fresh. Qed.

(** The handlers are made of such calls. *)
Lemma keeps_conversation_findUnique (sessionId : string) :
  keeps reachable (conversation_findUnique sessionId).
Proof.
  intros w H. now apply (reachable_issue 0 (ConversationFindUnique sessionId)).
Qed.

Lemma keeps_conversation_findUnique_with_messages (sessionId : string) :
  keeps reachable (conversation_findUnique_with_messages sessionId).
Proof.
  intros w H.
  replace (snd (conversation_findUnique_with_messages sessionId w))
    with (issue 0 (ConversationFindUnique sessionId) w).
  - now apply reachable_issue.
  - unfold issue, conversation_findUnique, conversation_findUnique_with_messages.
    now destruct (encodes _ _).
Qed.

Lemma keeps_conversation_create (dt : nat) (sessionId : string) :
  sessionId <> EmptyString -> keeps reachable (conversation_create dt sessionId).
Proof.
  intros Hne w H. now apply (reachable_issue dt (ConversationCreate sessionId)).
Qed.

Lemma keeps_conversation_update (dt id : nat) :
  keeps reachable (conversation_update dt id).
Proof. intros w H. now apply (reachable_issue dt (ConversationUpdate id)). Qed.

Lemma keeps_conversation_findMany : keeps reachable conversation_findMany.
Proof. intros w H. now apply (reachable_issue 0 ConversationFindMany). Qed.

Lemma keeps_message_create (dt conversationId : nat) (sender : Sender)
    (text : string) :
  keeps reachable (message_create dt conversationId sender text).
Proof.
  intros w H.
  now apply (reachable_issue dt (MessageCreate conversationId sender text)).
Qed.

Lemma keeps_message_findMany (conversationId : nat) :
  keeps reachable (message_findMany conversationId).
Proof. intros w H. now apply (reachable_issue 0 (MessageFindMany conversationId)). Qed.

Lemma keeps_generateReply (this : LLMService) (history : list Turn)
    (userMessage : string) :
  keeps reachable (generateReply this history userMessage).
Proof.
  intros w H. unfold generateReply.
  destruct (client this); [|exact H].
  now apply (reachable_issue 0 (ChatCompletionsCreate _)).
Qed.

Lemma keeps_getOrCreateConversation (env : Env) (sessionId : option string) :
  keeps reachable (MessageRoute.getOrCreateConversation env sessionId).
Proof.
  unfold MessageRoute.getOrCreateConversation.
  apply keeps_bind.
  - destruct sessionId as [s|]; [destruct (truthy s)|];
      auto using keeps_conversation_findUnique, keeps_ret.
  - intros [c|]; [apply keeps_ret|].
    apply keeps_conversation_create.
    apply truthy_nonempty, newSessionId_truthy.
Qed.

Lemma keeps_saveReply (env : Env) (c : Conversation.t) (reply : string) :
  keeps reachable (MessageRoute.saveReply env c reply).
Proof.
  unfold MessageRoute.saveReply.
  apply keeps_bind; [apply keeps_message_create|intros _].
  apply keeps_bind; [apply keeps_conversation_update|intros _].
  apply keeps_ret.
Qed.

Lemma keeps_replyTo (env : Env) (c : Conversation.t) (message : string) :
  keeps reachable (MessageRoute.replyTo env c message).
Proof.
  unfold MessageRoute.replyTo.
  apply keeps_bind; [apply keeps_message_create|intros _].
  apply keeps_bind; [apply keeps_message_findMany|intros history].
  destruct (negb _).
  - apply keeps_bind; [apply keeps_message_create|intros _]. apply keeps_ret.
  - apply keeps_bind; [apply keeps_generateReply|intros result].
    destruct (error result) as [e|]; [destruct (truthy e)|];
      auto using keeps_saveReply, keeps_ret.
Qed.

(** Each route leads from a reachable world to a reachable world. *)
Lemma reachable_POST (env : Env) (request : RequestBody) (w : World) :
  reachable w -> reachable (snd (MessageRoute.POST env request w)).
Proof.
  revert w. change (keeps reachable (MessageRoute.POST env request)).
  unfold MessageRoute.POST.
  apply keeps_try_catch; [|intros _; apply keeps_ret].
  apply keeps_bind.
  - destruct request; simpl; auto using keeps_ret, keeps_throw.
  - intros body.
    destruct (MessageRoute.messageSchema_safeParse body) as [issue|[message sessionId]];
      [apply keeps_ret|].
    apply keeps_bind; [apply keeps_getOrCreateConversation|].
    intros c. apply keeps_replyTo.
Qed.

Lemma reachable_history (sessionId : option string) (w : World) :
  reachable w -> reachable (snd (HistoryRoute.GET sessionId w)).
Proof.
  revert w. change (keeps reachable (HistoryRoute.GET sessionId)).
  unfold HistoryRoute.GET.
  apply keeps_try_catch; [|intros _; apply keeps_ret].
  destruct (HistoryRoute.historySchema_safeParse sessionId) as [issue|s];
    [apply keeps_ret|].
  apply keeps_bind; [apply keeps_conversation_findUnique_with_messages|].
  intros [[c msgs]|]; apply keeps_ret.
Qed.

Lemma reachable_conversations (w : World) :
  reachable w -> reachable (snd (ConversationsRoute.GET w)).
Proof.
  revert w. change (keeps reachable ConversationsRoute.GET).
  unfold ConversationsRoute.GET.
  apply keeps_try_catch; [|intros _; apply keeps_ret].
  apply keeps_bind; [apply keeps_conversation_findMany|].
  intros l. apply keeps_ret.
Qed.

(** Requests handled one at a time stay within the reachable worlds. *)
Lemma sequential_reachable (w : World) : sequential w -> reachable w.
Proof.
  induction 1 as [e|env request w Hs IH|sessionId w Hs IH|w Hs IH].
  - apply reachable_fresh.
  - now apply reachable_POST.
  - now apply reachable_history.
  - now apply reachable_conversations.
Qed.

Lemma sequential_initial : sequential initial.
Proof. apply sequential_fresh. Qed.

(** ** The shape of the answers *)

Lemma parse_acceptable (request : RequestBody) :
  (exists data, MessageRoute.messageSchema_safeParse request = inr data)
  <-> acceptable request.
Proof.
  split.
  - intros [data Hp]. destruct request as [| |m s]; try discriminate.
    unfold MessageRoute.messageSchema_safeParse, MessageRoute.parse_message,
      MessageRoute.MAX_MESSAGE_LENGTH in Hp.
    destruct m as [| | | |t|]; try discriminate.
    destruct (String.length t <? 1) eqn:E1; [discriminate|].
    destruct (2000 <? String.length t) eqn:E2; [discriminate|].
    apply Nat.ltb_ge in E1, E2.
    exists t, s. split; [reflexivity|]. split; [lia|].
    destruct s; try discriminate; [now left|right; eauto].
  - intros (t & s & -> & Hlen & Hs).
    destruct Hs as [->|[x ->]]; eexists.
    + unfold MessageRoute.messageSchema_safeParse, MessageRoute.parse_message,
        MessageRoute.MAX_MESSAGE_LENGTH.
      destruct (String.length t <? 1) eqn:E1; [apply Nat.ltb_lt in E1; lia|].
      destruct (2000 <? String.length t) eqn:E2; [apply Nat.ltb_lt in E2; lia|].
      reflexivity.
    + now apply parse_valid.
Qed.

(** X1. Every message request is answered, in one of three shapes: status
    200 with a non-empty reply and a non-empty session token, status 400
    with a validation issue, or status 500 with a non-empty sentence. *)
Theorem POST_response_shape (env : Env) (request : RequestBody) (w : World) :
  exists r w',
    MessageRoute.POST env request w = (Returned r, w')
    /\ ((status r = 200
         /\ exists reply token,
             body r = ReplyBody reply token
             /\ reply <> EmptyString /\ token <> EmptyString)
        \/ (status r = 400 /\ exists issue, body r = ErrorBody issue)
        \/ (status r = 500
            /\ exists sentence,
                body r = ErrorBody (Sentence sentence) /\ sentence <> EmptyString)).
Proof.
  destruct (POST_handled env request w) as (r & w' & Hrun & H).
  exists r, w'. split; [exact Hrun|].
  inversion H as [Hm|issue Hm Hp|message sessionId e w1 Hm Hp Hres
                  |message sessionId c w1 e w2 Hm Hp Hres Hpath
                  |message sessionId c w1 r0 w2 Hm Hp Hres Hpath]; subst.
  - right. right. split; [reflexivity|]. eexists. split; [reflexivity|].
    now apply truthy_nonempty.
  - right. left. split; [reflexivity|]. eexists. reflexivity.
  - right. right. split; [reflexivity|]. eexists. split; [reflexivity|].
    now apply truthy_nonempty.
  - right. right. split; [reflexivity|]. eexists. split; [reflexivity|].
    now apply truthy_nonempty.
  - apply resolution_returned in Hres as (_ & Htok & _).
    destruct (reply_path_status _ _ _ _ _ _ Hpath)
      as [(Hs & reply & Hb & Ht)|(Hs & sentence & Hb & Ht)].
    + left. split; [exact Hs|]. exists reply, (Conversation.sessionId c).
      split; [exact Hb|]. split; [now apply truthy_nonempty|].
      rewrite Htok. apply truthy_nonempty, newSessionId_truthy.
    + right. right. split; [exact Hs|]. exists sentence.
      split; [exact Hb|]. now apply truthy_nonempty.
Qed.

(** X2. A request is answered with status 400 exactly when its body is JSON
    that the schema refuses: not an object, a message that is not a string
    of 1 to 2000 characters, or a session field that is present and not a
    string.  A refused body and a body that is not JSON (answered with the
    generic status 500) leave the world as it was. *)
Theorem POST_refusal (env : Env) (request : RequestBody) (w : World) :
  exists r w',
    MessageRoute.POST env request w = (Returned r, w')
    /\ (status r = 400 <-> request <> Malformed /\ ~ acceptable request)
    /\ (status r = 400 -> w' = w)
    /\ (request = Malformed -> r = unexpected /\ w' = w).
Proof.
  destruct (POST_handled env request w) as (r & w' & Hrun & H).
  exists r, w'. split; [exact Hrun|].
  inversion H as [Hm|issue Hm Hp|message sessionId e w1 Hm Hp Hres
                  |message sessionId c w1 e w2 Hm Hp Hres Hpath
                  |message sessionId c w1 r0 w2 Hm Hp Hres Hpath]; subst.
  - split; [split; [simpl; discriminate|intros [Hne _]; congruence]|].
    split; [reflexivity|]. intros _. split; reflexivity.
  - split; [split; [intros _|reflexivity]|].
    + split; [exact Hm|].
      intros Ha. apply parse_acceptable in Ha as [data Ha]. congruence.
    + split; [reflexivity|]. intros ->. congruence.
  - split; [split; [simpl; discriminate|]|].
    + intros [_ Hna]. exfalso. apply Hna, parse_acceptable. eauto.
    + split; [simpl; discriminate|]. intros ->. congruence.
  - split; [split; [simpl; discriminate|]|].
    + intros [_ Hna]. exfalso. apply Hna, parse_acceptable. eauto.
    + split; [simpl; discriminate|]. intros ->. congruence.
  - assert (status r <> 400) as Hs.
    { destruct (reply_path_status _ _ _ _ _ _ Hpath) as [[Hs _]|[Hs _]]; lia. }
    split; [split; [congruence|]|].
    + intros [_ Hna]. exfalso. apply Hna, parse_acceptable. eauto.
    + split; [congruence|]. intros ->. congruence.
Qed.

(** ** What a message request adds *)

Lemma identity_touch (id now : nat) (l : list Conversation.t) :
  map identity (map (set_updatedAt id now) l) = map identity l.
Proof.
  rewrite map_map. apply map_ext. intros c.
  unfold identity, set_updatedAt. now destruct (has_id id c).
Qed.

(** What the resolution does to the store: it adds at most one
    conversation, no message, and lets time pass. *)
Lemma resolution_store (env : Env) (sessionId : option string) (w w1 : World)
    (o : Outcome Conversation.t) :
  resolution env sessionId w o w1 ->
  exists created,
    conversations (store w1) = conversations (store w) ++ created
    /\ List.length created <= 1
    /\ messages (store w1) = messages (store w)
    /\ clock (store w) <= clock (store w1)
    /\ engine (store w1) = engine (store w).
Proof.
  intros H. inversion H; subst; simpl.
  - exists []. rewrite app_nil_r. repeat split; simpl; lia.
  - exists []. rewrite app_nil_r. repeat split; simpl; lia.
  - eexists [_]. repeat split; simpl; lia.
  - exists []. rewrite app_nil_r. repeat split; simpl; lia.
  - eexists [_]. repeat split; simpl; lia.
  - exists []. rewrite app_nil_r. repeat split; simpl; lia.
Qed.

(** What the rest of the handler does to the store: nothing when the store
    refuses the user turn; otherwise one or two messages of the
    conversation are appended, the user turn first, each dated when it is
    written.  Conversations keep their identity, and an answer is only
    given once the user turn is written. *)
Lemma reply_path_store (env : Env) (c : Conversation.t) (message : string)
    (w1 w2 : World) (o : Outcome Response) :
  reply_path env c message w1 o w2 ->
  exists added,
    messages (store w2) = messages (store w1) ++ added
    /\ (added = [] /\ (exists e, o = Thrown e)
        \/ exists u rest,
            added = u :: rest
            /\ Message.conversationId u = Conversation.id c
            /\ Message.sender u = USER
            /\ Message.text u = message
            /\ List.length rest <= 1
            /\ Forall (fun a => Message.conversationId a = Conversation.id c
                                /\ Message.sender a = AI
                                /\ Message.timestamp u <= Message.timestamp a) rest
            /\ clock (store w1) <= Message.timestamp u)
    /\ map identity (conversations (store w2)) = map identity (conversations (store w1))
    /\ List.length (conversations (store w2)) = List.length (conversations (store w1))
    /\ engine (store w2) = engine (store w1).
Proof.
  intros H. inversion H; subst; simpl.
  - exists []. rewrite app_nil_r. split; [reflexivity|].
    split; [left; eauto|]. repeat split.
  - eexists [_; _]. rewrite <- app_assoc. split; [reflexivity|].
    split; [right; eexists _, [_]|repeat split].
    repeat split; simpl; try lia. repeat constructor; simpl; lia.
  - eexists [_]. split; [reflexivity|].
    split; [right; eexists _, []|repeat split].
    repeat split; simpl; try lia. constructor.
  - eexists [_]. split; [reflexivity|].
    split; [right; eexists _, []|repeat split].
    repeat split; simpl; try lia. constructor.
  - eexists [_; _]. rewrite <- app_assoc. split; [reflexivity|].
    split; [right; eexists _, [_]|].
    + repeat split; simpl; try lia. repeat constructor; simpl; lia.
    + split; [apply identity_touch|]. split; [apply length_map|reflexivity].
  - eexists [_]. split; [reflexivity|].
    split; [right; eexists _, []|repeat split].
    repeat split; simpl; try lia. constructor.
Qed.

(** What a message request does to the store. *)
Lemma handled_adds (env : Env) (request : RequestBody) (w w' : World) (r : Response) :
  handled env request w r w' ->
  exists added created,
    messages (store w') = messages (store w) ++ added
    /\ List.length added <= 2
    /\ map identity (conversations (store w'))
       = map identity (conversations (store w)) ++ map identity created
    /\ List.length created <= 1
    /\ engine (store w') = engine (store w).
Proof.
  intros H.
  assert (forall c w1 o w2 sessionId message,
             resolution env sessionId w (Returned c) w1 ->
             reply_path env c message w1 o w2 ->
             exists added created,
               messages (store w2) = messages (store w) ++ added
               /\ List.length added <= 2
               /\ map identity (conversations (store w2))
                  = map identity (conversations (store w)) ++ map identity created
               /\ List.length created <= 1
               /\ engine (store w2) = engine (store w)) as Hboth.
  { intros c w1 o w2 sessionId message Hres Hpath.
    destruct (resolution_store _ _ _ _ _ Hres)
      as (created & Hcs & Hlen & Hms & _ & Heng).
    destruct (reply_path_store _ _ _ _ _ _ Hpath)
      as (added & Hadd & Hshape & Hid & _ & Heng').
    exists added, created. rewrite Hadd, Hms, Hid, Hcs, map_app, Heng', Heng.
    repeat split; try assumption.
    destruct Hshape as [[-> _]|(u & rest & -> & _ & _ & _ & Hrest & _)];
      simpl; lia. }
  inversion H as [Hm|issue Hm Hp|message sessionId e w1 Hm Hp Hres
                  |message sessionId c w1 e w2 Hm Hp Hres Hpath
                  |message sessionId c w1 r0 w2 Hm Hp Hres Hpath]; subst.
  - exists [], []. rewrite !app_nil_r. repeat split; simpl; lia.
  - exists [], []. rewrite !app_nil_r. repeat split; simpl; lia.
  - destruct (resolution_store _ _ _ _ _ Hres)
      as (created & Hcs & Hlen & Hms & _ & Heng).
    exists [], created. rewrite app_nil_r, Hcs, map_app.
    repeat split; simpl; try lia; assumption.
  - eapply Hboth; eassumption.
  - eapply Hboth; eassumption.
Qed.

(** X3. A message request only appends: the messages of before are kept as
    they were and at most two are added (the user turn, then an assistant
    turn), the conversations of before keep their id, session token and
    creation time, and at most one conversation is added. *)
Theorem POST_only_appends (env : Env) (request : RequestBody) (w : World) :
  exists r w' added created,
    MessageRoute.POST env request w = (Returned r, w')
    /\ messages (store w') = messages (store w) ++ added
    /\ List.length added <= 2
    /\ map identity (conversations (store w'))
       = map identity (conversations (store w)) ++ map identity created
    /\ List.length created <= 1.
Proof.
  destruct (POST_handled env request w) as (r & w' & Hrun & H).
  destruct (handled_adds env request w w' r H)
    as (added & created & Hms & Hlen & Hcs & Hone & _).
  exists r, w', added, created. repeat split; assumption.
Qed.

(** ** The calls of a message request *)

Lemma resolution_calls (env : Env) (sessionId : option string) (w w1 : World)
    (o : Outcome Conversation.t) :
  resolution env sessionId w o w1 ->
  exists calls,
    trace w1 = trace w ++ calls
    /\ forallb is_resolution_call calls = true.
Proof.
  intros H. inversion H; subst; simpl; eexists; split; reflexivity.
Qed.

Lemma resolution_calls_no_provider (calls : list Effect) :
  forallb is_resolution_call calls = true ->
  filter is_provider_call calls = [].
Proof.
  induction calls as [|e l IH]; simpl; [reflexivity|].
  intros Hall. apply andb_prop in Hall as [He Hl].
  destruct e; try discriminate; auto.
Qed.

(** X4. The calls of one message request are the calls of the resolution
    (find and create of a conversation) followed by nothing; or by the
    write of the user turn alone, when the store refuses it; or by the
    write of the user turn and the read of the history and then: without a
    credential, the write of the fallback turn; with one, one call to the
    provider, or that call and the write of the assistant turn (when the
    store refuses it), or these and the update of the conversation.  The
    provider is called at most once, after the write of the user turn, and
    never without a credential. *)
Theorem POST_calls (env : Env) (request : RequestBody) (w : World) :
  exists r w' resolving rest,
    MessageRoute.POST env request w = (Returned r, w')
    /\ trace w' = trace w ++ resolving ++ rest
    /\ forallb is_resolution_call resolving = true
    /\ (rest = []
        \/ exists id message,
            rest = [MessageCreate id USER message]
            \/ (truthy_opt (OPENAI_API_KEY env) = false
                /\ rest = [MessageCreate id USER message; MessageFindMany id;
                           MessageCreate id AI MessageRoute.fallbackReply])
            \/ (exists request,
                   truthy_opt (OPENAI_API_KEY env) = true
                   /\ (rest = [MessageCreate id USER message; MessageFindMany id;
                               ChatCompletionsCreate request]
                       \/ exists reply,
                           rest = [MessageCreate id USER message; MessageFindMany id;
                                   ChatCompletionsCreate request;
                                   MessageCreate id AI reply]
                           \/ rest = [MessageCreate id USER message;
                                      MessageFindMany id;
                                      ChatCompletionsCreate request;
                                      MessageCreate id AI reply;
                                      ConversationUpdate id])))
    /\ List.length (filter is_provider_call (resolving ++ rest)) <= 1.
Proof.
  destruct (POST_handled env request w) as (r & w' & Hrun & H).
  exists r, w'.
  assert (forall c w1 o w2 sessionId message,
             resolution env sessionId w (Returned c) w1 ->
             reply_path env c message w1 o w2 ->
             exists resolving rest,
               trace w2 = trace w ++ resolving ++ rest
               /\ forallb is_resolution_call resolving = true
               /\ (rest = []
                   \/ exists id message,
                       rest = [MessageCreate id USER message]
                       \/ (truthy_opt (OPENAI_API_KEY env) = false
                           /\ rest = [MessageCreate id USER message;
                                      MessageFindMany id;
                                      MessageCreate id AI MessageRoute.fallbackReply])
                       \/ (exists request,
                              truthy_opt (OPENAI_API_KEY env) = true
                              /\ (rest = [MessageCreate id USER message;
                                          MessageFindMany id;
                                          ChatCompletionsCreate request]
                                  \/ exists reply,
                                      rest = [MessageCreate id USER message;
                                              MessageFindMany id;
                                              ChatCompletionsCreate request;
                                              MessageCreate id AI reply]
                                      \/ rest = [MessageCreate id USER message;
                                                 MessageFindMany id;
                                                 ChatCompletionsCreate request;
                                                 MessageCreate id AI reply;
                                                 ConversationUpdate id])))
               /\ List.length (filter is_provider_call (resolving ++ rest)) <= 1)
    as Hboth.
  { intros c w1 o w2 sessionId message Hres Hpath.
    destruct (resolution_calls _ _ _ _ _ Hres) as (calls & Htr & Hall).
    pose proof (resolution_calls_no_provider calls Hall) as Hnone.
    inversion Hpath as [Hr|Hm' Hc Hf|Hm' Hc Hf|e Hm' Hc He'|Hm' Hc He' Ha
                        |Hm' Hc He' Ha]; subst;
      try rewrite isConfigured_key in Hc;
      eexists calls, _;
      simpl; rewrite Htr, <- app_assoc; (split; [reflexivity|]);
      (split; [exact Hall|]); rewrite filter_app, Hnone; simpl;
      (split; [|lia]); right; eexists _, _.
    - left. reflexivity.
    - right. left. split; [assumption|reflexivity].
    - right. left. split; [assumption|reflexivity].
    - right. right. eexists. split; [assumption|]. left. reflexivity.
    - right. right. eexists. split; [assumption|]. right. eexists. right. reflexivity.
    - right. right. eexists. split; [assumption|]. right. eexists. left. reflexivity. }
  inversion H as [Hm|issue Hm Hp|message sessionId e w1 Hm Hp Hres
                  |message sessionId c w1 e w2 Hm Hp Hres Hpath
                  |message sessionId c w1 r0 w2 Hm Hp Hres Hpath]; subst.
  - exists [], []. rewrite !app_nil_r. repeat split; auto.
  - exists [], []. rewrite !app_nil_r. repeat split; auto.
  - destruct (resolution_calls _ _ _ _ _ Hres) as (calls & Htr & Hall).
    exists calls, []. rewrite app_nil_r. repeat split; auto.
    rewrite (resolution_calls_no_provider calls Hall). simpl. lia.
  - destruct (Hboth _ _ _ _ _ _ Hres Hpath) as (resolving & rest & Hrest).
    exists resolving, rest. split; [exact Hrun|exact Hrest].
  - destruct (Hboth _ _ _ _ _ _ Hres Hpath) as (resolving & rest & Hrest).
    exists resolving, rest. split; [exact Hrun|exact Hrest].
Qed.

(** ** The gateway's result *)

(** X5. Whatever the provider does, [generateReply] returns a result and
    never touches the store; it calls the provider once when it has a
    client and not at all otherwise.  A result without an error carries a
    non-empty reply (the provider's text, or the apology when that text is
    absent or empty); a result with an error carries an empty reply and
    one of the five fixed sentences. *)
Theorem generateReply_result (this : LLMService) (history : list Turn)
    (userMessage : string) (w : World) :
  exists result w',
    generateReply this history userMessage w = (Returned result, w')
    /\ store w' = store w
    /\ (client this = None -> trace w' = trace w)
    /\ (client this <> None ->
        trace w' = trace w
                     ++ [ChatCompletionsCreate (build_request this history userMessage)])
    /\ (error result = None -> reply result <> EmptyString)
    /\ (forall e, error result = Some e ->
                  reply result = EmptyString /\ In e error_sentences).
Proof.
  unfold generateReply.
  destruct (client this) as [cl|] eqn:Hc.
  - eexists _, _. split; [reflexivity|]. split; [reflexivity|].
    split; [discriminate|]. split; [reflexivity|]. split.
    + intros He. now apply truthy_nonempty, interpret_outcome_reply_truthy.
    + intros e He.
      destruct (chat_completions_create cl _) as [content|st raw|raw] eqn:Ho.
      * discriminate.
      * destruct (interpret_outcome_rejected (RejectedAPIError st raw) eq_refl)
          as (e' & He' & Hin).
        rewrite He in He'. injection He' as <-. split; [|exact Hin].
        simpl. destruct (status_is st 401); [|destruct (status_is st 429);
          [|destruct (_ || _ || _)]]; reflexivity.
      * injection He as <-. split; [reflexivity|]. simpl. auto 6.
  - eexists _, _. split; [reflexivity|]. split; [reflexivity|].
    split; [reflexivity|]. split; [congruence|]. split; [discriminate|].
    intros e [= <-]. split; [reflexivity|]. now left.
Qed.

(** ** Roles in the request *)

(** X6. [formatHistory] keeps the order and the text of the turns and gives
    a turn the role user exactly when its sender is the string "user".
    The turns read from the store carry the senders "USER" and "AI", so
    every stored turn, the customer's included, is sent to the provider
    under the role assistant. *)
Theorem stored_turns_are_sent_as_assistant :
  (forall history : list Turn,
      map content (formatHistory history) = map text history
      /\ Forall2 (fun turn m => role m = user <-> sender turn = "user")
                 history (formatHistory history))
  /\ (forall stored : list Message.t,
         Forall (fun m => role m = assistant)
                (formatHistory (map select_sender_text stored)))
  /\ (forall (env : Env) (c : Conversation.t) (message : string) (s : Store),
         exists window,
           rq_messages (request_for env c message s)
           = {| role := system; content := SYSTEM_PROMPT |}
               :: window ++ [ {| role := user; content := message |} ]
           /\ Forall (fun m => role m = assistant) window).
Proof.
  assert (forall stored : list Message.t,
             Forall (fun m => role m = assistant)
                    (formatHistory (map select_sender_text stored))) as Hstored.
  { intros stored. induction stored as [|m l IH]; simpl; constructor.
    - simpl. now destruct (Message.sender m).
    - exact IH. }
  split; [|split; [exact Hstored|]].
  - intros history. split; [apply formatHistory_content|].
    induction history as [|t l IH]; simpl; constructor.
    + simpl. destruct (String.eqb (sender t) "user") eqn:E.
      * apply String.eqb_eq in E. tauto.
      * apply String.eqb_neq in E. split; [discriminate|contradiction].
    + exact IH.
  - intros env c message s.
    exists (slice_last 10 (formatHistory (history_after_user env c message s))).
    split; [reflexivity|].
    unfold history_after_user, slice_last.
    pose proof (Hstored (messages_of
                           (write_message (dt_user env) (Conversation.id c) USER message s)
                           (Conversation.id c))) as H.
    rewrite <- (firstn_skipn
                  (List.length (formatHistory
                     (map select_sender_text
                        (messages_of
                           (write_message (dt_user env) (Conversation.id c) USER message s)
                           (Conversation.id c)))) - 10)) in H.
    now apply Forall_app in H as [_ H].
Qed.

(** ** Dialogues *)

Lemma StronglySorted_app {A} (R : A -> A -> Prop) (l1 l2 : list A) :
  StronglySorted R l1 -> StronglySorted R l2 ->
  (forall a b, In a l1 -> In b l2 -> R a b) ->
  StronglySorted R (l1 ++ l2).
Proof.
  intros H1 H2 H. induction H1 as [|x l Hl IH Hx]; simpl; [exact H2|].
  constructor.
  - apply IH. intros a b Ha Hb. apply H; [now right|exact Hb].
  - apply Forall_app. split; [exact Hx|].
    apply Forall_forall. intros b Hb. apply H; [now left|exact Hb].
Qed.

Lemma StronglySorted_filter {A} (R : A -> A -> Prop) (f : A -> bool) (l : list A) :
  StronglySorted R l -> StronglySorted R (filter f l).
Proof.
  induction 1 as [|x l Hl IH Hx]; simpl; [constructor|].
  destruct (f x); [|exact IH].
  constructor; [exact IH|].
  apply Forall_forall. intros y Hy. apply filter_In in Hy as [Hy _].
  rewrite Forall_forall in Hx. now apply Hx.
Qed.

Lemma handled_store (env : Env) (request : RequestBody) (w w' : World) (r : Response) :
  handled env request w r w' ->
  messages (store w') = messages (store w)
  \/ exists c u rest,
      messages (store w') = messages (store w) ++ u :: rest
      /\ Message.conversationId u = Conversation.id c
      /\ Message.sender u = USER
      /\ List.length rest <= 1
      /\ Forall (fun a => Message.conversationId a = Conversation.id c
                          /\ Message.sender a = AI
                          /\ Message.timestamp u <= Message.timestamp a) rest
      /\ clock (store w) <= Message.timestamp u.
Proof.
  intros H.
  assert (forall c w1 o w2 sessionId message,
             resolution env sessionId w (Returned c) w1 ->
             reply_path env c message w1 o w2 ->
             messages (store w2) = messages (store w)
             \/ exists c u rest,
                 messages (store w2) = messages (store w) ++ u :: rest
                 /\ Message.conversationId u = Conversation.id c
                 /\ Message.sender u = USER
                 /\ List.length rest <= 1
                 /\ Forall (fun a => Message.conversationId a = Conversation.id c
                                     /\ Message.sender a = AI
                                     /\ Message.timestamp u <= Message.timestamp a) rest
                 /\ clock (store w) <= Message.timestamp u) as Hboth.
  { intros c w1 o w2 sessionId message Hres Hpath.
    destruct (resolution_store _ _ _ _ _ Hres) as (_ & _ & _ & Hms & Hclock & _).
    destruct (reply_path_store _ _ _ _ _ _ Hpath)
      as (added & Hadd & [[-> _]|(u & rest & -> & Hcu & Hsu & _ & Hrest & Hall & Hu)]
          & _).
    - left. now rewrite Hadd, app_nil_r.
    - right. exists c, u, rest. rewrite Hadd, Hms. repeat split; try assumption. lia. }
  inversion H as [Hm|issue Hm Hp|message sessionId e w1 Hm Hp Hres
                  |message sessionId c w1 e w2 Hm Hp Hres Hpath
                  |message sessionId c w1 r0 w2 Hm Hp Hres Hpath]; subst.
  - now left.
  - now left.
  - left. now destruct (resolution_store _ _ _ _ _ Hres) as (_ & _ & _ & Hms & _).
  - eapply Hboth; eassumption.
  - eapply Hboth; eassumption.
Qed.

(** A message written now is dated after every message of the table. *)
Lemma chronological_write (dt id : nat) (sender : Sender) (text : string) (s : Store) :
  wf s -> chronological s ->
  chronological (insert_message (new_message (advance dt s) id sender text)
                                (advance dt s)).
Proof.
  intros Hwf Hch. unfold chronological in *. simpl.
  apply StronglySorted_app; [exact Hch|repeat constructor|].
  intros a b Ha [<-|[]]. unfold ascending. simpl.
  pose proof (wf_past _ Hwf) as Hpast. rewrite Forall_forall in Hpast.
  specialize (Hpast a Ha). simpl in Hpast. lia.
Qed.

Lemma chronological_issue (dt : nat) (call : Effect) (w : World) :
  wf (store w) -> chronological (store w) ->
  chronological (store (issue dt call w)).
Proof.
  intros Hwf Hch.
  destruct call as [token|token|id| |id who words|id|request]; simpl.
  - unfold conversation_findUnique.
    now destruct (encodes (engine (store w)) token).
  - unfold conversation_create.
    now destruct (create_refusal (advance dt (store w)) token).
  - unfold conversation_update.
    now destruct (existsb (has_id id) (conversations (advance dt (store w)))).
  - exact Hch.
  - unfold message_create.
    destruct (negb (encodes (engine (advance dt (store w))) words)); [exact Hch|].
    destruct (existsb (has_id id) (conversations (advance dt (store w))));
      [|exact Hch].
    now apply chronological_write.
  - exact Hch.
  - exact Hch.
Qed.

Lemma follows_user (b : bool) (turns : list Sender) :
  answers_follow_questions b (turns ++ [USER]) = answers_follow_questions b turns.
Proof.
  revert b. induction turns as [|t l IH]; intros b; simpl; [reflexivity|].
  destruct t; [apply IH|]. destruct b; [reflexivity|apply IH].
Qed.

Lemma follows_user_assistant (b : bool) (turns : list Sender) :
  answers_follow_questions b (turns ++ [USER; AI]) = answers_follow_questions b turns.
Proof.
  revert b. induction turns as [|t l IH]; intros b; simpl; [reflexivity|].
  destruct t; [apply IH|]. destruct b; [reflexivity|apply IH].
Qed.

Lemma handled_dialogues (env : Env) (request : RequestBody) (w w' : World)
    (r : Response) :
  dialogues (store w) -> handled env request w r w' -> dialogues (store w').
Proof.
  intros Hd H id. specialize (Hd id).
  destruct (handled_store _ _ _ _ _ H)
    as [->|(c & u & rest & -> & Hcu & Hsu & Hlen & Hall & _)]; [exact Hd|].
  assert (belongs_to id u = (Conversation.id c =? id)) as Hu
      by (unfold belongs_to; now rewrite Hcu).
  rewrite filter_app, map_app.
  destruct rest as [|a [|b rest]]; [| |simpl in Hlen; lia].
  - simpl. rewrite Hu. destruct (Conversation.id c =? id); simpl.
    + now rewrite Hsu, follows_user.
    + now rewrite app_nil_r.
  - inversion Hall as [|? ? (Hca & Hsa & _) _]; subst.
    assert (belongs_to id a = (Conversation.id c =? id)) as Ha
        by (unfold belongs_to; now rewrite Hca).
    simpl. rewrite Hu, Ha. destruct (Conversation.id c =? id); simpl.
    + now rewrite Hsu, Hsa, follows_user_assistant.
    + now rewrite app_nil_r.
Qed.

(** In every reachable world the table is chronological, also when the
    calls of several requests alternate. *)
Lemma reachable_chronological (w : World) :
  reachable w -> chronological (store w).
Proof.
  induction 1 as [e|dt call w Hc Hr IH].
  - constructor.
  - apply chronological_issue; [now apply reachable_wf|exact IH].
Qed.

(** When the requests are handled one at a time, every conversation is a
    dialogue. *)
Lemma sequential_dialogues (w : World) :
  sequential w -> dialogues (store w).
Proof.
  induction 1 as [e|env request w Hs IH|sessionId w Hs IH|w Hs IH].
  - intros id. reflexivity.
  - destruct (POST_handled env request w) as (r & w' & Hrun & H).
    rewrite Hrun. simpl.
    exact (handled_dialogues env request w w' r IH H).
  - unfold dialogues in *. now rewrite history_GET_store.
  - rewrite conversations_GET_run. exact IH.
Qed.

Lemma messages_of_chronological (s : Store) (id : nat) :
  chronological s -> messages_of s id = filter (belongs_to id) (messages s).
Proof.
  intros H. unfold messages_of.
  apply orderBy_asc_sorted_id. now apply StronglySorted_filter.
Qed.

(** X7. In every world reached from the empty tables by the calls of the
    handlers, in whatever order they reach the store, the history of a
    session is the list of its messages in the order they were written;
    and when the requests were handled one at a time, each running to its
    response before the next one starts, it is a dialogue: it never opens
    with an assistant turn and never has two assistant turns in a row. *)
Theorem history_is_a_dialogue (w : World) (s : string) (c : Conversation.t) :
  reachable w ->
  find (has_sessionId s) (conversations (store w)) = Some c ->
  exists items w',
    HistoryRoute.GET (Some s) w
    = (Returned (NextResponse_json (HistoryBody items (Some s)) 200), w')
    /\ items = map select_history_item
                   (filter (belongs_to (Conversation.id c)) (messages (store w)))
    /\ (sequential w ->
        answers_follow_questions true (map HistoryItem.sender items) = true).
Proof.
  intros Hr Hf.
  pose proof (reachable_wf w Hr) as Hwf.
  pose proof (reachable_chronological w Hr) as Hch.
  pose proof (find_some _ _ Hf) as [Hin Hs]. apply String.eqb_eq in Hs.
  assert (truthy s = true) as Ht.
  { apply truthy_nonempty. rewrite <- Hs.
    pose proof (wf_tokens _ Hwf) as Htok. rewrite Forall_forall in Htok.
    now apply Htok. }
  assert (encodes (engine (store w)) s = true) as He.
  { rewrite <- Hs.
    pose proof (wf_encoded _ Hwf) as Henc. rewrite Forall_forall in Henc.
    now apply Henc. }
  rewrite (history_GET_run s w Ht He), Hf, Hs.
  rewrite (messages_of_chronological _ _ Hch).
  eexists _, _. split; [reflexivity|]. split; [reflexivity|].
  intros Hseq. rewrite map_map. simpl.
  apply (sequential_dialogues w Hseq (Conversation.id c)).
Qed.

(** X8. In every world reached from the empty store: session tokens are
    non-empty and no two conversations share one; no two conversations
    share an id; every message belongs to a stored conversation; and no
    message and no update is dated after the clock. *)
Theorem reachable_invariants (w : World) :
  reachable w ->
  NoDup (map Conversation.sessionId (conversations (store w)))
  /\ Forall (fun c => Conversation.sessionId c <> EmptyString) (conversations (store w))
  /\ NoDup (map Conversation.id (conversations (store w)))
  /\ Forall (fun m => In (Message.conversationId m)
                         (map Conversation.id (conversations (store w))))
            (messages (store w))
  /\ Forall (fun m => Message.timestamp m <= clock (store w)) (messages (store w))
  /\ Forall (fun c => Conversation.updatedAt c <= clock (store w))
            (conversations (store w)).
Proof.
  intros Hr. destruct (reachable_wf w Hr) as [H1 He H2 H3 H4 H5 H6 H7].
  repeat split; try assumption.
  eapply Forall_impl; [|exact H5]. simpl. intros m Hm.
  apply existsb_exists in Hm as (c & Hin & Hid).
  apply Nat.eqb_eq in Hid. rewrite <- Hid. now apply in_map.
Qed.

(** ** The history after an answered request *)

Lemma history_GET_history_of (token : string) (w : World) :
  truthy token = true ->
  encodes (engine (store w)) token = true ->
  fst (HistoryRoute.GET (Some token) w)
  = Returned (NextResponse_json (HistoryBody (history_of (store w) token) (Some token)) 200).
Proof.
  intros Ht He. rewrite (history_GET_run token w Ht He). unfold history_of. simpl.
  destruct (find (has_sessionId token) (conversations (store w))) as [c|] eqn:Hf;
    [|reflexivity].
  apply find_some in Hf as [_ Hs]. apply String.eqb_eq in Hs. now rewrite Hs.
Qed.

Lemma resolution_wf (env : Env) (sessionId : option string) (w w1 : World)
    (o : Outcome Conversation.t) :
  wf (store w) -> resolution env sessionId w o w1 -> wf (store w1).
Proof.
  intros Hwf H. apply resolution_equation in H.
  pose proof (preserves_getOrCreateConversation env sessionId w Hwf) as Hp.
  now rewrite H in Hp.
Qed.

Lemma find_app_none {A} (f : A -> bool) (l l' : list A) :
  find f l = None -> find f (l ++ l') = find f l'.
Proof.
  induction l as [|x l IH]; simpl; [reflexivity|].
  destruct (f x); [discriminate|exact IH].
Qed.

Lemma find_touch (token : string) (id now : nat) (l : list Conversation.t) :
  find (has_sessionId token) (map (set_updatedAt id now) l)
  = option_map (set_updatedAt id now) (find (has_sessionId token) l).
Proof.
  induction l as [|c l IH]; simpl; [reflexivity|].
  unfold has_sessionId at 1 3. rewrite set_updatedAt_sessionId.
  destruct (String.eqb (Conversation.sessionId c) token); [reflexivity|exact IH].
Qed.

(** A fresh id owns no message. *)
Lemma no_message_of_next_id (s : Store) :
  wf s -> filter (belongs_to (next_id s)) (messages s) = [].
Proof.
  intros Hwf.
  pose proof (wf_owner _ Hwf) as Hown. pose proof (wf_conv_ids _ Hwf) as Hids.
  rewrite Forall_forall in Hown, Hids.
  induction (messages s) as [|m l IH]; simpl; [reflexivity|].
  destruct (belongs_to (next_id s) m) eqn:E.
  - exfalso. apply Nat.eqb_eq in E.
    assert (existsb (has_id (Message.conversationId m)) (conversations s) = true) as Hex
        by (apply Hown; now left).
    apply existsb_exists in Hex as (c & Hin & Hid). apply Nat.eqb_eq in Hid.
    specialize (Hids c Hin). simpl in Hids. lia.
  - apply IH. intros x Hx. apply Hown. now right.
Qed.

Lemma new_conversation_history (dt : nat) (token : string) (s : Store) :
  wf s ->
  find (has_sessionId token) (conversations s) = None ->
  find (has_sessionId token) (conversations (write_conversation dt token s))
  = Some (new_conversation (advance dt s) token)
  /\ map select_history_item (messages_of (write_conversation dt token s) (next_id s))
     = [].
Proof.
  intros Hwf Hf. simpl. rewrite (find_app_none _ _ _ Hf). simpl.
  split; [unfold has_sessionId; simpl; now rewrite String.eqb_refl|].
  unfold messages_of. simpl.
  now rewrite (no_message_of_next_id s Hwf).
Qed.

(** The resolved conversation is the one the history route finds under its
    token, and the resolution leaves the history of that token as it was. *)
Lemma resolution_history (env : Env) (sessionId : option string) (w w1 : World)
    (c : Conversation.t) :
  wf (store w) ->
  resolution env sessionId w (Returned c) w1 ->
  find (has_sessionId (Conversation.sessionId c)) (conversations (store w1)) = Some c
  /\ map select_history_item (messages_of (store w1) (Conversation.id c))
     = history_of (store w) (Conversation.sessionId c).
Proof.
  intros Hwf H. unfold history_of.
  inversion H as [|s c0 Hs Ht He Hf|s Hs Ht He Hf Hi| |Ht Hf|]; subst.
  - pose proof (find_some _ _ Hf) as [_ Hc]. apply String.eqb_eq in Hc.
    simpl. rewrite Hc, Hf. split; reflexivity.
  - cbn [Conversation.sessionId Conversation.id new_conversation store advance next_id].
    rewrite Hf. now apply new_conversation_history.
  - assert (find (has_sessionId (randomUUID (entropy env))) (conversations (store w))
            = None) as Hnone.
    { apply create_refusal_none in Hf as (_ & _ & Hf).
      rewrite find_existsb in Hf.
      destruct (find _ _); [discriminate|reflexivity]. }
    cbn [Conversation.sessionId Conversation.id new_conversation store advance next_id].
    rewrite Hnone. apply new_conversation_history; assumption.
Qed.

Lemma wf_write_message (dt id : nat) (sd : Sender) (txt : string) (s : Store) :
  wf s -> existsb (has_id id) (conversations s) = true ->
  wf (write_message dt id sd txt s).
Proof.
  intros Hwf Hex. unfold write_message.
  apply wf_insert_message; [now apply wf_advance|exact Hex].
Qed.

(** An answered request appends the user turn and the assistant turn to
    what the history route lists for the conversation. *)
Lemma reply_path_history (env : Env) (c : Conversation.t) (message : string)
    (w1 w2 : World) (r : Response) (answer token : string) :
  wf (store w1) ->
  find (has_sessionId (Conversation.sessionId c)) (conversations (store w1)) = Some c ->
  reply_path env c message w1 (Returned r) w2 ->
  body r = ReplyBody answer token ->
  token = Conversation.sessionId c
  /\ wf (store w2)
  /\ engine (store w2) = engine (store w1)
  /\ exists u a,
      history_of (store w2) token
      = map select_history_item (messages_of (store w1) (Conversation.id c)) ++ [u; a]
      /\ HistoryItem.sender u = USER /\ HistoryItem.text u = message
      /\ HistoryItem.sender a = AI /\ HistoryItem.text a = answer.
Proof.
  intros Hwf Hf Hpath Hbody.
  assert (existsb (has_id (Conversation.id c)) (conversations (store w1)) = true) as Hex.
  { apply find_some in Hf as [Hin _]. apply existsb_exists. exists c.
    split; [exact Hin|]. apply Nat.eqb_refl. }
  pose proof (wf_write_message (dt_user env) (Conversation.id c) USER message
                (store w1) Hwf Hex) as Hwfu.
  inversion Hpath as [|Hm' Hc Hfb| |e Hm' Hc He|Hm' Hc He Ha|]; subst;
    simpl in Hbody; [|discriminate|]; injection Hbody as <- <-;
    (split; [reflexivity|]).
  - split; [now apply wf_write_message|]. split; [reflexivity|].
    unfold history_of. simpl. rewrite Hf.
    rewrite messages_of_after_write by exact Hwfu.
    rewrite messages_of_after_write by exact Hwf.
    rewrite !map_app, <- app_assoc. simpl.
    eexists _, _. split; [reflexivity|]. repeat split.
  - split.
    { unfold bump. apply wf_touch_conversation, wf_advance.
      now apply wf_write_message. }
    split; [reflexivity|].
    unfold history_of. simpl. rewrite find_touch, Hf. simpl.
    rewrite set_updatedAt_id.
    unfold messages_of at 1. simpl.
    change (orderBy_asc Message.timestamp
              (filter (belongs_to (Conversation.id c))
                 ((messages (store w1)
                   ++ [new_message (advance (dt_user env) (store w1))
                                   (Conversation.id c) USER message])
                  ++ [new_message
                        (advance (dt_assistant env)
                           (write_message (dt_user env) (Conversation.id c) USER message
                                          (store w1)))
                        (Conversation.id c) AI
                        (reply
                           (interpret_outcome
                              (provider env (request_for env c message (store w1)))))])))
      with (messages_of
              (write_message (dt_assistant env) (Conversation.id c) AI
                 (reply
                    (interpret_outcome
                       (provider env (request_for env c message (store w1)))))
                 (write_message (dt_user env) (Conversation.id c) USER message (store w1)))
              (Conversation.id c)).
    rewrite messages_of_after_write by exact Hwfu.
    rewrite messages_of_after_write by exact Hwf.
    rewrite !map_app, <- app_assoc. simpl.
    eexists _, _. split; [reflexivity|]. repeat split.
Qed.

(** X9. When a message request is answered with a reply, the history route
    lists for the returned token what it listed before the request,
    followed by the user turn with the message and the assistant turn with
    the reply that was returned. *)
Theorem answered_turns_appear_in_history (env : Env) (request : RequestBody)
    (w w' : World) (r : Response) (answer token : string) :
  wf (store w) ->
  MessageRoute.POST env request w = (Returned r, w') ->
  body r = ReplyBody answer token ->
  exists message sessionId before u a,
    MessageRoute.messageSchema_safeParse request = inr (message, sessionId)
    /\ fst (HistoryRoute.GET (Some token) w)
       = Returned (NextResponse_json (HistoryBody before (Some token)) 200)
    /\ fst (HistoryRoute.GET (Some token) w')
       = Returned (NextResponse_json (HistoryBody (before ++ [u; a]) (Some token)) 200)
    /\ HistoryItem.sender u = USER /\ HistoryItem.text u = message
    /\ HistoryItem.sender a = AI /\ HistoryItem.text a = answer.
Proof.
  intros Hwf Hrun Hbody.
  destruct (POST_handled env request w) as (r0 & w0 & Hrun0 & H).
  rewrite Hrun in Hrun0. injection Hrun0 as <- <-.
  inversion H as [Hm|issue Hm Hp|message sessionId e w1 Hm Hp Hres
                  |message sessionId c w1 e w2 Hm Hp Hres Hpath
                  |message sessionId c w1 r0 w2 Hm Hp Hres Hpath]; subst;
    try (simpl in Hbody; discriminate).
  pose proof (resolution_wf _ _ _ _ _ Hwf Hres) as Hwf1.
  destruct (resolution_history _ _ _ _ _ Hwf Hres) as [Hf Hbefore].
  destruct (reply_path_history _ _ _ _ _ _ _ _ Hwf1 Hf Hpath Hbody)
    as (-> & Hwf2 & Heng2 & u & a & Hafter & Hu).
  destruct (resolution_returned _ _ _ _ _ Hres) as (_ & Htok & _ & Heng1 & Henc).
  rewrite <- Htok in Henc.
  assert (truthy (Conversation.sessionId c) = true) as Ht.
  { rewrite Htok. apply newSessionId_truthy. }
  exists message, sessionId, (history_of (store w) (Conversation.sessionId c)), u, a.
  split; [exact Hp|].
  split; [now apply history_GET_history_of|].
  split; [|exact Hu].
  rewrite (history_GET_history_of _ _ Ht), Hafter, Hbefore; [reflexivity|].
  now rewrite Heng2, Heng1.
Qed.

(** ** The listing after an answered request *)

Lemma insert_desc_head {A} (key : A -> nat) (x : A) (l : list A) :
  Forall (fun y => key y <= key x) l -> insert_desc key x l = x :: l.
Proof.
  intros H. destruct l as [|y l]; simpl; [reflexivity|].
  inversion H as [|? ? Hy _]; subst. apply Nat.leb_le in Hy. now rewrite Hy.
Qed.

(** A row whose key is above every other key is read first. *)
Lemma orderBy_desc_strict_max {A} (key : A -> nat) (x : A) (l1 l2 : list A) :
  Forall (fun y => key y < key x) l1 ->
  Forall (fun y => key y < key x) l2 ->
  orderBy_desc key (l1 ++ x :: l2) = x :: orderBy_desc key (l1 ++ l2).
Proof.
  intros H1 H2. induction H1 as [|a l1 Ha H1 IH]; simpl.
  - apply insert_desc_head.
    eapply Permutation_Forall; [apply orderBy_desc_perm|].
    eapply Forall_impl; [|exact H2]. simpl. intros; lia.
  - unfold orderBy_desc in *. rewrite IH. simpl.
    destruct (key x <=? key a) eqn:E; [apply Nat.leb_le in E; lia|reflexivity].
Qed.

Lemma touch_others (id now : nat) (l : list Conversation.t) :
  Forall (fun c => Conversation.id c <> id) l ->
  map (set_updatedAt id now) l = l.
Proof.
  induction 1 as [|c l Hc Hl IH]; simpl; [reflexivity|].
  rewrite IH. unfold set_updatedAt, has_id.
  apply Nat.eqb_neq in Hc. now rewrite Hc.
Qed.

Lemma NoDup_split_others (l1 l2 : list Conversation.t) (c : Conversation.t) :
  NoDup (map Conversation.id (l1 ++ c :: l2)) ->
  Forall (fun c' => Conversation.id c' <> Conversation.id c) l1
  /\ Forall (fun c' => Conversation.id c' <> Conversation.id c) l2.
Proof.
  rewrite map_app. simpl. intros H.
  apply NoDup_remove_2 in H.
  split; apply Forall_forall; intros c' Hin Heq; apply H, in_or_app;
    [left|right]; rewrite <- Heq; now apply in_map.
Qed.

(** X10. When the gateway answers a request and time passes during it, the
    conversation that was answered comes first in the listing, dated at the
    clock. *)
Theorem answered_conversation_is_listed_first (env : Env) (request : RequestBody)
    (w w' : World) (r : Response) (answer token : string) :
  wf (store w) ->
  MessageRoute.POST env request w = (Returned r, w') ->
  body r = ReplyBody answer token ->
  truthy_opt (OPENAI_API_KEY env) = true ->
  0 < dt_user env + dt_assistant env + dt_update env ->
  exists first rest,
    fst (ConversationsRoute.GET w')
    = Returned (NextResponse_json (ConversationsBody (first :: rest)) 200)
    /\ ConversationSummary.sessionId first = token
    /\ ConversationSummary.updatedAt first = clock (store w').
Proof.
  intros Hwf Hrun Hbody Hkey Hdt.
  destruct (POST_handled env request w) as (r0 & w0 & Hrun0 & H).
  rewrite Hrun in Hrun0. injection Hrun0 as <- <-.
  inversion H as [Hm|issue Hm Hp|message sessionId e w1 Hm Hp Hres
                  |message sessionId c w1 e w2 Hm Hp Hres Hpath
                  |message sessionId c w1 r0 w2 Hm Hp Hres Hpath]; subst;
    try (simpl in Hbody; discriminate).
  pose proof (resolution_wf _ _ _ _ _ Hwf Hres) as Hwf1.
  destruct (resolution_history _ _ _ _ _ Hwf Hres) as [Hf _].
  apply find_some in Hf as [Hin _].
  inversion Hpath as [|Hm' Hc Hfb| |e Hm' Hc He|Hm' Hc He Ha|]; subst;
    simpl in Hbody;
    [rewrite isConfigured_key in Hc; congruence|discriminate|].
  injection Hbody as <- <-.
  apply in_split in Hin as (l1 & l2 & Hl).
  pose proof (wf_conv_ids_unique _ Hwf1) as Hnd. rewrite Hl in Hnd.
  destruct (NoDup_split_others _ _ _ Hnd) as [Ho1 Ho2].
  pose proof (wf_updated_past _ Hwf1) as Hpast. rewrite Hl in Hpast.
  apply Forall_app in Hpast as [Hp1 Hp2]. inversion Hp2 as [|? ? _ Hp2']; subst.
  rewrite conversations_GET_run. cbn [fst store].
  set (T := clock (store w1) + dt_user env + dt_assistant env + dt_update env).
  assert (conversations
            (bump (dt_update env) (Conversation.id c)
               (write_message (dt_assistant env) (Conversation.id c) AI
                  (reply
                     (interpret_outcome
                        (provider env (request_for env c message (store w1)))))
                  (write_message (dt_user env) (Conversation.id c) USER message
                                 (store w1))))
          = l1 ++ set_updatedAt (Conversation.id c) T c :: l2) as Hcs.
  { simpl. rewrite Hl, map_app. simpl.
    now rewrite (touch_others _ _ l1 Ho1), (touch_others _ _ l2 Ho2). }
  rewrite Hcs.
  assert (Conversation.updatedAt (set_updatedAt (Conversation.id c) T c) = T) as HT.
  { unfold set_updatedAt, has_id. now rewrite Nat.eqb_refl. }
  rewrite orderBy_desc_strict_max.
  - simpl map. eexists _, _. split; [reflexivity|]. split.
    + simpl. apply set_updatedAt_sessionId.
    + simpl. exact HT.
  - rewrite HT. eapply Forall_impl; [|exact Hp1]. simpl. unfold T. intros; lia.
  - rewrite HT. eapply Forall_impl; [|exact Hp2']. simpl. unfold T. intros; lia.
Qed.

(** ** The widget: truncation *)

Lemma string_length_append (s1 s2 : string) :
  String.length (s1 ++ s2)%string = String.length s1 + String.length s2.
Proof. induction s1 as [|c s1 IH]; simpl; [reflexivity|now rewrite IH]. Qed.

Lemma substring_length (n : nat) (s : string) :
  String.length (substring 0 n s) = Nat.min n (String.length s).
Proof.
  revert n. induction s as [|c s IH]; intros [|n]; simpl; try reflexivity.
  now rewrite IH.
Qed.

(** X11. [truncateMessage] returns the text itself when it has at most
    [maxLength] characters and otherwise exactly [maxLength + 3] characters
    (so a text one or two characters too long is displayed longer than it
    is); in both cases the characters before position [maxLength] are those
    of the text. *)
Theorem truncateMessage_length (text : string) (maxLength : nat) :
  String.length (ChatWidget.truncateMessage text maxLength)
  = (if String.length text <=? maxLength then String.length text else maxLength + 3)
  /\ (String.length text <= maxLength ->
      ChatWidget.truncateMessage text maxLength = text)
  /\ (forall p, p < maxLength ->
                get p (ChatWidget.truncateMessage text maxLength) = get p text).
Proof.
  unfold ChatWidget.truncateMessage.
  destruct (String.length text <=? maxLength) eqn:E.
  - repeat split.
  - apply Nat.leb_gt in E. split; [|split].
    + rewrite string_length_append, substring_length. simpl. lia.
    + intros H. lia.
    + intros p Hp.
      rewrite <- append_correct1 by (rewrite substring_length; lia).
      rewrite substring_correct1 by exact Hp. now rewrite Nat.add_0_r.
Qed.

(** ** The widget: open and closed *)

(** X12. Without an [isOpen] prop, the toggle flips what is displayed and
    calls nothing.  With one, what is displayed is the prop whatever the
    toggle does: the toggle calls [onToggle] and leaves the state alone when
    the callback is passed, and without the callback it only flips a state
    that is not displayed. *)
Theorem handleToggle_displayed (props : ChatWidget.Props) (st : ChatWidget.State) :
  (ChatWidget.controlledIsOpen props = None ->
   ChatWidget.currentIsOpen props (fst (ChatWidget.handleToggle props st))
   = negb (ChatWidget.currentIsOpen props st)
   /\ snd (ChatWidget.handleToggle props st) = false)
  /\ (forall b,
        ChatWidget.controlledIsOpen props = Some b ->
        ChatWidget.currentIsOpen props (fst (ChatWidget.handleToggle props st)) = b
        /\ snd (ChatWidget.handleToggle props st) = ChatWidget.onToggle props
        /\ (ChatWidget.onToggle props = true ->
            fst (ChatWidget.handleToggle props st) = st)).
Proof.
  unfold ChatWidget.handleToggle, ChatWidget.currentIsOpen.
  split.
  - intros ->. split; reflexivity.
  - intros b ->. destruct (ChatWidget.onToggle props); repeat split; discriminate.
Qed.

(** ** The widget: sending *)

Lemma sendMessage_starts (trim : string -> string) (entropy : N) (now : nat)
    (st : ChatWidget.State) :
  ChatWidget.isLoading st = false ->
  truthy (trim (ChatWidget.inputValue st)) = true ->
  ChatWidget.sendMessage trim entropy now st
  = (ChatWidget.set_isTyping true
       (ChatWidget.set_isLoading true
          (ChatWidget.set_inputValue EmptyString
             (ChatWidget.set_messages
                (ChatWidget.messages st
                 ++ [ChatWidget.mkMessage (ChatWidget.Local (randomUUID entropy)) USER
                       (Some (trim (ChatWidget.inputValue st))) now])
                (ChatWidget.set_error None st)))),
     Some (ChatWidget.PostMessage (trim (ChatWidget.inputValue st))
             (if truthy_opt (ChatWidget.currentSessionId st)
              then ChatWidget.currentSessionId st else None),
           ChatWidget.mkPending
             (ChatWidget.mkMessage (ChatWidget.Local (randomUUID entropy)) USER
                (Some (trim (ChatWidget.inputValue st))) now)
             (ChatWidget.currentSessionId st)
             (ChatWidget.showSidebar st))).
Proof.
  intros Hl Ht. unfold ChatWidget.sendMessage. now rewrite Ht, Hl.
Qed.

Lemma MessageId_eqb_eq (a b : ChatWidget.MessageId) :
  ChatWidget.MessageId_eqb a b = true <-> a = b.
Proof.
  destruct a as [n|s], b as [m|t]; simpl; split; intros H;
    try discriminate; try congruence.
  - apply Nat.eqb_eq in H. congruence.
  - injection H as ->. apply Nat.eqb_refl.
  - apply String.eqb_eq in H. congruence.
  - injection H as ->. apply String.eqb_refl.
Qed.

Lemma filter_out_fresh (i : ChatWidget.MessageId) (l : list ChatWidget.Message)
    (m : ChatWidget.Message) :
  Forall (fun x => ChatWidget.id x <> i) l ->
  ChatWidget.id m = i ->
  filter (fun msg => negb (ChatWidget.MessageId_eqb (ChatWidget.id msg) i)) (l ++ [m])
  = l.
Proof.
  intros Hl Hm. rewrite filter_app. simpl.
  assert (ChatWidget.MessageId_eqb (ChatWidget.id m) i = true) as ->
      by now apply MessageId_eqb_eq.
  simpl. rewrite app_nil_r.
  induction Hl as [|x l Hx Hl IH]; simpl; [reflexivity|].
  destruct (ChatWidget.MessageId_eqb (ChatWidget.id x) i) eqn:E.
  - apply MessageId_eqb_eq in E. contradiction.
  - simpl. now rewrite IH.
Qed.

(** X13. A send that fails (the request is rejected, or the response is not
    ok) is rolled back: when no message on screen carries the id drawn for
    the user message, the transcript is again what it was before the send,
    an error is displayed, the widget is no longer loading, the session is
    untouched and nothing is reloaded.  The input stays empty: the text
    that was typed is not put back. *)
Theorem failed_send_rolls_back (trim : string -> string) (entropy entropy' : N)
    (now now' : nat) (cl : ChatWidget.Client) (fetched : ChatWidget.Fetched) :
  ChatWidget.isLoading (ChatWidget.state cl) = false ->
  truthy (trim (ChatWidget.inputValue (ChatWidget.state cl))) = true ->
  Forall (fun m => ChatWidget.id m <> ChatWidget.Local (randomUUID entropy))
         (ChatWidget.messages (ChatWidget.state cl)) ->
  failed fetched = true ->
  exists st rq p cl' e,
    ChatWidget.sendMessage trim entropy now (ChatWidget.state cl) = (st, Some (rq, p))
    /\ ChatWidget.sendMessage_settled p fetched entropy' now' (awaiting st cl) = (cl', [])
    /\ ChatWidget.messages (ChatWidget.state cl')
       = ChatWidget.messages (ChatWidget.state cl)
    /\ ChatWidget.error (ChatWidget.state cl') = Some e
    /\ ChatWidget.inputValue (ChatWidget.state cl') = EmptyString
    /\ ChatWidget.isLoading (ChatWidget.state cl') = false
    /\ ChatWidget.isTyping (ChatWidget.state cl') = false
    /\ ChatWidget.currentSessionId (ChatWidget.state cl')
       = ChatWidget.currentSessionId (ChatWidget.state cl)
    /\ ChatWidget.chatCurrentSessionId cl' = ChatWidget.chatCurrentSessionId cl.
Proof.
  intros Hl Ht Hfresh Hfail.
  rewrite (sendMessage_starts trim entropy now _ Hl Ht).
  eexists _, _, _. 
  destruct fetched as [e|r]; simpl in Hfail.
  - eexists _, _. split; [reflexivity|]. split; [reflexivity|].
    simpl. rewrite filter_out_fresh by (exact Hfresh || reflexivity).
    repeat split.
  - unfold ChatWidget.sendMessage_settled. rewrite Hfail.
    eexists _, _. split; [reflexivity|]. split; [reflexivity|].
    simpl. rewrite filter_out_fresh by (exact Hfresh || reflexivity).
    repeat split.
Qed.

(** X14. A send that is answered with an ok response puts the user message
    on screen at once and, when the response arrives, appends the assistant
    message carrying [data.reply] to what is on screen then, whatever was
    done to the widget in between.  The request carries the session that
    is current at the send when it is a non-empty string, and no session
    otherwise.  The session of the response becomes the current session,
    and is written to [localStorage], exactly when it is a non-empty string
    and the session that was current at the send is not one: a session
    that was current at the send is kept, and a session chosen while the
    request was pending is replaced.  When nothing was done in between, the
    transcript is the one of before the send followed by the two messages,
    and no error is displayed. *)
Theorem answered_send_extends_transcript (trim : string -> string)
    (entropy entropy' : N) (now now' : nat) (cl later : ChatWidget.Client)
    (r : Response) :
  ChatWidget.isLoading (ChatWidget.state cl) = false ->
  truthy (trim (ChatWidget.inputValue (ChatWidget.state cl))) = true ->
  ChatWidget.ok r = true ->
  exists st p cl' reloads u a,
    ChatWidget.sendMessage trim entropy now (ChatWidget.state cl)
    = (st, Some (ChatWidget.PostMessage
                   (trim (ChatWidget.inputValue (ChatWidget.state cl)))
                   (if truthy_opt (ChatWidget.currentSessionId (ChatWidget.state cl))
                    then ChatWidget.currentSessionId (ChatWidget.state cl)
                    else None),
                 p))
    /\ ChatWidget.messages st = ChatWidget.messages (ChatWidget.state cl) ++ [u]
    /\ ChatWidget.sendMessage_settled p (ChatWidget.Responded r) entropy' now' later
       = (cl', reloads)
    /\ ChatWidget.messages (ChatWidget.state cl')
       = ChatWidget.messages (ChatWidget.state later) ++ [a]
    /\ ChatWidget.sender u = USER
    /\ ChatWidget.text u = Some (trim (ChatWidget.inputValue (ChatWidget.state cl)))
    /\ ChatWidget.sender a = AI
    /\ ChatWidget.text a = ChatWidget.data_reply (body r)
    /\ ChatWidget.isLoading (ChatWidget.state cl') = false
    /\ ChatWidget.error (ChatWidget.state cl') = ChatWidget.error (ChatWidget.state later)
    /\ (truthy_opt (ChatWidget.data_sessionId (body r))
        && negb (truthy_opt (ChatWidget.currentSessionId (ChatWidget.state cl))) = true ->
        ChatWidget.currentSessionId (ChatWidget.state cl')
        = ChatWidget.data_sessionId (body r)
        /\ ChatWidget.chatCurrentSessionId cl' = ChatWidget.data_sessionId (body r))
    /\ (truthy_opt (ChatWidget.data_sessionId (body r))
        && negb (truthy_opt (ChatWidget.currentSessionId (ChatWidget.state cl))) = false ->
        ChatWidget.currentSessionId (ChatWidget.state cl')
        = ChatWidget.currentSessionId (ChatWidget.state later)
        /\ ChatWidget.chatCurrentSessionId cl' = ChatWidget.chatCurrentSessionId later)
    /\ (later = awaiting st cl ->
        ChatWidget.messages (ChatWidget.state cl')
        = ChatWidget.messages (ChatWidget.state cl) ++ [u; a]
        /\ ChatWidget.error (ChatWidget.state cl') = None).
Proof.
  intros Hl Ht Hok.
  rewrite (sendMessage_starts trim entropy now _ Hl Ht).
  unfold ChatWidget.sendMessage_settled. rewrite Hok. simpl negb. cbv iota.
  eexists _, _, _, _, _, _. split; [reflexivity|]. split; [reflexivity|].
  split; [reflexivity|].
  cbn [ChatWidget.userMessage ChatWidget.sessionIdThen ChatWidget.showSidebarThen
       ChatWidget.state ChatWidget.chatCurrentSessionId].
  destruct (truthy_opt (ChatWidget.data_sessionId (body r))
            && negb (truthy_opt (ChatWidget.currentSessionId (ChatWidget.state cl))))
    eqn:Hadopt; simpl.
  - repeat split; try discriminate.
    + subst later. simpl. now rewrite <- app_assoc.
    + subst later. reflexivity.
  - repeat split; try discriminate.
    + subst later. simpl. now rewrite <- app_assoc.
    + subst later. reflexivity.
Qed.

(** ** The widget and the routes *)

(** The history of the conversation after the user turn alone. *)
Lemma user_turn_history (dt : nat) (c : Conversation.t) (message : string) (s : Store) :
  wf s ->
  find (has_sessionId (Conversation.sessionId c)) (conversations s) = Some c ->
  exists u,
    history_of (write_message dt (Conversation.id c) USER message s)
               (Conversation.sessionId c)
    = map select_history_item (messages_of s (Conversation.id c)) ++ [u]
    /\ HistoryItem.sender u = USER /\ HistoryItem.text u = message.
Proof.
  intros Hwf Hf. unfold history_of. simpl. rewrite Hf.
  rewrite messages_of_after_write by exact Hwf.
  rewrite map_app. simpl. eexists. split; [reflexivity|]. split; reflexivity.
Qed.

(** A request answered with status 200: what the history route lists for
    the returned token grows by the two turns. *)
Lemma answered_history (env : Env) (request : RequestBody) (w w' : World)
    (r : Response) :
  wf (store w) ->
  MessageRoute.POST env request w = (Returned r, w') ->
  status r = 200 ->
  exists message sessionId reply u a,
    MessageRoute.messageSchema_safeParse request = inr (message, sessionId)
    /\ r = NextResponse_json (ReplyBody reply (newSessionId env sessionId)) 200
    /\ wf (store w')
    /\ history_of (store w') (newSessionId env sessionId)
       = history_of (store w) (newSessionId env sessionId) ++ [u; a]
    /\ HistoryItem.sender u = USER /\ HistoryItem.text u = message
    /\ HistoryItem.sender a = AI /\ HistoryItem.text a = reply
    /\ (truthy_opt sessionId = false ->
        history_of (store w) (newSessionId env sessionId) = []).
Proof.
  intros Hwf Hrun Hstatus.
  destruct (POST_handled env request w) as (r0 & w0 & Hrun0 & H).
  rewrite Hrun in Hrun0. injection Hrun0 as <- <-.
  inversion H as [Hm|issue Hm Hp|message sessionId e w1 Hm Hp Hres
                  |message sessionId c w1 e w2 Hm Hp Hres Hpath
                  |message sessionId c w1 r0 w2 Hm Hp Hres Hpath]; subst;
    try (simpl in Hstatus; discriminate).
  pose proof (resolution_wf _ _ _ _ _ Hwf Hres) as Hwf1.
  destruct (resolution_history _ _ _ _ _ Hwf Hres) as [Hf Hbefore].
  destruct (resolution_returned _ _ _ _ _ Hres) as (_ & Htok & _ & Heng1 & Henc).
  assert (exists reply, body r = ReplyBody reply (Conversation.sessionId c)
                        /\ r = NextResponse_json
                                 (ReplyBody reply (Conversation.sessionId c)) 200)
    as (reply & Hbody & Hr).
  { inversion Hpath as [|Hm' Hc Hfb| |e Hm' Hc He|Hm' Hc He Ha|]; subst;
      [| simpl in Hstatus; discriminate |]; eexists; split; reflexivity. }
  destruct (reply_path_history _ _ _ _ _ _ _ _ Hwf1 Hf Hpath Hbody)
    as (_ & Hwf2 & Heng2 & u & a & Hafter & Hu).
  exists message, sessionId, reply, u, a.
  rewrite <- Htok.
  split; [exact Hp|]. split; [exact Hr|]. split; [exact Hwf2|].
  split; [now rewrite Hafter, Hbefore|]. 
  destruct Hu as (Hu1 & Hu2 & Ha1 & Ha2).
  repeat (split; [assumption|]).
  intros Hfalse. unfold history_of.
  inversion Hres as [|s c0 Hs Ht He Hfind|s Hs Ht He Hfind Hi| |Ht Hfind|]; subst;
    try (simpl in Hfalse; congruence).
  cbn [Conversation.sessionId new_conversation].
  apply create_refusal_none in Hfind as (_ & _ & Hfind).
  rewrite find_existsb in Hfind.
  destruct (find (has_sessionId (randomUUID (entropy env))) (conversations (store w)));
    [discriminate|reflexivity].
Qed.

Lemma parse_sent (message : string) (sessionId : option string) (m' : string)
    (sid' : option string) :
  MessageRoute.messageSchema_safeParse
    (Body (Str message) (match sessionId with Some s => Str s | None => Absent end))
  = inr (m', sid') ->
  m' = message /\ sid' = sessionId.
Proof.
  unfold MessageRoute.messageSchema_safeParse, MessageRoute.parse_message.
  destruct (String.length message <? 1); [discriminate|].
  destruct (MessageRoute.MAX_MESSAGE_LENGTH <? String.length message); [discriminate|].
  destruct sessionId; simpl; intros [= <- <-]; split; reflexivity.
Qed.

Lemma settled_answered (p : ChatWidget.Pending) (reply token : string)
    (entropy : N) (now : nat) (cl cl' : ChatWidget.Client)
    (reloads : list ChatWidget.Request) :
  truthy token = true ->
  ChatWidget.sendMessage_settled p
    (ChatWidget.Responded (NextResponse_json (ReplyBody reply token) 200))
    entropy now cl = (cl', reloads) ->
  map shown (ChatWidget.messages (ChatWidget.state cl'))
  = map shown (ChatWidget.messages (ChatWidget.state cl)) ++ [(AI, Some reply)]
  /\ ChatWidget.currentSessionId (ChatWidget.state cl')
     = (if truthy_opt (ChatWidget.sessionIdThen p)
        then ChatWidget.currentSessionId (ChatWidget.state cl)
        else Some token).
Proof.
  intros Ht H. unfold ChatWidget.sendMessage_settled in H.
  cbn [ChatWidget.ok status NextResponse_json body negb Nat.leb andb
       ChatWidget.data_sessionId ChatWidget.data_reply] in H.
  simpl in H. rewrite Ht in H.
  destruct (truthy_opt (ChatWidget.sessionIdThen p)); simpl in H;
    injection H as <- _; simpl; rewrite map_app; split; reflexivity.
Qed.

(** X15. A transcript that agrees with the server still agrees after a send
    that is answered with status 200: the two messages the widget appends
    are the two turns the server stored, under the session the widget ends
    with, which is the token of the response: the session the widget had,
    or the one the server minted when it had none. *)
Theorem answered_send_keeps_in_sync (trim : string -> string) (env : Env)
    (entropy entropy' : N) (now now' : nat) (cl cl' : ChatWidget.Client)
    (w w' : World) (st : ChatWidget.State) (rq : ChatWidget.Request)
    (p : ChatWidget.Pending) (r : Response) (reloads : list ChatWidget.Request) :
  in_sync cl w ->
  wf (store w) ->
  ChatWidget.sendMessage trim entropy now (ChatWidget.state cl) = (st, Some (rq, p)) ->
  serve env rq w = (Returned r, w') ->
  status r = 200 ->
  ChatWidget.sendMessage_settled p (ChatWidget.Responded r) entropy' now' (awaiting st cl)
  = (cl', reloads) ->
  in_sync cl' w'
  /\ wf (store w')
  /\ exists reply token,
      body r = ReplyBody reply token
      /\ token <> EmptyString
      /\ ChatWidget.currentSessionId (ChatWidget.state cl') = Some token
      /\ (truthy_opt (ChatWidget.currentSessionId (ChatWidget.state cl)) = true ->
          ChatWidget.currentSessionId (ChatWidget.state cl) = Some token).
Proof.
  intros Hsync Hwf Hsend Hserve Hstatus Hsettled.
  unfold ChatWidget.sendMessage in Hsend.
  destruct (negb (truthy (trim (ChatWidget.inputValue (ChatWidget.state cl))))
            || ChatWidget.isLoading (ChatWidget.state cl)) eqn:Hguard;
    [discriminate|].
  injection Hsend as <- <- <-.
  cbn [serve] in Hserve.
  destruct (answered_history env _ w w' r Hwf Hserve Hstatus)
    as (message & sessionId & reply & u & a & Hp & -> & Hwf' & Hhist
        & Hu1 & Hu2 & Ha1 & Ha2 & Hnew).
  apply parse_sent in Hp as [-> ->].
  pose proof (newSessionId_truthy env
                (if truthy_opt (ChatWidget.currentSessionId (ChatWidget.state cl))
                 then ChatWidget.currentSessionId (ChatWidget.state cl) else None))
    as Htok.
  destruct (settled_answered _ _ _ _ _ _ _ _ Htok Hsettled) as [Hmsgs Hcur].
  simpl in Hmsgs, Hcur.
  assert (map shown (ChatWidget.messages (ChatWidget.state cl'))
          = map shown (ChatWidget.messages (ChatWidget.state cl))
            ++ [listed u; listed a]) as Hshown.
  { rewrite Hmsgs, map_app, <- app_assoc. simpl.
    unfold listed. now rewrite Hu1, Hu2, Ha1, Ha2. }
  clear Hmsgs Hsettled Hserve Hstatus.
  unfold in_sync in *. rewrite Hcur. clear Hcur.
  destruct (ChatWidget.currentSessionId (ChatWidget.state cl)) as [s|];
    [cbn [truthy_opt] in *; destruct (truthy s) eqn:Hts|].
  - (* the widget has a session: it is the token *)
    assert (newSessionId env (Some s) = s) as Hnews
        by (unfold newSessionId; simpl; now rewrite Hts).
    rewrite Hnews in *. cbn beta iota. rewrite Hts.
    split; [|split; [exact Hwf'|]].
    + now rewrite Hshown, Hhist, map_app, Hsync.
    + exists reply, s. split; [reflexivity|]. split; [now apply truthy_nonempty|].
      split; reflexivity.
  - (* an empty session counts as none *)
    cbn beta iota. rewrite Htok.
    split; [|split; [exact Hwf'|]].
    + rewrite Hshown, Hhist, Hnew, Hsync by reflexivity. reflexivity.
    + eexists _, _. split; [reflexivity|]. split; [now apply truthy_nonempty|].
      split; [reflexivity|discriminate].
  - cbn [truthy_opt] in *. cbn beta iota. rewrite Htok.
    split; [|split; [exact Hwf'|]].
    + rewrite Hshown, Hhist, Hnew, Hsync by reflexivity. reflexivity.
    + eexists _, _. split; [reflexivity|]. split; [now apply truthy_nonempty|].
      split; [reflexivity|discriminate].
Qed.

Lemma settled_failed (p : ChatWidget.Pending) (r : Response) (entropy : N)
    (now : nat) (cl cl' : ChatWidget.Client) (reloads : list ChatWidget.Request) :
  ChatWidget.ok r = false ->
  ChatWidget.sendMessage_settled p (ChatWidget.Responded r) entropy now cl
  = (cl', reloads) ->
  ChatWidget.messages (ChatWidget.state cl')
  = filter (fun msg => negb (ChatWidget.MessageId_eqb
                               (ChatWidget.id msg)
                               (ChatWidget.id (ChatWidget.userMessage p))))
           (ChatWidget.messages (ChatWidget.state cl))
  /\ ChatWidget.currentSessionId (ChatWidget.state cl')
     = ChatWidget.currentSessionId (ChatWidget.state cl).
Proof.
  intros Hok H. unfold ChatWidget.sendMessage_settled in H. rewrite Hok in H.
  simpl in H. injection H as <- _. split; reflexivity.
Qed.

(** X16. A send that the server answers with status 500 and a sentence of
    the gateway (any body but the sentence of the handler's own [catch]),
    while the widget holds a session, breaks the agreement between the
    transcript and the server: the widget removes the user message from the
    transcript, the server keeps the user turn it stored before calling the
    gateway, and reloading the history of the session shows the message
    whose send was reported as failed, as the last one and unanswered. *)
Theorem failed_send_stays_on_the_server (trim : string -> string) (env : Env)
    (entropy entropy' : N) (now now' : nat) (cl cl' : ChatWidget.Client)
    (w w' : World) (st : ChatWidget.State) (rq : ChatWidget.Request)
    (p : ChatWidget.Pending) (r : Response) (reloads : list ChatWidget.Request)
    (s : string) :
  in_sync cl w ->
  wf (store w) ->
  ChatWidget.currentSessionId (ChatWidget.state cl) = Some s ->
  truthy s = true ->
  Forall (fun m => ChatWidget.id m <> ChatWidget.Local (randomUUID entropy))
         (ChatWidget.messages (ChatWidget.state cl)) ->
  ChatWidget.sendMessage trim entropy now (ChatWidget.state cl) = (st, Some (rq, p)) ->
  serve env rq w = (Returned r, w') ->
  status r = 500 ->
  body r <> ErrorBody (Sentence MessageRoute.UNEXPECTED) ->
  ChatWidget.sendMessage_settled p (ChatWidget.Responded r) entropy' now' (awaiting st cl)
  = (cl', reloads) ->
  ChatWidget.messages (ChatWidget.state cl') = ChatWidget.messages (ChatWidget.state cl)
  /\ ~ in_sync cl' w'
  /\ exists u,
      history_of (store w') s = history_of (store w) s ++ [u]
      /\ listed u
         = (USER, Some (trim (ChatWidget.inputValue (ChatWidget.state cl))))
      /\ exists reloaded w'',
          serve env (ChatWidget.GetHistory s) w' = (Returned reloaded, w'')
          /\ map shown (ChatWidget.messages
                          (ChatWidget.loadHistory_settled
                             (ChatWidget.Responded reloaded) (ChatWidget.state cl')))
             = map shown (ChatWidget.messages (ChatWidget.state cl)) ++ [listed u].
Proof.
  intros Hsync Hwf Hs Hts Hfresh Hsend Hserve Hstatus Hbody Hsettled.
  unfold ChatWidget.sendMessage in Hsend.
  destruct (negb (truthy (trim (ChatWidget.inputValue (ChatWidget.state cl))))
            || ChatWidget.isLoading (ChatWidget.state cl)) eqn:Hguard;
    [discriminate|].
  injection Hsend as <- <- <-.
  rewrite Hs in Hserve. cbn [serve truthy_opt] in Hserve. rewrite Hts in Hserve.
  (* the widget *)
  assert (ChatWidget.ok r = false) as Hok
      by (unfold ChatWidget.ok; now rewrite Hstatus).
  destruct (settled_failed _ _ _ _ _ _ _ Hok Hsettled) as [Hmsgs Hcur].
  simpl in Hmsgs, Hcur.
  rewrite filter_out_fresh in Hmsgs by (exact Hfresh || reflexivity).
  clear Hsettled.
  (* the server *)
  destruct (POST_handled env (Body (Str (trim (ChatWidget.inputValue
                                                (ChatWidget.state cl))))
                                   (Str s)) w)
    as (r0 & w0 & Hrun0 & H).
  rewrite Hserve in Hrun0. injection Hrun0 as <- <-.
  assert (exists u,
             encodes (engine (store w')) s = true
             /\ history_of (store w') s = history_of (store w) s ++ [u]
             /\ listed u
                = (USER, Some (trim (ChatWidget.inputValue (ChatWidget.state cl)))))
    as (u & Henc' & Hhist & Hu).
  { inversion H as [Hm|issue Hm Hp|message sessionId e w1 Hm Hp Hres
                    |message sessionId c w1 e w2 Hm Hp Hres Hpath
                    |message sessionId c w1 r0 w2 Hm Hp Hres Hpath]; subst;
      try discriminate; try (exfalso; apply Hbody; reflexivity).
    apply (parse_sent _ (Some s)) in Hp as [-> ->].
    pose proof (resolution_wf _ _ _ _ _ Hwf Hres) as Hwf1.
    destruct (resolution_history _ _ _ _ _ Hwf Hres) as [Hf Hbefore].
    destruct (resolution_returned _ _ _ _ _ Hres) as (Hex & Htok & _ & Heng1 & Henc).
    assert (newSessionId env (Some s) = s) as Hnews
        by (unfold newSessionId; simpl; now rewrite Hts).
    rewrite Hnews in Htok, Henc.
    inversion Hpath as [|Hm' Hc Hfb| |e Hm' Hc He|Hm' Hc He Ha|]; subst;
      try discriminate.
    destruct (user_turn_history (dt_user env) c
                (trim (ChatWidget.inputValue (ChatWidget.state cl)))
                (store w1) Hwf1 Hf) as (u & Hafter & Hu1 & Hu2).
    exists u. cbn [store].
    split; [simpl; now rewrite Heng1|].
    split; [now rewrite Hafter, Hbefore|].
    unfold listed. now rewrite Hu1, Hu2. }
  clear H Hserve.
  split; [exact Hmsgs|].
  split.
  - unfold in_sync in *. rewrite Hcur, Hs in *. rewrite Hts in *.
    rewrite Hmsgs, Hsync, Hhist. intros Heq.
    apply (f_equal (@List.length _)) in Heq.
    rewrite !length_map, length_app in Heq. simpl in Heq. lia.
  - exists u. split; [exact Hhist|]. split; [exact Hu|].
    pose proof (history_GET_history_of s w' Hts Henc') as Hget.
    cbn [serve].
    destruct (HistoryRoute.GET (Some s) w') as [o w''] eqn:Hg.
    simpl in Hget. subst o.
    eexists _, w''. split; [reflexivity|].
    unfold in_sync in Hsync. rewrite Hs, Hts in Hsync.
    simpl. rewrite Hsync, Hhist, !map_app, !map_map. reflexivity.
Qed.

(** ** The widget: opening a session *)

(** Loading the history of the current session brings the transcript in
    agreement with the server. *)
Lemma load_in_sync (env : Env) (cl : ChatWidget.Client) (w : World) (s : string) :
  encodes (engine (store w)) s = true ->
  truthy s = true ->
  ChatWidget.currentSessionId (ChatWidget.state cl) = Some s ->
  exists r w',
    serve env (ChatWidget.GetHistory s) w = (Returned r, w')
    /\ store w' = store w
    /\ ChatWidget.messages
         (ChatWidget.loadHistory_settled (ChatWidget.Responded r) (ChatWidget.state cl))
       = map ChatWidget.of_item (history_of (store w) s)
    /\ in_sync (awaiting (ChatWidget.loadHistory_settled (ChatWidget.Responded r)
                                                          (ChatWidget.state cl)) cl) w'.
Proof.
  intros He Ht Hs. cbn [serve].
  pose proof (history_GET_history_of s w Ht He) as Hget.
  pose proof (history_GET_store (Some s) w) as Hstore.
  destruct (HistoryRoute.GET (Some s) w) as [o w'] eqn:Hg.
  simpl in Hget, Hstore. subst o.
  eexists _, w'. split; [reflexivity|]. split; [exact Hstore|].
  split; [reflexivity|].
  unfold in_sync. simpl. rewrite Hs, Ht, Hstore, map_map. reflexivity.
Qed.

Lemma find_unique_token (l : list Conversation.t) (c : Conversation.t) :
  NoDup (map Conversation.sessionId l) -> In c l ->
  find (has_sessionId (Conversation.sessionId c)) l = Some c.
Proof.
  induction l as [|x l IH]; simpl; intros Hnd Hin; [contradiction|].
  inversion Hnd as [|? ? Hx Hl]; subst.
  unfold has_sessionId at 1.
  destruct Hin as [->|Hin]; [now rewrite String.eqb_refl|].
  destruct (String.eqb (Conversation.sessionId x) (Conversation.sessionId c)) eqn:E.
  - apply String.eqb_eq in E. exfalso. apply Hx. rewrite E. now apply in_map.
  - now apply IH.
Qed.

Lemma listing_tokens (s : Store) (conv : ConversationSummary.t) :
  wf s ->
  In conv (map ConversationsRoute.summary
               (map (include_first_and_count s)
                    (orderBy_desc Conversation.updatedAt (conversations s)))) ->
  truthy (ConversationSummary.sessionId conv) = true
  /\ encodes (engine s) (ConversationSummary.sessionId conv) = true
  /\ exists c,
      find (has_sessionId (ConversationSummary.sessionId conv)) (conversations s)
      = Some c
      /\ ConversationSummary.messageCount conv
         = List.length (messages_of s (Conversation.id c)).
Proof.
  intros Hwf Hin.
  rewrite map_map in Hin. apply in_map_iff in Hin as (c & <- & Hc).
  apply (Permutation_in _ (Permutation_sym (orderBy_desc_perm _ _))) in Hc.
  cbn [ConversationsRoute.summary ConversationSummary.sessionId
       ConversationSummary.messageCount include_first_and_count conv
       _count_messages].
  split; [|split].
  - apply truthy_nonempty.
    exact (proj1 (Forall_forall _ _) (wf_tokens s Hwf) c Hc).
  - exact (proj1 (Forall_forall _ _) (wf_encoded s Hwf) c Hc).
  - exists c. split.
    + apply find_unique_token; [exact (wf_unique s Hwf)|exact Hc].
    + unfold messages_of.
      now rewrite <- (Permutation_length (orderBy_asc_perm Message.timestamp _)).
Qed.

(** X17. Every conversation the sidebar lists can be opened: the listing
    leaves the store alone, each entry carries a non-empty token, selecting
    it makes it the current session, in the state and in [localStorage],
    and requests its history; once that is loaded the transcript agrees with
    the server and has as many messages as the entry's [messageCount]. *)
Theorem listed_conversation_opens_in_sync (env : Env) (cl : ChatWidget.Client)
    (w : World) :
  wf (store w) ->
  exists listing w1,
    serve env ChatWidget.GetConversations w = (Returned listing, w1)
    /\ store w1 = store w
    /\ forall conv,
        In conv (ChatWidget.conversations
                   (ChatWidget.loadConversations_settled
                      (ChatWidget.Responded listing) (ChatWidget.state cl))) ->
        let token := ConversationSummary.sessionId conv in
        let selected := fst (ChatWidget.selectConversation conv cl) in
        exists history w2,
          token <> EmptyString
          /\ snd (ChatWidget.selectConversation conv cl) = [ChatWidget.GetHistory token]
          /\ ChatWidget.currentSessionId (ChatWidget.state selected) = Some token
          /\ ChatWidget.chatCurrentSessionId selected = Some token
          /\ serve env (ChatWidget.GetHistory token) w1 = (Returned history, w2)
          /\ store w2 = store w
          /\ in_sync (awaiting (ChatWidget.loadHistory_settled
                                  (ChatWidget.Responded history)
                                  (ChatWidget.state selected)) selected) w2
          /\ List.length (ChatWidget.messages
                            (ChatWidget.loadHistory_settled
                               (ChatWidget.Responded history)
                               (ChatWidget.state selected)))
             = ConversationSummary.messageCount conv.
Proof.
  intros Hwf. cbn [serve]. rewrite conversations_GET_run.
  eexists _, _. split; [reflexivity|]. split; [reflexivity|].
  intros conv Hin. simpl in Hin.
  destruct (listing_tokens (store w) conv Hwf Hin) as (Ht & He & c & Hf & Hcount).
  cbv zeta.
  destruct (load_in_sync env (fst (ChatWidget.selectConversation conv cl))
              (log ConversationFindMany w) (ConversationSummary.sessionId conv)
              He Ht eq_refl)
    as (history & w2 & Hserve & Hstore & Hmsgs & Hsync).
  exists history, w2.
  split; [now apply truthy_nonempty|].
  split; [reflexivity|]. split; [reflexivity|]. split; [reflexivity|].
  split; [exact Hserve|]. split; [exact Hstore|]. split; [exact Hsync|].
  rewrite Hmsgs, length_map, Hcount. unfold history_of.
  cbn [log store]. rewrite Hf. now rewrite length_map.
Qed.

(** No conversation is stored under a token the engine cannot encode. *)
Lemma unknown_token_history (s : Store) (token : string) :
  wf s -> encodes (engine s) token = false -> history_of s token = [].
Proof.
  intros Hwf He. unfold history_of.
  destruct (find (has_sessionId token) (conversations s)) as [c|] eqn:Hf;
    [|reflexivity].
  apply find_some in Hf as [Hin Hc]. apply String.eqb_eq in Hc.
  pose proof (proj1 (Forall_forall _ _) (wf_encoded s Hwf) c Hin) as Hc'.
  simpl in Hc'. congruence.
Qed.

(** X18. On mount, a non-empty token found in [localStorage] becomes the
    current session and its history is requested.  Once the response is
    there the transcript agrees with the server, whether or not the server
    knows the token, when the store accepts the token as text or the
    transcript was empty at the mount, as it is in the initial state: the
    history of a token the store cannot encode is answered with an error
    and the transcript stays as it was.  Without such a token the widget
    changes nothing and requests nothing. *)
Theorem mount_restores_session (env : Env) (cl : ChatWidget.Client) (w : World) :
  wf (store w) ->
  (truthy_opt (ChatWidget.chatCurrentSessionId cl) = false ->
   ChatWidget.mount cl = (cl, []))
  /\ (forall token,
        ChatWidget.chatCurrentSessionId cl = Some token ->
        token <> EmptyString ->
        let mounted := fst (ChatWidget.mount cl) in
        exists history w',
          snd (ChatWidget.mount cl) = [ChatWidget.GetHistory token]
          /\ ChatWidget.currentSessionId (ChatWidget.state mounted) = Some token
          /\ ChatWidget.chatCurrentSessionId mounted = Some token
          /\ serve env (ChatWidget.GetHistory token) w = (Returned history, w')
          /\ store w' = store w
          /\ (encodes (engine (store w)) token = true
              \/ ChatWidget.messages (ChatWidget.state cl) = [] ->
              in_sync (awaiting (ChatWidget.loadHistory_settled
                                   (ChatWidget.Responded history)
                                   (ChatWidget.state mounted)) mounted) w')
          /\ (encodes (engine (store w)) token = false ->
              status history = 500
              /\ ChatWidget.messages
                   (ChatWidget.loadHistory_settled (ChatWidget.Responded history)
                                                   (ChatWidget.state mounted))
                 = ChatWidget.messages (ChatWidget.state cl))).
Proof.
  intros Hwf. unfold ChatWidget.mount. split.
  - destruct (ChatWidget.chatCurrentSessionId cl) as [s|]; simpl;
      [intros ->|]; reflexivity.
  - intros token Hs Ht. apply truthy_nonempty in Ht. rewrite Hs, Ht. cbv zeta.
    cbn [fst snd].
    destruct (encodes (engine (store w)) token) eqn:He.
    + destruct (load_in_sync env
                  {| ChatWidget.state :=
                       ChatWidget.set_currentSessionId (Some token)
                                                       (ChatWidget.state cl);
                     ChatWidget.chatCurrentSessionId := Some token |}
                  w token He Ht eq_refl)
        as (history & w' & Hserve & Hstore & _ & Hsync).
      exists history, w'. repeat (split; [reflexivity|]).
      split; [exact Hserve|]. split; [exact Hstore|].
      split; [intros _; exact Hsync|discriminate].
    + cbn [serve]. rewrite (history_GET_refused token w Ht He).
      eexists _, _. repeat (split; [reflexivity|]).
      split; [|intros _; split; reflexivity].
      intros [Hc|Hempty]; [discriminate|].
      unfold in_sync. simpl. rewrite Ht.
      now rewrite Hempty, unknown_token_history.
Qed.

(** X19. Starting a new conversation draws a token, makes it the current
    session in the state and in [localStorage], and empties the transcript
    without asking the server anything; when the server has no conversation
    under that token the transcript agrees with it, and the next send
    carries the token, so that the server creates the conversation under
    the token the widget drew. *)
Theorem new_conversation_in_sync (trim : string -> string) (entropy entropy' : N)
    (now : nat) (cl : ChatWidget.Client) (w : World) :
  let started := ChatWidget.startNewConversation entropy cl in
  ChatWidget.currentSessionId (ChatWidget.state started) = Some (randomUUID entropy)
  /\ ChatWidget.chatCurrentSessionId started = Some (randomUUID entropy)
  /\ ChatWidget.messages (ChatWidget.state started) = []
  /\ (existsb (has_sessionId (randomUUID entropy)) (conversations (store w)) = false ->
      in_sync started w)
  /\ (forall st rq p,
        ChatWidget.sendMessage trim entropy' now (ChatWidget.state started)
        = (st, Some (rq, p)) ->
        rq = ChatWidget.PostMessage
               (trim (ChatWidget.inputValue (ChatWidget.state cl)))
               (Some (randomUUID entropy))).
Proof.
  cbv zeta. split; [reflexivity|]. split; [reflexivity|]. split; [reflexivity|].
  split.
  - intros Hnone. unfold in_sync.
    cbn [ChatWidget.startNewConversation ChatWidget.state ChatWidget.currentSessionId
         ChatWidget.set_error ChatWidget.set_showSidebar ChatWidget.set_messages
         ChatWidget.set_currentSessionId ChatWidget.messages].
    rewrite randomUUID_truthy. unfold history_of.
    rewrite find_existsb in Hnone.
    destruct (find (has_sessionId (randomUUID entropy)) (conversations (store w)));
      [discriminate|reflexivity].
  - intros st rq p Hsend. unfold ChatWidget.sendMessage in Hsend.
    destruct (negb _ || _); [discriminate|].
    injection Hsend as _ <- _. reflexivity.
Qed.

(** * The properties at concrete inputs *)


Lemma gateway_error_keeps_user_turn_witness :
  hello_s1 <> Malformed
  /\ MessageRoute.messageSchema_safeParse hello_s1 = inr ("hello", Some "s1")
  /\ MessageRoute.getOrCreateConversation failing_gateway (Some "s1") initial
     = (Returned conversation_s1, resolved_s1)
  /\ encodes (engine (store resolved_s1)) "hello" = true
  /\ isConfigured (getLLMService failing_gateway) = true
  /\ rejected (provider failing_gateway
                 (request_for failing_gateway conversation_s1 "hello"
                              (store resolved_s1))) = true
  /\ exists sentence w',
       MessageRoute.POST failing_gateway hello_s1 initial
       = (Returned (NextResponse_json (ErrorBody (Sentence sentence)) 500), w')
       /\ In sentence error_sentences
       /\ conversations (store w') = conversations (store resolved_s1).
Proof.
  assert (hello_s1 <> Malformed) as Hm by discriminate.
  assert (MessageRoute.messageSchema_safeParse hello_s1 = inr ("hello", Some "s1"))
    as Hp by reflexivity.
  assert (MessageRoute.getOrCreateConversation failing_gateway (Some "s1") initial
          = (Returned conversation_s1, resolved_s1)) as Hg by reflexivity.
  assert (encodes (engine (store resolved_s1)) "hello" = true) as He by reflexivity.
  assert (isConfigured (getLLMService failing_gateway) = true) as Hc by reflexivity.
  assert (rejected (provider failing_gateway
                      (request_for failing_gateway conversation_s1 "hello"
                                   (store resolved_s1))) = true) as Hr by reflexivity.
  repeat (split; [assumption|]).
  destruct (gateway_error_keeps_user_turn failing_gateway hello_s1 "hello" (Some "s1")
              initial resolved_s1 conversation_s1 Hm Hp Hg He Hc Hr)
    as (sentence & w' & id & timestamp & Hrun & Hin & _ & Hconv & _).
  exists sentence, w'. repeat split; assumption.
Defined.

Lemma POST_accepts_exactly_1_to_2000_witness :
  well_typed_session Absent
  /\ 1 <= String.length "hello" <= 2000
  /\ (String.length long_message = 0 \/ 2000 < String.length long_message)
  /\ (exists token r w',
        MessageRoute.messageSchema_safeParse (Body (Str "hello") Absent)
        = inr ("hello", token)
        /\ MessageRoute.POST no_credential (Body (Str "hello") Absent) initial
           = (Returned r, w')
        /\ status r <> 400)
  /\ (exists sentence,
        MessageRoute.POST no_credential (Body (Str long_message) Absent) initial
        = (Returned (NextResponse_json (ErrorBody (Sentence sentence)) 400), initial)).
Proof.
  assert (well_typed_session Absent) as Hs by (left; reflexivity).
  assert (1 <= String.length "hello" <= 2000) as Hlen by (simpl; lia).
  assert (String.length long_message = 0 \/ 2000 < String.length long_message) as Hlong.
  { right. unfold long_message.
    rewrite string_of_list_ascii_length, repeat_length. lia. }
  repeat (split; [assumption|]).
  split.
  - exact (proj1 (POST_accepts_exactly_1_to_2000 no_credential "hello" Absent initial)
                 Hs Hlen).
  - exact (proj2 (POST_accepts_exactly_1_to_2000 no_credential long_message Absent
                                                 initial)
                 Hlong).
Defined.

Lemma fallback_when_unconfigured_witness :
  Body (Str "hello") Absent <> Malformed
  /\ MessageRoute.messageSchema_safeParse (Body (Str "hello") Absent)
     = inr ("hello", None)
  /\ truthy_opt (OPENAI_API_KEY no_credential) = false
  /\ exists w',
       MessageRoute.POST no_credential (Body (Str "hello") Absent) initial
       = (Returned (fallback_answer (newSessionId no_credential None)), w')
       /\ List.length (messages (store w')) = 2.
Proof.
  assert (Body (Str "hello") Absent <> Malformed) as Hm by discriminate.
  assert (MessageRoute.messageSchema_safeParse (Body (Str "hello") Absent)
          = inr ("hello", None)) as Hp by reflexivity.
  assert (truthy_opt (OPENAI_API_KEY no_credential) = false) as Hk by reflexivity.
  assert (resolves no_credential None initial) as Hres
      by (eexists _, _; vm_compute; reflexivity).
  repeat (split; [assumption|]).
  destruct (fallback_when_unconfigured no_credential (Body (Str "hello") Absent)
              "hello" None initial Hm Hp Hk)
    as (r & w' & Hrun & _ & Hstored).
  destruct (Hstored Hres eq_refl eq_refl)
    as (-> & c & id1 & t1 & id2 & t2 & _ & _ & Hmsgs).
  exists w'. split; [exact Hrun|]. rewrite Hmsgs. reflexivity.
Defined.

Lemma current_message_sent_twice_witness :
  wf (store initial)
  /\ hello_s1 <> Malformed
  /\ MessageRoute.messageSchema_safeParse hello_s1 = inr ("hello", Some "s1")
  /\ MessageRoute.getOrCreateConversation replying_gateway (Some "s1") initial
     = (Returned conversation_s1, resolved_s1)
  /\ encodes (engine (store resolved_s1)) "hello" = true
  /\ isConfigured (getLLMService replying_gateway) = true
  /\ exists window,
       rq_messages (request_for replying_gateway conversation_s1 "hello"
                                (store resolved_s1))
       = {| role := system; content := SYSTEM_PROMPT |}
           :: window
           ++ [ {| role := assistant; content := "hello" |};
                {| role := user; content := "hello" |} ].
Proof.
  assert (hello_s1 <> Malformed) as Hm by discriminate.
  assert (MessageRoute.messageSchema_safeParse hello_s1 = inr ("hello", Some "s1"))
    as Hp by reflexivity.
  assert (MessageRoute.getOrCreateConversation replying_gateway (Some "s1") initial
          = (Returned conversation_s1, resolved_s1)) as Hg by reflexivity.
  assert (encodes (engine (store resolved_s1)) "hello" = true) as He by reflexivity.
  assert (isConfigured (getLLMService replying_gateway) = true) as Hc by reflexivity.
  split; [exact wf_empty|].
  repeat (split; [assumption|]).
  destruct (current_message_sent_twice replying_gateway hello_s1 "hello" (Some "s1")
              initial resolved_s1 conversation_s1 wf_empty Hm Hp Hg He Hc)
    as (older & window & r & w' & rest & _ & _ & _ & Hrq & _).
  exists window. exact Hrq.
Defined.

Lemma generateReply_request_witness :
  client (getLLMService replying_gateway)
  = Some {| apiKey := "sk-test"; chat_completions_create := provider replying_gateway |}
  /\ exists request,
       snd (generateReply (getLLMService replying_gateway) [] "hello" initial)
       = log (ChatCompletionsCreate request) initial
       /\ rq_max_tokens request = 500
       /\ rq_temperature request = 7 # 10.
Proof.
  assert (client (getLLMService replying_gateway)
          = Some {| apiKey := "sk-test";
                    chat_completions_create := provider replying_gateway |})
    as Hc by reflexivity.
  split; [exact Hc|].
  destruct (generateReply_request (getLLMService replying_gateway) _ [] "hello"
              initial Hc)
    as (request & older & Hrun & _ & _ & _ & _ & Htokens & Htemp).
  exists request. rewrite Hrun. repeat split; assumption.
Defined.

Lemma conversations_listing_witness :
  1 <= String.length "a" <= 2000
  /\ encodes (engine (store initial)) "a" = true
  /\ encodes (engine (store initial)) "b" = true
  /\ encodes (engine (store initial)) "c" = true
  /\ 0 < dt_conversation no_credential
  /\ exists a b,
       fst (ConversationsRoute.GET
              (send "c" "s2" (send "b" "s1" (send "a" "s1" initial))))
       = Returned (NextResponse_json (ConversationsBody [a; b]) 200)
       /\ ConversationSummary.sessionId a = "s2"
       /\ ConversationSummary.messageCount a = 2
       /\ ConversationSummary.sessionId b = "s1"
       /\ ConversationSummary.messageCount b = 4.
Proof.
  assert (1 <= String.length "a" <= 2000) as L1 by (simpl; lia).
  assert (0 < dt_conversation no_credential) as L2 by (simpl; lia).
  assert (MessageRoute.POST no_credential (Body (Str "a") (Str "s1")) initial
          = (Returned (fallback_answer "s1"), send "a" "s1" initial))
    as P1 by (vm_compute; reflexivity).
  assert (MessageRoute.POST no_credential (Body (Str "b") (Str "s1"))
                            (send "a" "s1" initial)
          = (Returned (fallback_answer "s1"), send "b" "s1" (send "a" "s1" initial)))
    as P2 by (vm_compute; reflexivity).
  assert (MessageRoute.POST no_credential (Body (Str "c") (Str "s2"))
                            (send "b" "s1" (send "a" "s1" initial))
          = (Returned (fallback_answer "s2"),
             send "c" "s2" (send "b" "s1" (send "a" "s1" initial))))
    as P3 by (vm_compute; reflexivity).
  split; [exact L1|]. repeat (split; [reflexivity|]). split; [exact L2|].
  destruct (proj2 conversations_listing
              no_credential no_credential no_credential "a" "b" "c" _ _ _ _ _ _
              L1 L1 L1 eq_refl eq_refl eq_refl L2 P1 P2 P3)
    as (a & b & Hrun & Hsa & _ & _ & Hsb & _ & _ & Hcounts).
  exists a, b. split; [exact Hrun|]. split; [exact Hsa|].
  destruct (Hcounts eq_refl eq_refl eq_refl) as [Ha Hb].
  split; [exact Ha|]. split; [exact Hsb|exact Hb].
Defined.

Lemma history_is_ascending_witness :
  wf (store one_conversation)
  /\ find (has_sessionId "s1") (conversations (store one_conversation))
     = Some conversation_s1
  /\ exists items w',
       HistoryRoute.GET (Some "s1") one_conversation
       = (Returned (NextResponse_json (HistoryBody items (Some "s1")) 200), w')
       /\ store w' = store one_conversation
       /\ StronglySorted
            (fun a b => HistoryItem.timestamp a <= HistoryItem.timestamp b) items.
Proof.
  assert (wf (store one_conversation)) as Hwf
      by exact (preserves_POST no_credential hello_s1 initial wf_empty).
  assert (find (has_sessionId "s1") (conversations (store one_conversation))
          = Some conversation_s1) as Hf by reflexivity.
  split; [exact Hwf|]. split; [exact Hf|].
  destruct (history_is_ascending "s1" conversation_s1 one_conversation Hwf Hf)
    as (items & w' & Hrun & Hstore & _ & Hsorted).
  exists items, w'. repeat split; assumption.
Defined.

Lemma history_unknown_session_is_empty_witness :
  "nobody" <> EmptyString
  /\ find (has_sessionId "nobody") (conversations (store one_conversation)) = None
  /\ exists r w',
       HistoryRoute.GET (Some "nobody") one_conversation = (Returned r, w')
       /\ r = NextResponse_json (HistoryBody [] (Some "nobody")) 200.
Proof.
  assert ("nobody" <> EmptyString) as Hne by discriminate.
  assert (find (has_sessionId "nobody") (conversations (store one_conversation)) = None)
    as Hf by reflexivity.
  split; [exact Hne|]. split; [exact Hf|].
  destruct (history_unknown_session_is_empty (Some "nobody") one_conversation)
    as (r & w' & Hrun & _ & Hunknown).
  exists r, w'. split; [exact Hrun|].
  exact (proj1 (Hunknown "nobody" eq_refl Hne Hf) eq_refl).
Defined.

Lemma history_is_a_dialogue_witness :
  reachable one_conversation
  /\ find (has_sessionId "s1") (conversations (store one_conversation))
     = Some conversation_s1
  /\ exists items w',
       HistoryRoute.GET (Some "s1") one_conversation
       = (Returned (NextResponse_json (HistoryBody items (Some "s1")) 200), w')
       /\ map HistoryItem.sender items = [USER; AI]
       /\ answers_follow_questions true (map HistoryItem.sender items) = true.
Proof.
  assert (sequential one_conversation) as Hs
      by exact (sequential_POST no_credential hello_s1 initial sequential_initial).
  assert (reachable one_conversation) as Hr by exact (sequential_reachable _ Hs).
  assert (find (has_sessionId "s1") (conversations (store one_conversation))
          = Some conversation_s1) as Hf by reflexivity.
  split; [exact Hr|]. split; [exact Hf|].
  destruct (history_is_a_dialogue one_conversation "s1" conversation_s1 Hr Hf)
    as (items & w' & Hrun & Hitems & Hd).
  exists items, w'. split; [exact Hrun|]. split; [|exact (Hd Hs)].
  rewrite Hitems. reflexivity.
Defined.

Lemma reachable_invariants_witness :
  reachable one_conversation
  /\ NoDup (map Conversation.sessionId (conversations (store one_conversation))).
Proof.
  assert (reachable one_conversation) as Hr
      by exact (reachable_POST no_credential hello_s1 initial reachable_initial).
  split; [exact Hr|].
  exact (proj1 (reachable_invariants one_conversation Hr)).
Defined.

Lemma answered_turns_appear_in_history_witness :
  wf (store initial)
  /\ MessageRoute.POST no_credential hello_s1 initial
     = (Returned (fallback_answer "s1"), one_conversation)
  /\ body (fallback_answer "s1") = ReplyBody MessageRoute.fallbackReply "s1"
  /\ exists before u a,
       fst (HistoryRoute.GET (Some "s1") one_conversation)
       = Returned (NextResponse_json (HistoryBody (before ++ [u; a]) (Some "s1")) 200)
       /\ HistoryItem.text u = "hello"
       /\ HistoryItem.text a = MessageRoute.fallbackReply.
Proof.
  assert (MessageRoute.POST no_credential hello_s1 initial
          = (Returned (fallback_answer "s1"), one_conversation))
    as Hrun by (vm_compute; reflexivity).
  assert (body (fallback_answer "s1") = ReplyBody MessageRoute.fallbackReply "s1")
    as Hbody by reflexivity.
  split; [exact wf_empty|]. split; [exact Hrun|]. split; [exact Hbody|].
  destruct (answered_turns_appear_in_history no_credential hello_s1 initial
              one_conversation (fallback_answer "s1") MessageRoute.fallbackReply "s1"
              wf_empty Hrun Hbody)
    as (message & sessionId & before & u & a & Hp & _ & Hafter & _ & Hu & _ & Ha).
  injection Hp as <- _.
  exists before, u, a. split; [exact Hafter|]. split; [exact Hu|exact Ha].
Defined.

Lemma answered_conversation_is_listed_first_witness :
  wf (store initial)
  /\ MessageRoute.POST replying_gateway hello_s1 initial
     = (Returned shipping_answer,
        snd (MessageRoute.POST replying_gateway hello_s1 initial))
  /\ truthy_opt (OPENAI_API_KEY replying_gateway) = true
  /\ 0 < dt_user replying_gateway + dt_assistant replying_gateway
         + dt_update replying_gateway
  /\ exists first rest,
       fst (ConversationsRoute.GET
              (snd (MessageRoute.POST replying_gateway hello_s1 initial)))
       = Returned (NextResponse_json (ConversationsBody (first :: rest)) 200)
       /\ ConversationSummary.sessionId first = "s1".
Proof.
  assert (MessageRoute.POST replying_gateway hello_s1 initial
          = (Returned shipping_answer,
             snd (MessageRoute.POST replying_gateway hello_s1 initial)))
    as Hrun by (vm_compute; reflexivity).
  assert (truthy_opt (OPENAI_API_KEY replying_gateway) = true) as Hk by reflexivity.
  assert (0 < dt_user replying_gateway + dt_assistant replying_gateway
              + dt_update replying_gateway) as Hdt by (simpl; lia).
  split; [exact wf_empty|]. split; [exact Hrun|]. split; [exact Hk|].
  split; [exact Hdt|].
  destruct (answered_conversation_is_listed_first replying_gateway hello_s1 initial
              _ shipping_answer _ "s1" wf_empty Hrun eq_refl Hk Hdt)
    as (first & rest & Hlist & Hs & _).
  exists first, rest. split; [exact Hlist|exact Hs].
Defined.

Lemma failed_send_rolls_back_witness :
  ChatWidget.isLoading (ChatWidget.state (typing "hello" None)) = false
  /\ truthy (trimmed (ChatWidget.inputValue (ChatWidget.state (typing "hello" None))))
     = true
  /\ failed (ChatWidget.Rejected None) = true
  /\ exists st rq p cl',
       ChatWidget.sendMessage trimmed 0 0 (ChatWidget.state (typing "hello" None))
       = (st, Some (rq, p))
       /\ ChatWidget.sendMessage_settled p (ChatWidget.Rejected None) 1 1
                                         (awaiting st (typing "hello" None))
          = (cl', [])
       /\ ChatWidget.messages (ChatWidget.state cl') = [].
Proof.
  split; [reflexivity|]. split; [reflexivity|]. split; [reflexivity|].
  destruct (failed_send_rolls_back trimmed 0 1 0 1 (typing "hello" None)
              (ChatWidget.Rejected None) eq_refl eq_refl (Forall_nil _) eq_refl)
    as (st & rq & p & cl' & e & Hsend & Hsettled & Hmsgs & _).
  exists st, rq, p, cl'. split; [exact Hsend|]. split; [exact Hsettled|exact Hmsgs].
Defined.

Lemma answered_send_extends_transcript_witness :
  ChatWidget.isLoading (ChatWidget.state (typing "hello" None)) = false
  /\ truthy (trimmed (ChatWidget.inputValue (ChatWidget.state (typing "hello" None))))
     = true
  /\ ChatWidget.ok (fallback_answer "s1") = true
  /\ exists st p cl' reloads,
       ChatWidget.sendMessage trimmed 0 0 (ChatWidget.state (typing "hello" None))
       = (st, Some (ChatWidget.PostMessage "hello" None, p))
       /\ ChatWidget.currentSessionId
            (ChatWidget.state
               (ChatWidget.startNewConversation 2 (awaiting st (typing "hello" None))))
          = Some (randomUUID 2)
       /\ ChatWidget.sendMessage_settled
            p (ChatWidget.Responded (fallback_answer "s1")) 1 1
            (ChatWidget.startNewConversation 2 (awaiting st (typing "hello" None)))
          = (cl', reloads)
       /\ ChatWidget.currentSessionId (ChatWidget.state cl') = Some "s1"
       /\ ChatWidget.chatCurrentSessionId cl' = Some "s1".
Proof.
  split; [reflexivity|]. split; [reflexivity|]. split; [reflexivity|].
  destruct (answered_send_extends_transcript trimmed 0 1 0 1 (typing "hello" None)
              (ChatWidget.startNewConversation 2
                 (awaiting (fst (ChatWidget.sendMessage trimmed 0 0
                                   (ChatWidget.state (typing "hello" None))))
                           (typing "hello" None)))
              (fallback_answer "s1") eq_refl eq_refl eq_refl)
    as (st & p & cl' & reloads & u & a & Hsend & _ & Hsettled & _ & _ & _ & _ & _ & _
        & _ & Hadopt & _).
  exists st, p, cl', reloads. split; [exact Hsend|].
  injection Hsend as <- _.
  split; [reflexivity|]. split; [exact Hsettled|].
  exact (Hadopt eq_refl).
Defined.

Lemma answered_send_keeps_in_sync_witness :
  in_sync (typing "hello" (Some "s1")) initial
  /\ wf (store initial)
  /\ serve no_credential (ChatWidget.PostMessage "hello" (Some "s1")) initial
     = (Returned (fallback_answer "s1"), one_conversation)
  /\ status (fallback_answer "s1") = 200
  /\ exists cl' reloads,
       ChatWidget.sendMessage_settled
         {| ChatWidget.userMessage :=
              {| ChatWidget.id := ChatWidget.Local (randomUUID 0);
                 ChatWidget.sender := USER;
                 ChatWidget.text := Some "hello";
                 ChatWidget.timestamp := 0 |};
            ChatWidget.sessionIdThen := Some "s1";
            ChatWidget.showSidebarThen := false |}
         (ChatWidget.Responded (fallback_answer "s1")) 1 1
         (awaiting (fst (ChatWidget.sendMessage trimmed 0 0
                           (ChatWidget.state (typing "hello" (Some "s1")))))
                   (typing "hello" (Some "s1")))
       = (cl', reloads)
       /\ in_sync cl' one_conversation.
Proof.
  assert (in_sync (typing "hello" (Some "s1")) initial) as Hsync by reflexivity.
  assert (serve no_credential (ChatWidget.PostMessage "hello" (Some "s1")) initial
          = (Returned (fallback_answer "s1"), one_conversation))
    as Hserve by (vm_compute; reflexivity).
  split; [exact Hsync|]. split; [exact wf_empty|]. split; [exact Hserve|].
  split; [reflexivity|].
  eexists _, _. split; [reflexivity|].
  exact (proj1 (answered_send_keeps_in_sync trimmed no_credential 0 1 0 1
                  (typing "hello" (Some "s1")) _ initial one_conversation _ _ _
                  (fallback_answer "s1") _
                  Hsync wf_empty eq_refl Hserve eq_refl eq_refl)).
Defined.

Lemma failed_send_stays_on_the_server_witness :
  in_sync (typing "hello" (Some "s1")) initial
  /\ wf (store initial)
  /\ truthy "s1" = true
  /\ serve failing_gateway (ChatWidget.PostMessage "hello" (Some "s1")) initial
     = (Returned high_demand_answer, unanswered)
  /\ status high_demand_answer = 500
  /\ body high_demand_answer <> ErrorBody (Sentence MessageRoute.UNEXPECTED)
  /\ exists u,
       history_of (store unanswered) "s1" = history_of (store initial) "s1" ++ [u]
       /\ listed u = (USER, Some "hello").
Proof.
  assert (in_sync (typing "hello" (Some "s1")) initial) as Hsync by reflexivity.
  assert (serve failing_gateway (ChatWidget.PostMessage "hello" (Some "s1")) initial
          = (Returned high_demand_answer, unanswered))
    as Hserve by (vm_compute; reflexivity).
  split; [exact Hsync|]. split; [exact wf_empty|]. split; [reflexivity|].
  assert (body high_demand_answer <> ErrorBody (Sentence MessageRoute.UNEXPECTED))
    as Hbody by discriminate.
  split; [exact Hserve|]. split; [reflexivity|]. split; [exact Hbody|].
  destruct (failed_send_stays_on_the_server trimmed failing_gateway 0 1 0 1
              (typing "hello" (Some "s1")) _ initial unanswered _ _ _
              high_demand_answer _ "s1"
              Hsync wf_empty eq_refl eq_refl (Forall_nil _) eq_refl Hserve eq_refl
              Hbody eq_refl)
    as (_ & _ & u & Hhist & Hu & _).
  exists u. split; [exact Hhist|exact Hu].
Defined.

Lemma listed_conversation_opens_in_sync_witness :
  wf (store one_conversation)
  /\ exists listing w1,
       serve no_credential ChatWidget.GetConversations one_conversation
       = (Returned listing, w1)
       /\ store w1 = store one_conversation.
Proof.
  assert (wf (store one_conversation)) as Hwf
      by exact (preserves_POST no_credential hello_s1 initial wf_empty).
  split; [exact Hwf|].
  destruct (listed_conversation_opens_in_sync no_credential (typing EmptyString None)
              one_conversation Hwf)
    as (listing & w1 & Hserve & Hstore & _).
  exists listing, w1. split; [exact Hserve|exact Hstore].
Defined.

Lemma mount_restores_session_witness :
  wf (store one_conversation)
  /\ "s1" <> EmptyString
  /\ exists history w',
       snd (ChatWidget.mount (typing EmptyString (Some "s1"))) = [ChatWidget.GetHistory "s1"]
       /\ serve no_credential (ChatWidget.GetHistory "s1") one_conversation
          = (Returned history, w')
       /\ in_sync (awaiting (ChatWidget.loadHistory_settled
                               (ChatWidget.Responded history)
                               (ChatWidget.state
                                  (fst (ChatWidget.mount (typing EmptyString (Some "s1"))))))
                            (fst (ChatWidget.mount (typing EmptyString (Some "s1")))))
                  w'.
Proof.
  assert (wf (store one_conversation)) as Hwf
      by exact (preserves_POST no_credential hello_s1 initial wf_empty).
  assert ("s1" <> EmptyString) as Hne by discriminate.
  split; [exact Hwf|]. split; [exact Hne|].
  destruct (proj2 (mount_restores_session no_credential (typing EmptyString (Some "s1"))
                     one_conversation Hwf) "s1" eq_refl Hne)
    as (history & w' & Hrq & _ & _ & Hserve & _ & Hsync & _).
  exists history, w'. split; [exact Hrq|]. split; [exact Hserve|].
  exact (Hsync (or_introl eq_refl)).
Defined.
